(** * Stress Free Downloader: the crawl-and-download engine of [DownloadThread]

    A shallow embedding of the worker thread of [src/test.py] and
    [src/test-3.py] (class [DownloadThread]: [run], [count_files],
    [download_file], [download_directory]) and the properties of it that the
    specification states.

    The two program variants share almost all of their text; the places where
    they differ are selected by a [Variant] value. [src/test-2.py], the
    single-file precursor without ledger, retry or directory walk, is not
    part of the model.

    Of the rest of the two programs the development has what the engine
    meets: the part of [DownloadThread.__init__] that reads the progress file
    back, [DownloaderApp.start_download] as far as it decides the arguments
    of the thread, and the slots and click handlers of the window that the
    signals of the thread reach, and [check_url] of test-3.py. [check_url]
    of test.py rests on [construct_final_url] ([urllib.parse]) and is not
    modelled.

    What is outside the program is an oracle, the [World]:
    - the network: the reply to the request issued at logical time [t];
    - the control thread: the logical time from which [_is_canceled] reads
      [True] ([cancel()] is the only writer and nothing clears the flag), and
      how many times [_is_paused] reads [True] at a suspension point;
    - the wall clock: whether the time estimate computed at logical time [t]
      from the seconds elapsed is too large for [datetime.timedelta].
    The logical clock advances by one at every request and every flag read.

    Everything the thread does to the outside (signals, requests, sleeps,
    file writes) is appended to a chronological [trace].

    The recursion over directories and the [while True] loops take a budget
    [fuel]; a call that has spent it ends [OutOfFuel], which no handler
    catches, in the state it had reached. The recursion limit of the
    interpreter is not modelled: no [RecursionError] is raised, a recursion
    that is too deep for the budget ends [OutOfFuel] as a loop does.

    What the model takes from outside the two files:
    - [BeautifulSoup(response.text, 'html.parser').find_all('a')] is a library
      call; a [Response] carries its result: whether the parser rejects the
      markup and, when it does not, the [href] of each anchor in document
      order ([None] for an anchor without the attribute);
    - floating-point payloads (percentages, time estimates, megabytes) are not
      evaluated: a signal records the integer operands of the expression. The
      integers a server declares are taken to be in the range of a float;
      whether a time estimate is in the range of [datetime.timedelta] depends
      on the time that has elapsed, and is an answer of the [World];
    - local file operations ([open], [write], [os.makedirs]) succeed, and two
      paths name the same file only when they are the same string;
      [os.path.join] is the POSIX one.

    What the thread writes to files is in the trace, and [file_on_disk]
    replays it for one path. The component [progress_file] of the state has
    the lines of the progress file as the thread knows them: those [__init__]
    has read and those [pf.write] has appended. That is what the file holds
    unless a transfer has written to the path of the progress file itself
    ([ledger_path]), which [open(file_path, 'wb')] truncates. *)

From Stdlib Require Import ZArith Strings.Byte Strings.Ascii.
From stdpp Require Import gmap strings list.

Open Scope Z_scope.

(** ** Strings *)

(** [s.endswith('/')] *)
Fixpoint endswith_slash (s : string) : bool :=
  match s with
  | EmptyString => false
  | String c EmptyString => Ascii.eqb c "/"%char
  | String _ s' => endswith_slash s'
  end.

(** [s.startswith('/')] *)
Definition startswith_slash (s : string) : bool :=
  match s with
  | String c _ => Ascii.eqb c "/"%char
  | EmptyString => false
  end.

(** [s.split('/')[-1]], with [seg] the segment read so far. *)
Fixpoint last_segment_from (seg s : string) : string :=
  match s with
  | EmptyString => seg
  | String c s' =>
      if Ascii.eqb c "/"%char then last_segment_from EmptyString s'
      else last_segment_from (seg +:+ String c EmptyString) s'
  end.

Definition last_segment (s : string) : string := last_segment_from EmptyString s.

(** [os.path.join(a, b)] (posixpath). *)
Definition os_path_join (a b : string) : string :=
  if startswith_slash b then b
  else if String.eqb a EmptyString || endswith_slash a then a +:+ b
  else a +:+ "/" +:+ b.

(** ** Data model *)

Inductive Variant := TestPy | Test3Py.

(** The exceptions the modelled code can raise. [RequestException] is the
    only one the retry handlers catch. [ParserRejectedMarkup] is what
    [BeautifulSoup] raises on markup that [html.parser] gives up on. *)
Inductive exn :=
| RequestException | ZeroDivisionError | TypeError | KeyError | ValueError
| OverflowError | ParserRejectedMarkup.

(** The arguments of a [requests.get] call: the URL and the keyword
    arguments. [req_auth] is the [auth=] argument; credentials written into
    the URL itself ([user:password@host]) are part of [req_url]. *)
Record Request := mkRequest {
  req_url : string;
  req_stream : bool;
  req_headers : list (string * string);
  req_auth : option (string * string);
  req_allow_redirects : bool }.

(** [response.headers.get('content-length', 0)] as [int()] reads it. *)
Inductive ContentLength :=
| CLAbsent                (* no such header: the default 0 *)
| CLInt (n : Z)           (* a header that denotes the integer n *)
| CLInvalid.              (* a header on which int() raises ValueError *)

Record Response := mkResponse {
  status_code : Z;
  content_length : ContentLength;
  location : option string;            (* headers['Location'] *)
  anchors : list (option string);      (* link.get('href') for each <a> *)
  chunks : list (list byte);           (* what iter_content(1024) yields *)
  broken : bool;                       (* the stream then raises RequestException *)
  unparsable : bool }.                 (* BeautifulSoup(response.text, ...) raises *)

Inductive Reply :=
| NetworkError                         (* requests.get raises RequestException *)
| Replied (r : Response).

Record World := mkWorld {
  http : nat -> Request -> Reply;
  cancel_from : option nat;
  pause_polls : nat -> nat;
  estimate_overflows : nat -> bool -> bool }.

Record Config := mkConfig {
  base_url : string;
  dest_folder : string;
  username : string;                   (* None and '' are both falsy: '' *)
  password : string;
  is_single_file : bool }.

Inductive LogMsg :=
| MsgSkipping (file_path : string)
| MsgDownloaded (file_path : string) (file_size : Z)
| MsgFailedDownload (url : string) (status : Z)
| MsgNetworkIssue (url : string)
| MsgRedirected (redirect_url : string)
| MsgFailedAccess (url : string) (status : Z)
| MsgEntering (new_dest_folder : string)
| MsgDownloadingFile (href new_dest_folder : string)
| MsgNetworkIssueDir (url : string)
| MsgErrorOccurred (e : exn).

(** A percentage the code computes in floating point, by its operands. *)
Inductive Percent :=
| Ratio (num den : Z)                  (* int(num / den * 100) *)
| Fixed (p : Z).

Inductive Signal :=
| progress_signal (written file_size : Z)
| overall_progress_signal (p : Percent)
| log_signal (m : LogMsg)
| complete_signal
| canceled_signal
| file_count_signal (n : Z)
| time_remaining_signal (overall : bool).

Inductive Effect :=
| Emit (sg : Signal)
| HttpGet (r : Request)
| Sleep (seconds : Z)
| PausePoll                            (* time.sleep(0.1) while paused *)
| MessageBox                           (* show_retry_message *)
| OpenWb (path : string)
| Write (path : string) (chunk : list byte)
| AppendLine (path line : string)      (* open(path, 'a'); pf.write(line + '\n') *)
| Makedirs (path : string).            (* os.makedirs unless the path exists *)

(** The attributes of the thread that change, the lines of the progress
    file as the thread knows them (those [__init__] has read, followed by
    those [pf.write] has appended), and what the outside has seen so far. *)
Record State := mkState {
  total_files : Z;
  downloaded_files : Z;
  total_size : Z;
  completed_files : gset string;
  pending_files : list string;
  progress_file : list string;         (* lines read from and appended to the file *)
  trace : list Effect;
  clock : nat }.

(** The state [__init__] leaves, given the ledger lines it has read. *)
Definition init (completed : gset string) (ledger : list string) : State :=
  mkState 0 0 0 completed [] ledger [] 0%nat.

Definition retry_delay : Z := 60.

Definition user_agent : string :=
  "Mozilla/5.0 (Windows NT 10.0; Win64; x64) AppleWebKit/537.36 (KHTML, like Gecko) Chrome/91.0.4472.124 Safari/537.36".

Definition headers : list (string * string) := [("User-Agent"%string, user_agent)].

(** ** State updates *)

Definition push (e : Effect) (s : State) : State :=
  mkState (total_files s) (downloaded_files s) (total_size s) (completed_files s)
          (pending_files s) (progress_file s) (trace s ++ [e]) (clock s).

Definition push_all (es : list Effect) (s : State) : State :=
  mkState (total_files s) (downloaded_files s) (total_size s) (completed_files s)
          (pending_files s) (progress_file s) (trace s ++ es) (clock s).

Definition tick (s : State) : State :=
  mkState (total_files s) (downloaded_files s) (total_size s) (completed_files s)
          (pending_files s) (progress_file s) (trace s) (S (clock s)).

Definition set_total_files (n : Z) (s : State) : State :=
  mkState n (downloaded_files s) (total_size s) (completed_files s)
          (pending_files s) (progress_file s) (trace s) (clock s).

(** [self.downloaded_files += 1; self.total_size += file_size] *)
Definition count_download (file_size : Z) (s : State) : State :=
  mkState (total_files s) (downloaded_files s + 1) (total_size s + file_size)
          (completed_files s) (pending_files s) (progress_file s) (trace s) (clock s).

(** What [pf.write(file_path + '\n')] and
    [self.completed_files.add(file_path)] do to the state. *)
Definition record_completed (file_path : string) (s : State) : State :=
  mkState (total_files s) (downloaded_files s) (total_size s)
          ({[file_path]} ∪ completed_files s) (pending_files s)
          (progress_file s ++ [file_path]) (trace s) (clock s).

(** [self.pending_files.append(url)] *)
Definition append_pending (url : string) (s : State) : State :=
  mkState (total_files s) (downloaded_files s) (total_size s) (completed_files s)
          (pending_files s ++ [url]) (progress_file s) (trace s) (clock s).

Ltac unfold_state :=
  unfold push, push_all, tick, set_total_files, count_download, record_completed,
    append_pending in *; cbn [total_files downloaded_files total_size completed_files
    pending_files progress_file trace clock] in *.

(** ** The monad: state, exceptions, and a recursion budget *)

Inductive Res (A : Type) :=
| Ret (a : A) (s : State)              (* returns a *)
| Exc (e : exn) (s : State)            (* raises e *)
| OutOfFuel (s : State).               (* the budget of the model is spent *)
Arguments Ret {A} a s.
Arguments Exc {A} e s.
Arguments OutOfFuel {A} s.

Definition M (A : Type) : Type := State -> Res A.

Definition state_of {A} (r : Res A) : State :=
  match r with Ret _ s | Exc _ s | OutOfFuel s => s end.

Definition ret {A} (a : A) : M A := fun s => Ret a s.

Definition bind {A B} (m : M A) (f : A -> M B) : M B :=
  fun s => match m s with
           | Ret a s' => f a s'
           | Exc e s' => Exc e s'
           | OutOfFuel s' => OutOfFuel s'
           end.

Definition raise {A} (e : exn) : M A := fun s => Exc e s.
Definition out_of_fuel {A} : M A := fun s => OutOfFuel s.
Definition gets {A} (f : State -> A) : M A := fun s => Ret (f s) s.
Definition modify (f : State -> State) : M unit := fun s => Ret tt (f s).

Notation "x <- m ;; k" := (bind m (fun x => k))
  (at level 100, m at level 99, right associativity).
Notation "m ;; k" := (bind m (fun _ => k))
  (at level 100, right associativity).

(** [try: m except requests.RequestException: ...]: [None] when caught. *)
Definition try_request {A} (m : M A) : M (option A) :=
  fun s => match m s with
           | Ret a s' => Ret (Some a) s'
           | Exc RequestException s' => Ret None s'
           | Exc e s' => Exc e s'
           | OutOfFuel s' => OutOfFuel s'
           end.

(** [try: m except Exception as e: h e] *)
Definition try_exception (m : M unit) (h : exn -> M unit) : M unit :=
  fun s => match m s with
           | Ret a s' => Ret a s'
           | Exc e s' => h e s'
           | OutOfFuel s' => OutOfFuel s'
           end.

Definition emit (sg : Signal) : M unit := modify (push (Emit sg)).
Definition log (m : LogMsg) : M unit := emit (log_signal m).
Definition effect (e : Effect) : M unit := modify (push e).

(** ** The program *)

(** How an iteration of a [while True] body ends. *)
Inductive Ctl :=
| Break
| Return
| Continue (url : string).

(** How the [for chunk in response.iter_content(1024)] loop ends. *)
Inductive StreamEnd :=
| Finished (written : Z)               (* the stream is exhausted, file closed *)
| Aborted.                             (* cancel seen: download_file returns *)

(** [href in ('../', './')] *)
Definition is_nav (href : option string) : bool :=
  match href with
  | Some h => String.eqb h "../" || String.eqb h "./"
  | None => false
  end.

(** [requests.get(url)] *)
Definition listing_request (url : string) : Request :=
  mkRequest url false [] None true.

Section Program.

Variable v : Variant.
Variable w : World.
Variable cfg : Config.

(** [self.progress_file], the path of the progress file. *)
Definition ledger_path : string :=
  os_path_join (dest_folder cfg) "download_progress.txt".

(** The value of [self._is_canceled] at logical time [t]. *)
Definition cancel_set (t : nat) : bool :=
  match cancel_from w with
  | Some k => (k <=? t)%nat
  | None => false
  end.

(** Reading [self._is_canceled]. *)
Definition is_canceled : M bool :=
  fun s => Ret (cancel_set (clock s)) (tick s).

(** [while self._is_paused: time.sleep(0.1)] *)
Definition pause_wait : M unit :=
  fun s => Ret tt (tick (push_all (replicate (pause_polls w (clock s)) PausePoll) s)).

Definition requests_get (r : Request) : M Response :=
  fun s =>
    let s' := tick (push (HttpGet r) s) in
    match http w (clock s) r with
    | NetworkError => Exc RequestException s'
    | Replied resp => Ret resp s'
    end.

(** [requests.get(url, stream=True)] in test.py;
    [requests.get(url, stream=True, headers=headers, auth=auth,
    allow_redirects=False)] in test-3.py. *)
Definition stream_request (url : string) : Request :=
  match v with
  | TestPy => mkRequest url true [] None true
  | Test3Py =>
      let auth :=
        if negb (String.eqb (username cfg) "") && negb (String.eqb (password cfg) "")
        then Some (username cfg, password cfg) else None in
      mkRequest url true headers auth false
  end.

(** The handler of [except requests.RequestException] up to the sleep. *)
Definition retry_pause (m : LogMsg) : M unit :=
  log m ;;
  match v with TestPy => effect MessageBox | Test3Py => ret tt end ;;
  effect (Sleep retry_delay).

(** *** count_files *)

Fixpoint count_links (count : string -> M Z) (url : string)
    (links : list (option string)) (total : Z) : M Z :=
  match links with
  | [] => ret total
  | href :: rest =>
      if is_nav href then count_links count url rest total
      else
        match href with
        | None => raise TypeError                       (* url + None *)
        | Some h =>
            let full_url := url +:+ h in
            if endswith_slash h then
              n <- count full_url ;;
              count_links count url rest (total + n)
            else count_links count url rest (total + 1)
        end
  end.

(** The only statement of the [try] block that raises [RequestException] is
    [requests.get(url)] ([count_files_catches] below), where [total] is still
    0: that is what [except: pass; return total] returns. *)
Fixpoint count_files (fuel : nat) (url : string) : M Z :=
  match fuel with
  | O => out_of_fuel
  | S fuel' =>
      r <- try_request
             (response <- requests_get (listing_request url) ;;
              if negb (status_code response =? 200) then ret 0
              else if unparsable response then raise ParserRejectedMarkup
              else count_links (count_files fuel') url (anchors response) 0) ;;
      match r with
      | Some total => ret total
      | None => ret 0
      end
  end.

(** *** download_file *)

Fixpoint iter_content (file_path : string) (file_size : Z)
    (cs : list (list byte)) (is_broken : bool) (written : Z) : M StreamEnd :=
  match cs with
  | [] => if is_broken then raise RequestException else ret (Finished written)
  | chunk :: rest =>
      written' <-
        match chunk with
        | [] => ret written
        | _ :: _ =>
            let tell := written + Z.of_nat (length chunk) in
            effect (Write file_path chunk) ;;
            (* int(f.tell() / file_size * 100) *)
            (if file_size =? 0 then raise ZeroDivisionError
             else emit (progress_signal tell file_size)) ;;
            ret tell
        end ;;
      pause_wait ;;
      c <- is_canceled ;;
      if c then emit canceled_signal ;; ret Aborted
      else iter_content file_path file_size rest is_broken written'
  end.

(** [self.time_remaining_signal.emit(... str(datetime.timedelta(seconds=
    int(x))))], where [x] is the elapsed time multiplied by [factor]:
    [OverflowError] when [x] is beyond what a [timedelta] holds, which it is
    not when [factor] is 0. *)
Definition estimate (factor : Z) (overall : bool) : M unit :=
  fun s =>
    if negb (factor =? 0) && estimate_overflows w (clock s) overall
    then Exc OverflowError s
    else Ret tt (push (Emit (time_remaining_signal overall)) s).

(** The estimate for the current file: divides by [os.path.getsize]. *)
Definition file_time_remaining (file_size written : Z) : M unit :=
  if 0 <? file_size then
    (if written =? 0 then raise ZeroDivisionError
     else estimate (file_size - written) false)
  else ret tt.

(** What follows [with open(...)] when the stream was read to its end. *)
Definition finish_file (file_path : string) (file_size written : Z) : M unit :=
  match v with
  | TestPy =>
      modify (count_download file_size) ;;
      file_time_remaining file_size written ;;
      d <- gets downloaded_files ;;
      t <- gets total_files ;;
      (if t =? 0 then raise ZeroDivisionError
       else emit (overall_progress_signal (Ratio d t))) ;;
      log (MsgDownloaded file_path file_size) ;;
      effect (AppendLine ledger_path file_path) ;;
      modify (record_completed file_path) ;;
      estimate (t - d) true
  | Test3Py =>
      file_time_remaining file_size written ;;
      modify (count_download file_size) ;;
      d <- gets downloaded_files ;;
      t <- gets total_files ;;
      emit (overall_progress_signal (if 0 <? t then Ratio d t else Fixed 100)) ;;
      log (MsgDownloaded file_path file_size) ;;
      effect (AppendLine ledger_path file_path) ;;
      modify (record_completed file_path)
  end.

(** The [try] block of one iteration of [while True]. *)
Definition attempt (url file_path : string) : M Ctl :=
  response <- requests_get (stream_request url) ;;
  let redirected :=
    match v with
    | TestPy => false
    | Test3Py => status_code response =? 302
    end in
  if redirected then
    match location response with
    | None => raise KeyError                            (* headers['Location'] *)
    | Some redirect_url => log (MsgRedirected redirect_url) ;; ret (Continue redirect_url)
    end
  else if status_code response =? 200 then
    file_size <- match content_length response with
                 | CLAbsent => ret 0
                 | CLInt n => ret n
                 | CLInvalid => raise ValueError
                 end ;;
    effect (OpenWb file_path) ;;
    e <- iter_content file_path file_size (chunks response) (broken response) 0 ;;
    match e with
    | Aborted => ret Return
    | Finished written => finish_file file_path file_size written ;; ret Break
    end
  else
    log (MsgFailedDownload url (status_code response)) ;;
    modify (append_pending url) ;;
    ret Break.

(** The [while True] loop of [download_file]. *)
Fixpoint download_loop (fuel : nat) (url file_path : string) : M unit :=
  match fuel with
  | O => out_of_fuel
  | S fuel' =>
      c <- is_canceled ;;
      if c then emit canceled_signal
      else
        r <- try_request (attempt url file_path) ;;
        match r with
        | Some (Continue url') => download_loop fuel' url' file_path
        | Some _ => ret tt
        | None =>
            retry_pause (MsgNetworkIssue url) ;;
            download_loop fuel' url file_path
        end
  end.

Definition download_file (fuel : nat) (url dest : string) : M unit :=
  c <- is_canceled ;;
  if c then emit canceled_signal
  else
    let filename := last_segment url in
    let file_path := os_path_join dest filename in
    done <- gets (fun s => bool_decide (file_path ∈ completed_files s)) ;;
    if done then log (MsgSkipping file_path)
    else download_loop fuel url file_path.

(** *** download_directory *)

Fixpoint crawl_links (fuel : nat) (walk : string -> string -> M unit)
    (url dest : string) (links : list (option string)) : M unit :=
  match links with
  | [] => ret tt
  | href :: rest =>
      if is_nav href then crawl_links fuel walk url dest rest
      else
        match href with
        | None => raise TypeError                       (* url + None *)
        | Some h =>
            let full_url := url +:+ h in
            let new_dest_folder := os_path_join dest h in
            (if endswith_slash h then
               effect (Makedirs new_dest_folder) ;;
               log (MsgEntering new_dest_folder) ;;
               walk full_url new_dest_folder
             else
               log (MsgDownloadingFile h new_dest_folder) ;;
               download_file fuel full_url dest) ;;
            crawl_links fuel walk url dest rest
        end
  end.

Fixpoint download_directory (fuel : nat) (url dest : string) : M unit :=
  match fuel with
  | O => out_of_fuel
  | S fuel' =>
      c <- is_canceled ;;
      if c then emit canceled_signal
      else
        r <- try_request
               (response <- requests_get (listing_request url) ;;
                if negb (status_code response =? 200) then
                  log (MsgFailedAccess url (status_code response)) ;; ret Return
                else if unparsable response then raise ParserRejectedMarkup
                else
                  crawl_links fuel' (download_directory fuel') url dest
                    (anchors response) ;;
                  ret Break) ;;
        match r with
        | Some _ => ret tt
        | None =>
            retry_pause (MsgNetworkIssueDir url) ;;
            download_directory fuel' url dest
        end
  end.

(** *** run *)

(** The [try] block of [run] before the final test of the cancel flag.
    test.py has no single-file mode. *)
Definition pipeline (fuel : nat) : M unit :=
  let single := match v with TestPy => false | Test3Py => is_single_file cfg end in
  if single then download_file fuel (base_url cfg) (dest_folder cfg)
  else
    total <- count_files fuel (base_url cfg) ;;
    modify (set_total_files total) ;;
    emit (file_count_signal total) ;;
    download_directory fuel (base_url cfg) (dest_folder cfg).

Definition run (fuel : nat) : M unit :=
  try_exception
    (pipeline fuel ;;
     c <- is_canceled ;;
     if negb c then emit complete_signal else ret tt)
    (fun e => log (MsgErrorOccurred e)).

End Program.

(** ** Notions the properties are stated with *)

Section Notions.

Variable v : Variant.
Variable w : World.
Variable cfg : Config.

(** The effects of [count_files], [download_file] and [download_directory]:
    no completion signal, no error report of [run], and requests built by
    one of the two request forms only. *)
Definition emittable (e : Effect) : Prop :=
  match e with
  | Emit complete_signal => False
  | Emit (log_signal (MsgErrorOccurred _)) => False
  | HttpGet r => (∃ u, r = listing_request u) ∨ (∃ u, r = stream_request v cfg u)
  | _ => True
  end.

(** [extends fixed s s']: [s'] is [s] after some steps of the crawl: the
    trace has grown by effects the crawl can produce, the clock and the
    counter of downloaded files have not gone back, a canceled signal among
    the new effects was raised with the cancel flag set, and (when [fixed])
    [total_files] has not been written. *)
Inductive extends (fixed : bool) (s s' : State) : Prop :=
| mkExtends (new : list Effect)
    (ext_trace : trace s' = trace s ++ new)
    (ext_emittable : Forall emittable new)
    (ext_canceled : Emit canceled_signal ∈ new → cancel_set w (clock s') = true)
    (ext_clock : (clock s <= clock s')%nat)
    (ext_downloaded : downloaded_files s <= downloaded_files s')
    (ext_total : fixed = true → total_files s' = total_files s).

(** [steps fixed m]: whatever way [m] ends, it has only extended the state. *)
Definition steps {A} (fixed : bool) (m : M A) : Prop :=
  ∀ s, extends fixed s (state_of (m s)).

(** The state after one request answered with [status]: the request and the
    failure line are in the trace, the URL is pending, nothing else moved. *)
Definition after_failed_status (url : string) (status : Z) (s : State) : State :=
  mkState (total_files s) (downloaded_files s) (total_size s) (completed_files s)
          (pending_files s ++ [url]) (progress_file s)
          (trace s ++ [HttpGet (stream_request v cfg url);
                       Emit (log_signal (MsgFailedDownload url status))])
          (S (S (clock s))).

Definition permanent_failure (r : Response) : Prop :=
  status_code r ≠ 200 ∧ (v = Test3Py → status_code r ≠ 302).

End Notions.

(** What the first iterations of the [while True] loop of [download_file]
    meet: a request that raises [RequestException], or (test-3.py) a 302
    answer naming a new location. *)
Inductive Hop :=
| Fails
| Redirects (target : string).

(** The working URL after the hops. *)
Fixpoint hops_url (url : string) (hs : list Hop) : string :=
  match hs with
  | [] => url
  | Fails :: hs' => hops_url url hs'
  | Redirects target :: hs' => hops_url target hs'
  end.

(** The world makes the hops happen, from logical time [t] on. *)
Fixpoint hops_happen (v : Variant) (w : World) (cfg : Config)
    (t : nat) (url : string) (hs : list Hop) : Prop :=
  match hs with
  | [] => True
  | h :: hs' =>
      cancel_set w t = false ∧
      match h with
      | Fails =>
          http w (S t) (stream_request v cfg url) = NetworkError
          ∧ hops_happen v w cfg (S (S t)) url hs'
      | Redirects target =>
          v = Test3Py
          ∧ (∃ r, http w (S t) (stream_request v cfg url) = Replied r
                  ∧ status_code r = 302 ∧ location r = Some target)
          ∧ hops_happen v w cfg (S (S t)) target hs'
      end
  end.

(** What the hops leave in the trace. *)
Fixpoint hops_trace (v : Variant) (cfg : Config) (url : string) (hs : list Hop)
    : list Effect :=
  match hs with
  | [] => []
  | Fails :: hs' =>
      [HttpGet (stream_request v cfg url); Emit (log_signal (MsgNetworkIssue url))]
      ++ match v with TestPy => [MessageBox] | Test3Py => [] end
      ++ [Sleep 60]
      ++ hops_trace v cfg url hs'
  | Redirects target :: hs' =>
      [HttpGet (stream_request v cfg url); Emit (log_signal (MsgRedirected target))]
      ++ hops_trace v cfg target hs'
  end.

(** The state the handler of [RequestException] leaves, from the state [s]
    in which the exception was raised. *)
Definition after_retry (v : Variant) (url : string) (s : State) : State :=
  push_all ([Emit (log_signal (MsgNetworkIssue url))]
            ++ match v with TestPy => [MessageBox] | Test3Py => [] end
            ++ [Sleep 60]) s.

Definition after_hops (v : Variant) (cfg : Config) (url : string) (hs : list Hop)
    (s : State) : State :=
  mkState (total_files s) (downloaded_files s) (total_size s) (completed_files s)
          (pending_files s) (progress_file s)
          (trace s ++ hops_trace v cfg url hs)
          (clock s + 2 * length hs).

(** [int(response.headers.get('content-length', 0))], when it is defined. *)
Definition declared_size (r : Response) : option Z :=
  match content_length r with
  | CLAbsent => Some 0
  | CLInt n => Some n
  | CLInvalid => None
  end.

(** [raises_only P m]: an exception that leaves [m] satisfies [P]. *)
Definition raises_only {A} (P : exn → Prop) (m : M A) : Prop :=
  ∀ s e s', m s = Exc e s' → P e.

(** The exceptions of the file transfer that no handler of the crawl
    catches. *)
Definition transfer_fault (e : exn) : Prop :=
  e = ZeroDivisionError ∨ e = KeyError ∨ e = ValueError ∨ e = OverflowError.

(** Every listing the world serves has an [href] on each of its anchors. *)
Definition anchors_have_href (w : World) : Prop :=
  ∀ t u r, http w t (listing_request u) = Replied r → Forall is_Some (anchors r).

(** [m] returns [a], from every state. *)
Definition returns {A} (m : M A) (a : A) : Prop :=
  ∀ s, ∃ s', m s = Ret a s'.

(** The entries of a listing: the anchors but ['../'] and ['./']. *)
Definition entries (hrefs : list string) : list string :=
  List.filter (λ h, negb (is_nav (Some h))) hrefs.

(** An entry is a directory iff its href ends with ['/']. *)
Definition directory_anchors (hrefs : list string) : list string :=
  List.filter endswith_slash (entries hrefs).

Definition file_anchors (hrefs : list string) : list string :=
  List.filter (λ h, negb (endswith_slash h)) (entries hrefs).

Definition total_of (counts : list Z) : Z := foldr Z.add 0 counts.

(** What a file holds: lines that [pf.write] has appended and chunks that
    [f.write] has written. *)
Inductive Piece :=
| Line (line : string)
| Bytes (chunk : list byte).

(** What an effect does to the file at [path]: [open(path, 'wb')] truncates
    it, [f.write] and [pf.write] append to it. *)
Definition file_step (path : string) (content : list Piece) (e : Effect)
    : list Piece :=
  match e with
  | OpenWb p => if String.eqb p path then [] else content
  | Write p chunk => if String.eqb p path then content ++ [Bytes chunk] else content
  | AppendLine p line => if String.eqb p path then content ++ [Line line] else content
  | _ => content
  end.

(** The file at [path] after the effects [es], when it held [content]. *)
Definition file_on_disk (path : string) (content : list Piece) (es : list Effect)
    : list Piece :=
  foldl (file_step path) content es.

(** The effect is part of a transfer to [path]. *)
Definition transfer_to (path : string) (e : Effect) : bool :=
  match e with
  | OpenWb p | Write p _ => String.eqb p path
  | _ => false
  end.

(** The lines the effects append to the file at [path]. *)
Definition appended_lines (path : string) (es : list Effect) : list string :=
  flat_map (λ e, match e with
                 | AppendLine p line => if String.eqb p path then [line] else []
                 | _ => []
                 end) es.

(** The effects between state [s] and a later state [s']. *)
Definition new_effects (s s' : State) : list Effect :=
  drop (length (trace s)) (trace s').

(** How [run] ends, by how its pipeline ends. *)
Inductive run_end (w : World) (p r : Res unit) (s1 : State) : Prop :=
| run_canceled :
    p = Ret tt s1 → cancel_set w (clock s1) = true → r = Ret tt (tick s1) →
    run_end w p r s1
| run_completed :
    p = Ret tt s1 → cancel_set w (clock s1) = false →
    r = Ret tt (push (Emit complete_signal) (tick s1)) →
    run_end w p r s1
| run_failed e :
    p = Exc e s1 → r = Ret tt (push (Emit (log_signal (MsgErrorOccurred e))) s1) →
    run_end w p r s1
| run_out_of_fuel :
    p = OutOfFuel s1 → r = OutOfFuel s1 →
    run_end w p r s1.

(** [keeps f m]: however [m] ends, the component [f] of the state is what it
    was. *)
Definition keeps {X A} (f : State → X) (m : M A) : Prop :=
  ∀ s, f (state_of (m s)) = f s.

(** A component that is no part of the trace or the clock. *)
Definition inert {X} (f : State → X) : Prop :=
  (∀ es s, f (push_all es s) = f s) ∧ (∀ s, f (tick s) = f s).

(** The ledger: the completed set and the lines of the progress file. *)
Definition ledger (s : State) : gset string * list string :=
  (completed_files s, progress_file s).

(** The state in which the chunks of a 200 answer start to be read. *)
Definition stream_opened (v : Variant) (cfg : Config) (url file_path : string)
    (s : State) : State :=
  push (OpenWb file_path) (tick (push (HttpGet (stream_request v cfg url)) (tick s))).

(** The effects of [m] from [s] begin with [pre]. *)
Definition starts_with {A} (pre : list Effect) (m : M A) (s : State) : Prop :=
  ∃ tl, trace (state_of (m s)) = trace s ++ pre ++ tl.

(** The same listing is served for the same URL at all times. *)
Definition stable_listings (w : World) : Prop :=
  ∀ t t' u, http w t (listing_request u) = http w t' (listing_request u).

(** test.py has the directory mode only. *)
Definition directory_mode (v : Variant) (cfg : Config) : Prop :=
  match v with
  | TestPy => True
  | Test3Py => is_single_file cfg = false
  end.

(** What an attempt does to the counter, by the way it ends. *)
Definition attempt_counts (s : State) (r : Res Ctl) : Prop :=
  match r with
  | Ret Break s' => downloaded_files s' <= downloaded_files s + 1
  | Ret _ s' => downloaded_files s' = downloaded_files s
  | Exc RequestException s' => downloaded_files s' = downloaded_files s
  | Exc _ s' => downloaded_files s' <= downloaded_files s + 1
  | OutOfFuel s' => downloaded_files s' <= downloaded_files s + 1
  end.

(** ** Scenarios *)

Definition listing_reply (hrefs : list (option string)) : Reply :=
  Replied (mkResponse 200 CLAbsent None hrefs [] false false).

Definition file_reply (size : ContentLength) (body : list (list byte)) : Reply :=
  Replied (mkResponse 200 size None [] body false false).

Definition status_reply (status : Z) : Reply :=
  Replied (mkResponse status CLAbsent None [] [] false false).

Definition redirect_reply (target : string) : Reply :=
  Replied (mkResponse 302 CLAbsent (Some target) [] [] false false).

(** The tree of the specification: [a.txt] and [sub/b.txt] under the root. *)
Definition tree (r : Request) : Reply :=
  if String.eqb (req_url r) "http://h/" then
    listing_reply [Some "../"; Some "a.txt"; Some "sub/"]%string
  else if String.eqb (req_url r) "http://h/sub/" then
    listing_reply [Some "b.txt"]%string
  else if String.eqb (req_url r) "http://h/a.txt" then
    file_reply (CLInt 3) [["a"; "b"]%byte; ["c"]%byte]
  else if String.eqb (req_url r) "http://h/sub/b.txt" then
    file_reply (CLInt 1) [["b"]%byte]
  else status_reply 404.

Definition quiet (net : nat → Request → Reply) : World :=
  mkWorld net None (λ _, 0%nat) (λ _ _, false).

Definition tree_world : World := quiet (λ _, tree).

Definition crawl_h : Config := mkConfig "http://h/" "dest" "" "" false.
Definition fetch_f : Config := mkConfig "http://h/f" "dest" "" "" true.

(** A root that lists one file. *)
Definition one_file (file : Reply) (r : Request) : Reply :=
  if String.eqb (req_url r) "http://h/" then listing_reply [Some "f"%string]
  else if String.eqb (req_url r) "http://h/f" then file
  else status_reply 404.

(** The file is answered without a content-length. *)
Definition unsized_world : World :=
  quiet (λ _, one_file (file_reply CLAbsent [["a"]%byte])).

(** The file is gone. *)
Definition gone_world : World := quiet (λ _, one_file (status_reply 404)).

(** The first request of the run fails, the network is back afterwards. *)
Definition flaky_world : World :=
  quiet (λ t, if (t =? 0)%nat then λ _, NetworkError
              else one_file (file_reply (CLInt 1) [["a"]%byte])).

(** The network is down. *)
Definition down_world : World := quiet (λ _ _, NetworkError).

(** An empty root; [cancel()] arrives after the last check of the walk. *)
Definition late_cancel_world : World :=
  mkWorld (λ _ _, listing_reply []) (Some 3%nat) (λ _, 0%nat) (λ _ _, false).

(** A file of two chunks; [cancel()] arrives while the first is written. *)
Definition cancel_world : World :=
  mkWorld (λ _, one_file (file_reply (CLInt 2) [["a"]%byte; ["b"]%byte]))
          (Some 3%nat) (λ _, 0%nat) (λ _ _, false).

(** The file has moved; the mirror fails twice, then answers 404. *)
Definition moved_world : World :=
  quiet (λ t r,
    if String.eqb (req_url r) "http://h/f" then redirect_reply "http://m/f"
    else if (t <? 7)%nat then NetworkError else status_reply 404).

(** A listing with an anchor that has no [href]. *)
Definition named_anchor_world : World :=
  quiet (λ _ _, listing_reply [None]).

(** A root that lists two files, with an anchor without [href] between
    them ([<a name="top">]). *)
Definition bookmark_world : World :=
  quiet (λ _ r,
    if String.eqb (req_url r) "http://h/" then
      listing_reply [Some "a.txt"; None; Some "b.txt"]%string
    else file_reply (CLInt 1) [["a"]%byte]).

(** Every listing is answered 200 with a text the parser rejects. *)
Definition rejected_world : World :=
  quiet (λ _ _, Replied (mkResponse 200 CLAbsent None [] [] false true)).

(** The file to fetch has the name of the progress file; [cancel()] arrives
    while its first chunk is written. *)
Definition ledger_name_world : World :=
  mkWorld (λ _ _, file_reply (CLInt 2) [["a"]%byte; ["b"]%byte])
          (Some 3%nat) (λ _, 0%nat) (λ _ _, false).

Definition fetch_ledger_name : Config :=
  mkConfig "http://h/download_progress.txt" "dest" "" "" true.

(** ** Further notions

    What the properties beyond the specification are stated with: the
    progress file across threads, the window, and the shapes of the
    states and effects of a call. *)

(** *** The books: progress file, completed set and counter *)

(** The result of a call is one in which the counter of downloaded files and
    the progress file agree: every way a call ends in test-3.py; in test.py a
    normal return or a [RequestException]. *)
Definition settled {A} (v : Variant) (r : Res A) : Prop :=
  v = Test3Py
  ∨ match r with
    | Ret _ _ | Exc RequestException _ => True
    | _ => False
    end.

(** [books v P s r]: from [s] to the state of [r] the progress file has grown
    by lines [added], all of them in [P], the completed set by the same
    paths, and the counter of downloaded files by [length added], or by one
    more when [r] is not [settled]. *)
Definition books {A} (v : Variant) (P : string → Prop) (s : State) (r : Res A)
    : Prop :=
  ∃ added,
    progress_file (state_of r) = progress_file s ++ added
    ∧ completed_files (state_of r) = list_to_set added ∪ completed_files s
    ∧ Forall P added
    ∧ Z.of_nat (length added) <= downloaded_files (state_of r) - downloaded_files s
        <= Z.of_nat (length added) + 1
    ∧ (settled v r →
       downloaded_files (state_of r) - downloaded_files s = Z.of_nat (length added)).

Definition booking {A} (v : Variant) (P : string → Prop) (m : M A) : Prop :=
  ∀ s, books v P s (m s).

(** [journals path m]: whatever way [m] ends, the lines it has added to
    [progress_file] are the lines its effects append to the file at [path],
    in their order. *)
Definition journals {A} (path : string) (m : M A) : Prop :=
  ∀ s, ∃ new,
    trace (state_of (m s)) = trace s ++ new
    ∧ progress_file (state_of (m s)) = progress_file s ++ appended_lines path new.

(** What [books] speaks of. *)
Definition account (s : State) : list string * gset string * Z :=
  (progress_file s, completed_files s, downloaded_files s).

(** *** States that differ in the trace and the clock only *)

(** What the listing loop of [download_directory] does for one entry once
    the cancel flag is set. *)
Definition canceled_entry (dest h : string) : list Effect :=
  if endswith_slash h then
    [Makedirs (os_path_join dest h);
     Emit (log_signal (MsgEntering (os_path_join dest h)));
     Emit canceled_signal]
  else
    [Emit (log_signal (MsgDownloadingFile h (os_path_join dest h)));
     Emit canceled_signal].

(** The state after the flag was read [reads] times and the effects [es]
    were produced, nothing else. *)
Definition advanced (es : list Effect) (reads : nat) (s : State) : State :=
  mkState (total_files s) (downloaded_files s) (total_size s) (completed_files s)
          (pending_files s) (progress_file s) (trace s ++ es) (clock s + reads).

(** The state after the listings of [urls] were requested, nothing else. *)
Definition fetched (urls : list string) (s : State) : State :=
  advanced (map (λ u, HttpGet (listing_request u)) urls) (length urls) s.

Definition fetches {A} (m : M A) : Prop :=
  ∀ s, ∃ urls, state_of (m s) = fetched urls s.

(** The flag is set from the start. *)
Definition canceled_world : World :=
  mkWorld (λ _, tree) (Some 0%nat) (λ _, 0%nat) (λ _ _, false).

(** *** A stream that is read to its end *)

(** [if chunk:] *)
Definition nonempty (chunk : list byte) : bool :=
  match chunk with
  | [] => false
  | _ :: _ => true
  end.

(** The number of bytes of a body. *)
Definition body_length (cs : list (list byte)) : Z :=
  foldr (λ chunk n, Z.of_nat (length chunk) + n) 0 cs.

(** The [f.write] calls among the effects, in order. *)
Definition file_writes (es : list Effect) : list (string * list byte) :=
  flat_map (λ e, match e with Write path chunk => [(path, chunk)] | _ => [] end) es.

(** The state in which the chunk loop of a 200 answer has read the whole
    body: one request, the file opened, the effects [es] of the loop, and two
    reads of the flags for each chunk. *)
Definition streamed (v : Variant) (cfg : Config) (url file_path : string)
    (es : list Effect) (n : nat) (s : State) : State :=
  advanced ([HttpGet (stream_request v cfg url); OpenWb file_path] ++ es)
           (2 + 2 * n) s.

(** What the chunk loop does while it is not canceled: it writes to the
    file, reports the progress against the declared size, and polls the pause
    flag. *)
Definition chunk_effect (file_path : string) (file_size : Z) (e : Effect) : Prop :=
  match e with
  | Write path _ => path = file_path
  | Emit (progress_signal _ n) => n = file_size
  | PausePoll => True
  | _ => False
  end.

(** The effects of [download_file] after the chunk loop, when none of its
    divisions fails and its estimates are in range: [d] and [t] are the
    counters after the increment. *)
Definition finish_effects (v : Variant) (cfg : Config) (file_path : string)
    (file_size d t : Z) : list Effect :=
  (if 0 <? file_size then [Emit (time_remaining_signal false)] else [])
  ++ [Emit (overall_progress_signal
              match v with
              | TestPy => Ratio d t
              | Test3Py => if 0 <? t then Ratio d t else Fixed 100
              end);
      Emit (log_signal (MsgDownloaded file_path file_size));
      AppendLine (ledger_path cfg) file_path]
  ++ match v with
     | TestPy => [Emit (time_remaining_signal true)]
     | Test3Py => []
     end.

(** The state in which [download_file] leaves its loop after a transfer of
    [file_path] that has completed: [s] is the state in which the chunk loop
    has ended. *)
Definition after_transfer (v : Variant) (cfg : Config) (file_path : string)
    (file_size : Z) (s : State) : State :=
  mkState (total_files s) (downloaded_files s + 1) (total_size s + file_size)
          ({[file_path]} ∪ completed_files s) (pending_files s)
          (progress_file s ++ [file_path])
          (trace s ++ finish_effects v cfg file_path file_size
                        (downloaded_files s + 1) (total_files s))
          (clock s).

(** The file: a declared size of 10^13 bytes, and a body of one byte. At the
    end of the stream (logical time 4) some ten seconds have elapsed, and
    the estimates are beyond the range of a [timedelta]. *)
Definition short_body_world : World :=
  mkWorld (λ _, one_file (file_reply (CLInt 10000000000000) [["a"]%byte]))
          None (λ _, 0%nat) (λ t _, (t =? 4)%nat).

(** A declared size of 5 and an empty body. *)
Definition hollow_world : World :=
  quiet (λ _, one_file (file_reply (CLInt 5) [])).

(** *** The retry loop of [download_directory] *)

(** One round of the retry loop of [download_directory]: the listing fetch
    that fails and the handler of [RequestException]. *)
Definition retry_round (v : Variant) (url : string) : list Effect :=
  [HttpGet (listing_request url); Emit (log_signal (MsgNetworkIssueDir url))]
  ++ match v with TestPy => [MessageBox] | Test3Py => [] end
  ++ [Sleep 60].

Definition retry_rounds (v : Variant) (url : string) (n : nat) : list Effect :=
  concat (replicate n (retry_round v url)).

(** Every file is answered 302 without a [Location] header. *)
Definition lost_world : World :=
  quiet (λ _ _, Replied (mkResponse 302 CLAbsent None [] [] false false)).

(** Every file is answered 200 with a [content-length] that is no number. *)
Definition garbled_world : World :=
  quiet (λ _ _, Replied (mkResponse 200 CLInvalid None [] [["a"%byte]] false false)).

(** The server wants credentials for everything. *)
Definition closed_world : World := quiet (λ _ _, status_reply 401).

(** *** File names *)

(** ['/' in s] *)
Fixpoint contains_slash (s : string) : bool :=
  match s with
  | EmptyString => false
  | String c s' => Ascii.eqb c "/"%char || contains_slash s'
  end.

(** What [os.path.join] puts between a folder and a relative name. *)
Definition separator (folder : string) : string :=
  if String.eqb folder EmptyString || endswith_slash folder then "" else "/".

(** *** The effects of a call, and how [start_download] starts a thread *)

(** [emits P m]: whatever way [m] ends, the effects it has added to the
    trace are all in [P]. *)
Definition emits {A} (P : Effect → Prop) (m : M A) : Prop :=
  ∀ s, ∃ new, trace (state_of (m s)) = trace s ++ new ∧ Forall P new.

(** The effects of [download_file]: stream opens, the file, its progress,
    the retry handler, and the log lines of [download_file]. *)
Definition file_effect (v : Variant) (cfg : Config) (e : Effect) : Prop :=
  match e with
  | HttpGet r => ∃ u, r = stream_request v cfg u
  | Makedirs _ => False
  | Emit complete_signal | Emit (file_count_signal _) => False
  | Emit (log_signal m) =>
      match m with
      | MsgSkipping _ | MsgDownloaded _ _ | MsgFailedDownload _ _
      | MsgNetworkIssue _ | MsgRedirected _ => True
      | _ => False
      end
  | _ => True
  end.

(** The text fields of the window that [start_download] reads. *)
Record Form := mkForm {
  url_input : string;
  final_url_input : string;
  path_input : string;
  username_input : string;
  password_input : string }.

(** [DownloaderApp.start_download]: the arguments of the [DownloadThread] it
    starts, [None] when it returns on the warning box. test.py takes the
    URL from the final URL field and has no single-file mode; test-3.py
    evaluates [final_url_input.text() or url_input.text()]. *)
Definition start_download (v : Variant) (f : Form) : option Config :=
  let url :=
    match v with
    | TestPy => final_url_input f
    | Test3Py =>
        if String.eqb (final_url_input f) "" then url_input f else final_url_input f
    end in
  let dest_folder := path_input f in
  if String.eqb dest_folder "" then None
  else
    let is_single_file :=
      match v with
      | TestPy => false
      | Test3Py => negb (endswith_slash url)
      end in
    Some (mkConfig url dest_folder (username_input f) (password_input f)
            is_single_file).

(** *** The progress file across threads

    [__init__] reads [download_progress.txt] in text mode. A character is a
    code point below 256. *)

(** [c.isspace()] *)
Definition is_space (c : ascii) : bool :=
  let n := N_of_ascii c in
  ((9 <=? n) && (n <=? 13) || (28 <=? n) && (n <=? 32)
   || (n =? 133) || (n =? 160))%N.

Fixpoint lstrip (s : string) : string :=
  match s with
  | EmptyString => EmptyString
  | String c s' => if is_space c then lstrip s' else s
  end.

Fixpoint rstrip (s : string) : string :=
  match s with
  | EmptyString => EmptyString
  | String c s' =>
      match rstrip s' with
      | EmptyString => if is_space c then EmptyString else String c EmptyString
      | r => String c r
      end
  end.

(** [line.strip()] *)
Definition strip (s : string) : string := rstrip (lstrip s).

Definition LF : ascii := "010"%char.
Definition CR : ascii := "013"%char.

(** [for line in pf] on a file opened with [open(path, 'r')]: a line ends at
    ['\n'], ['\r'] or ['\r\n'], each given as ['\n']; [line] is what has been
    read of the current line. *)
Fixpoint lines_from (line text : string) : list string :=
  match text with
  | EmptyString =>
      match line with
      | EmptyString => []
      | _ => [line]
      end
  | String c rest =>
      if Ascii.eqb c LF then (line +:+ String LF "") :: lines_from "" rest
      else if Ascii.eqb c CR then
        (line +:+ String LF "")
          :: match rest with
             | String c' rest' =>
                 if Ascii.eqb c' LF then lines_from "" rest' else lines_from "" rest
             | EmptyString => lines_from "" rest
             end
      else lines_from (line +:+ String c "") rest
  end.

(** [set(line.strip() for line in pf)] *)
Definition load_completed (text : string) : gset string :=
  list_to_set (map strip (lines_from "" text)).

(** The text of the progress file after [pf.write(file_path + '\n')] for each
    of [paths]; [linesep] is what the platform writes for ['\n']. *)
Definition ledger_text (linesep : string) (paths : list string) : string :=
  foldr (λ p text, p +:+ linesep +:+ text) "" paths.

(** The thread that [DownloadThread(...)] creates on a destination folder
    whose progress file holds the lines [progress_file s]: the folder a
    thread in state [s] has left, when no transfer has written to the path
    of the progress file. *)
Definition restart (linesep : string) (s : State) : State :=
  init (load_completed (ledger_text linesep (progress_file s))) (progress_file s).

(** No line break inside. *)
Fixpoint one_line (s : string) : bool :=
  match s with
  | EmptyString => true
  | String c s' => negb (Ascii.eqb c LF) && negb (Ascii.eqb c CR) && one_line s'
  end.

(** *** The window

    The widgets of [DownloaderApp] that its handlers write. *)

(** A line of [log_output]. *)
Inductive LogLine :=
| FromThread (m : LogMsg)              (* log_signal is connected to self.log *)
| TotalFiles (count : Z)               (* update_file_count *)
| DownloadComplete
| DownloadCanceled
| UrlReachable                         (* the lines of check_url *)
| UrlRedirected (redirect_url : string)
| AuthenticationRequired
| ErrorStatus (status : Z)
| ErrorRequest.

Record Window := mkWindow {
  download_button : bool;              (* isEnabled() *)
  pause_button : bool;
  resume_button : bool;
  cancel_button : bool;
  progress : option (Z * Z);           (* the operands of the value shown *)
  overall_progress : option Percent;
  time_remaining_label : option bool;  (* which estimate is shown *)
  log_output : list LogLine }.

(** [DownloaderApp.log] *)
Definition window_log (l : LogLine) (win : Window) : Window :=
  mkWindow (download_button win) (pause_button win) (resume_button win)
           (cancel_button win) (progress win) (overall_progress win)
           (time_remaining_label win) (log_output win ++ [l]).

(** The three [setEnabled] calls that end [start_download]. *)
Definition started (win : Window) : Window :=
  mkWindow false true (resume_button win) true (progress win) (overall_progress win)
           (time_remaining_label win) (log_output win).

Definition download_complete (win : Window) : Window :=
  let win := window_log DownloadComplete win in
  mkWindow true false false false (progress win) (overall_progress win)
           (time_remaining_label win) (log_output win).

Definition download_canceled (win : Window) : Window :=
  let win := window_log DownloadCanceled win in
  mkWindow true false false false (progress win) (overall_progress win)
           (time_remaining_label win) (log_output win).

(** The three click handlers change the buttons only [if
    self.thread.isRunning()]; what they do to the thread ([pause()],
    [resume()], [cancel()]) is the control part of the [World]. *)
Definition pause_download (running : bool) (win : Window) : Window :=
  if running then
    mkWindow (download_button win) false true (cancel_button win) (progress win)
             (overall_progress win) (time_remaining_label win) (log_output win)
  else win.

Definition resume_download (running : bool) (win : Window) : Window :=
  if running then
    mkWindow (download_button win) true false (cancel_button win) (progress win)
             (overall_progress win) (time_remaining_label win) (log_output win)
  else win.

Definition cancel_download (running : bool) (win : Window) : Window :=
  if running then
    mkWindow (download_button win) false false false (progress win)
             (overall_progress win) (time_remaining_label win) (log_output win)
  else win.

Definition update_file_count (count : Z) (win : Window) : Window :=
  window_log (TotalFiles count) win.

Definition update_time_remaining (overall : bool) (win : Window) : Window :=
  mkWindow (download_button win) (pause_button win) (resume_button win)
           (cancel_button win) (progress win) (overall_progress win)
           (Some overall) (log_output win).

(** The slot that [start_download] connects to each signal; the two
    progress bars take theirs with [setValue]. *)
Definition slot (sg : Signal) (win : Window) : Window :=
  match sg with
  | progress_signal written file_size =>
      mkWindow (download_button win) (pause_button win) (resume_button win)
               (cancel_button win) (Some (written, file_size)) (overall_progress win)
               (time_remaining_label win) (log_output win)
  | overall_progress_signal p =>
      mkWindow (download_button win) (pause_button win) (resume_button win)
               (cancel_button win) (progress win) (Some p)
               (time_remaining_label win) (log_output win)
  | log_signal m => window_log (FromThread m) win
  | complete_signal => download_complete win
  | canceled_signal => download_canceled win
  | file_count_signal n => update_file_count n win
  | time_remaining_signal overall => update_time_remaining overall win
  end.

(** What happens in the window while a thread runs: a signal of the thread
    reaches its slot, or the user clicks Pause, Resume or Cancel (with the
    value of [self.thread.isRunning()] at that moment). *)
Inductive Event :=
| Delivered (sg : Signal)
| PauseClicked (running : bool)
| ResumeClicked (running : bool)
| CancelClicked (running : bool).

Definition handle (win : Window) (ev : Event) : Window :=
  match ev with
  | Delivered sg => slot sg win
  | PauseClicked running => pause_download running win
  | ResumeClicked running => resume_download running win
  | CancelClicked running => cancel_download running win
  end.

(** The signals among the events, and among the effects of the thread. *)
Definition delivered (evs : list Event) : list Signal :=
  flat_map (λ ev, match ev with Delivered sg => [sg] | _ => [] end) evs.

Definition signals (es : list Effect) : list Signal :=
  flat_map (λ e, match e with Emit sg => [sg] | _ => [] end) es.

(** *** Check URL (test-3.py) *)

(** What [requests.head(url, allow_redirects=False)] gives: it raises
    [RequestException], or answers with a status and, possibly, a
    [Location] header. *)
Inductive HeadReply :=
| HeadError
| HeadStatus (status : Z) (location : option string).

(** How a handler of the window ends: it returns, with the text fields and
    the widgets as it leaves them, or an exception leaves it. *)
Inductive Handled :=
| Returned (f : Form) (win : Window)
| Uncaught (e : exn).

Definition set_final_url (redirect_url : string) (f : Form) : Form :=
  mkForm (url_input f) redirect_url (path_input f) (username_input f)
         (password_input f).

Definition enable_download (win : Window) : Window :=
  mkWindow true (pause_button win) (resume_button win) (cancel_button win)
           (progress win) (overall_progress win) (time_remaining_label win)
           (log_output win).

(** [DownloaderApp.check_url] of test-3.py, given the answer to its request.
    With an empty URL it returns on the warning box, before the request. *)
Definition check_url (reply : HeadReply) (f : Form) (win : Window) : Handled :=
  if String.eqb (url_input f) "" then Returned f win
  else
    match reply with
    | HeadError => Returned f (window_log ErrorRequest win)
    | HeadStatus status location =>
        if status =? 200 then
          Returned f (enable_download (window_log UrlReachable win))
        else if status =? 302 then
          match location with
          | None => Uncaught KeyError                   (* headers['Location'] *)
          | Some redirect_url =>
              Returned (set_final_url redirect_url f)
                (enable_download (window_log (UrlRedirected redirect_url) win))
          end
        else if status =? 401 then
          Returned f (window_log AuthenticationRequired win)
        else Returned f (window_log (ErrorStatus status) win)
    end.

(** * Properties *)

(** ** What one call can do to the state *)

Section Extends.

Variable v : Variant.
Variable w : World.
Variable cfg : Config.

Local Abbreviation emittable := (emittable v cfg).
Local Abbreviation extends := (extends v w cfg).
Local Abbreviation mkExtends := (mkExtends v w cfg).
Local Abbreviation steps := (steps v w cfg).

Lemma cancel_set_mono (t t' : nat) :
  (t <= t')%nat → cancel_set w t = true → cancel_set w t' = true.
Proof.
  unfold cancel_set. destruct (cancel_from w) as [k|]; [|done].
  intros Hle Hk. apply Nat.leb_le in Hk. apply Nat.leb_le. lia.
Qed.

Lemma cancel_set_false_mono (t t' : nat) :
  (t <= t')%nat → cancel_set w t' = false → cancel_set w t = false.
Proof.
  intros Hle Hf. destruct (cancel_set w t) eqn:E; [|done].
  rewrite (cancel_set_mono t t' Hle E) in Hf. done.
Qed.

Lemma extends_refl fixed s : extends fixed s s.
Proof.
  apply (mkExtends fixed s s []); try done; try lia.
  - by rewrite app_nil_r.
  - intros H. by apply elem_of_nil in H.
Qed.

Lemma extends_trans fixed s1 s2 s3 :
  extends fixed s1 s2 → extends fixed s2 s3 → extends fixed s1 s3.
Proof.
  intros [e1 T1 F1 C1 K1 D1 N1] [e2 T2 F2 C2 K2 D2 N2].
  apply (mkExtends fixed s1 s3 (e1 ++ e2)).
  - by rewrite T2, T1, app_assoc.
  - by apply Forall_app.
  - intros [H|H]%elem_of_app; [|by apply C2].
    apply (cancel_set_mono (clock s2)); [done | by apply C1].
  - lia.
  - lia.
  - intros Hf. by rewrite N2, N1.
Qed.

Lemma extends_weaken fixed s s' : extends true s s' → extends fixed s s'.
Proof.
  intros [e T F C K D N]. apply (mkExtends fixed s s' e); try done.
  intros _. by apply N.
Qed.

Lemma extends_push fixed e s :
  emittable e → e ≠ Emit canceled_signal → extends fixed s (push e s).
Proof.
  intros He Hne. apply (mkExtends fixed s (push e s) [e]); simpl; try done; try lia.
  - by apply Forall_singleton.
  - intros H%list_elem_of_singleton. congruence.
Qed.

Lemma extends_push_canceled fixed s :
  cancel_set w (clock s) = true → extends fixed s (push (Emit canceled_signal) s).
Proof.
  intros Hc.
  apply (mkExtends fixed s (push (Emit canceled_signal) s) [Emit canceled_signal]);
    simpl; try done; try lia.
  by apply Forall_singleton.
Qed.

Lemma extends_push_all fixed es s :
  Forall emittable es → Emit canceled_signal ∉ es → extends fixed s (push_all es s).
Proof.
  intros He Hne. apply (mkExtends fixed s (push_all es s) es); simpl; try done; lia.
Qed.

Lemma extends_tick fixed s : extends fixed s (tick s).
Proof.
  apply (mkExtends fixed s (tick s) []); simpl; try done; try lia.
  - by rewrite app_nil_r.
  - intros H. by apply elem_of_nil in H.
Qed.

Lemma extends_same_trace fixed s s' :
  trace s' = trace s → clock s' = clock s →
  downloaded_files s <= downloaded_files s' →
  (fixed = true → total_files s' = total_files s) →
  extends fixed s s'.
Proof.
  intros T K D N. apply (mkExtends fixed s s' []); try done; try lia.
  - by rewrite app_nil_r.
  - intros H. by apply elem_of_nil in H.
Qed.

Lemma steps_ret {A} fixed (a : A) : steps fixed (ret a).
Proof. intros s. apply extends_refl. Qed.

Lemma steps_raise {A} fixed e : steps fixed (@raise A e).
Proof. intros s. apply extends_refl. Qed.

Lemma steps_out_of_fuel {A} fixed : steps fixed (@out_of_fuel A).
Proof. intros s. apply extends_refl. Qed.

Lemma steps_gets {A} fixed (f : State → A) : steps fixed (gets f).
Proof. intros s. apply extends_refl. Qed.

Lemma steps_bind {A B} fixed (m : M A) (k : A → M B) :
  steps fixed m → (∀ a, steps fixed (k a)) → steps fixed (bind m k).
Proof.
  intros Hm Hk s. unfold bind. specialize (Hm s).
  destruct (m s) as [a s'|e s'|s']; simpl in *; [|done|done].
  eapply extends_trans; [exact Hm | apply Hk].
Qed.

Lemma steps_try_request {A} fixed (m : M A) :
  steps fixed m → steps fixed (try_request m).
Proof.
  intros Hm s. unfold try_request. specialize (Hm s).
  destruct (m s) as [a s'|[] s'|s']; simpl in *; done.
Qed.

Lemma steps_emit fixed sg :
  emittable (Emit sg) → sg ≠ canceled_signal → steps fixed (emit sg).
Proof. intros He Hne s. apply extends_push; [done | congruence]. Qed.

Lemma steps_log fixed m :
  (∀ e, m ≠ MsgErrorOccurred e) → steps fixed (log m).
Proof.
  intros Hm. apply steps_emit; [|done].
  destruct m; simpl; try done. by eapply Hm.
Qed.

Lemma steps_effect fixed e :
  emittable e → e ≠ Emit canceled_signal → steps fixed (effect e).
Proof. intros He Hne s. by apply extends_push. Qed.

Lemma steps_is_canceled fixed : steps fixed (is_canceled w).
Proof. intros s. apply extends_tick. Qed.

(** The pattern of every cancellation point: the flag is read, and the
    canceled signal is raised only when it was read set. *)
Lemma steps_cancel_point {A} fixed (stop : M A) (go : M A) :
  steps fixed stop → steps fixed go →
  steps fixed (c <- is_canceled w ;; if c then emit canceled_signal ;; stop else go).
Proof.
  intros Hstop Hgo s. unfold bind at 1, is_canceled.
  destruct (cancel_set w (clock s)) eqn:Hc.
  - unfold bind, emit, modify.
    eapply extends_trans; [apply extends_tick|].
    eapply extends_trans; [|apply Hstop].
    apply extends_push_canceled. simpl.
    by apply (cancel_set_mono (clock s)); [lia|].
  - eapply extends_trans; [apply extends_tick | apply Hgo].
Qed.

Lemma steps_cancel_return fixed (go : M unit) :
  steps fixed go →
  steps fixed (c <- is_canceled w ;; if c then emit canceled_signal else go).
Proof.
  intros Hgo s. unfold bind, is_canceled.
  destruct (cancel_set w (clock s)) eqn:Hc.
  - unfold emit, modify. simpl.
    eapply extends_trans; [apply extends_tick|].
    apply extends_push_canceled. simpl.
    by apply (cancel_set_mono (clock s)); [lia|].
  - eapply extends_trans; [apply extends_tick | apply Hgo].
Qed.

Lemma steps_requests_get fixed r :
  emittable (HttpGet r) → steps fixed (requests_get w r).
Proof.
  intros He s. unfold requests_get.
  assert (extends fixed s (tick (push (HttpGet r) s))) as H.
  { eapply extends_trans; [apply extends_push; done | apply extends_tick]. }
  by destruct (http w (clock s) r).
Qed.

Lemma steps_pause_wait fixed : steps fixed (pause_wait w).
Proof.
  intros s. unfold pause_wait. simpl.
  eapply extends_trans; [apply extends_push_all | apply extends_tick].
  - apply Forall_forall. by intros e [-> _]%elem_of_replicate.
  - by intros [? _]%elem_of_replicate.
Qed.

Lemma steps_retry_pause fixed m :
  (∀ e, m ≠ MsgErrorOccurred e) → steps fixed (retry_pause v m).
Proof.
  intros Hm. unfold retry_pause.
  apply steps_bind; [by apply steps_log | intros _].
  apply steps_bind; [|intros _; by apply steps_effect].
  assert (∀ b : Variant,
            steps fixed (match b with TestPy => effect MessageBox | Test3Py => ret tt end))
    as Hb by (intros []; [by apply steps_effect | apply steps_ret]).
  apply Hb.
Qed.

End Extends.

(** ** Every function of the crawl only extends the state *)

Section ProgramSteps.

Variable v : Variant.
Variable w : World.
Variable cfg : Config.

Local Abbreviation steps := (steps v w cfg true).

Lemma steps_variant {A} (b : Variant) (m1 m2 : M A) :
  steps m1 → steps m2 → steps (match b with TestPy => m1 | Test3Py => m2 end).
Proof. by destruct b. Qed.

Local Ltac step :=
  first
    [ apply steps_ret | apply steps_raise | apply steps_out_of_fuel
    | apply steps_gets | apply steps_is_canceled | apply steps_pause_wait
    | apply steps_log; discriminate
    | apply steps_retry_pause; discriminate
    | apply steps_emit; [exact I | discriminate]
    | apply steps_effect; [exact I | discriminate]
    | apply steps_bind; [|intros ?] ].

Lemma steps_modify_count_download n : steps (modify (count_download n)).
Proof. intros s. apply extends_same_trace; simpl; try done. lia. Qed.

Lemma steps_modify_record_completed p : steps (modify (record_completed p)).
Proof. intros s. apply extends_same_trace; simpl; done. Qed.

Lemma steps_modify_append_pending u : steps (modify (append_pending u)).
Proof. intros s. apply extends_same_trace; simpl; done. Qed.

Lemma steps_listing_get url : steps (requests_get w (listing_request url)).
Proof. apply steps_requests_get. left. by exists url. Qed.

Lemma steps_stream_get url : steps (requests_get w (stream_request v cfg url)).
Proof. apply steps_requests_get. right. by exists url. Qed.

Lemma steps_count_links count url links total :
  (∀ u, steps (count u)) → steps (count_links count url links total).
Proof.
  intros Hc. revert total.
  induction links as [|href rest IH]; intros total; simpl; [step|].
  destruct (is_nav href); [apply IH|].
  destruct href as [h|]; [|step].
  destruct (endswith_slash h); [|apply IH].
  step; [apply Hc | apply IH].
Qed.

Lemma steps_count_files fuel url : steps (count_files w fuel url).
Proof.
  revert url. induction fuel as [|fuel IH]; intros url; simpl; [step|].
  step.
  - apply steps_try_request. step; [apply steps_listing_get|].
    destruct (negb _); [step|]. destruct (unparsable a); [step|].
    by apply steps_count_links.
  - destruct a; step.
Qed.

Lemma steps_iter_content file_path file_size cs is_broken written :
  steps (iter_content w file_path file_size cs is_broken written).
Proof.
  revert written. induction cs as [|chunk rest IH]; intros written; simpl.
  { destruct is_broken; step. }
  step.
  - destruct chunk; [step|]. repeat step. destruct (file_size =? 0); step.
  - step; [step|].
    apply steps_cancel_point; [step | apply IH].
Qed.

Lemma steps_estimate factor overall : steps (estimate w factor overall).
Proof.
  intros s. unfold estimate. destruct (_ && _); simpl.
  - apply extends_refl.
  - by apply extends_push.
Qed.

Lemma steps_file_time_remaining file_size written :
  steps (file_time_remaining w file_size written).
Proof.
  unfold file_time_remaining.
  destruct (0 <? file_size); [|step].
  destruct (written =? 0); [step | apply steps_estimate].
Qed.

Lemma steps_finish_file file_path file_size written :
  steps (finish_file v w cfg file_path file_size written).
Proof.
  unfold finish_file. apply steps_variant.
  - step; [apply steps_modify_count_download|].
    step; [apply steps_file_time_remaining|].
    do 2 (step; [step|]). step; [destruct (_ =? 0); step|].
    step; [step|]. step; [step|].
    step; [apply steps_modify_record_completed | apply steps_estimate].
  - step; [apply steps_file_time_remaining|].
    step; [apply steps_modify_count_download|].
    do 2 (step; [step|]). step; [step|].
    step; [step|]. step; [step|]. apply steps_modify_record_completed.
Qed.

Lemma steps_attempt url file_path : steps (attempt v w cfg url file_path).
Proof.
  unfold attempt. step; [apply steps_stream_get|].
  match goal with |- context [if ?b then _ else _] => destruct b end.
  { destruct (location a); repeat step. }
  destruct (status_code a =? 200).
  - step; [destruct (content_length a); step|].
    step; [step|]. step; [apply steps_iter_content|].
    match goal with e : StreamEnd |- _ => destruct e end; [|step].
    step; [apply steps_finish_file | step].
  - step; [step|]. step; [apply steps_modify_append_pending | step].
Qed.

Lemma steps_download_loop fuel url file_path :
  steps (download_loop v w cfg fuel url file_path).
Proof.
  revert url. induction fuel as [|fuel IH]; intros url; simpl; [step|].
  apply steps_cancel_return.
  step; [apply steps_try_request, steps_attempt|].
  destruct a as [[| |url']|]; try step; try apply IH.
  step.
Qed.

Lemma steps_download_file fuel url dest :
  steps (download_file v w cfg fuel url dest).
Proof.
  unfold download_file. apply steps_cancel_return.
  step; [step|]. destruct a; [step | apply steps_download_loop].
Qed.

Lemma steps_crawl_links fuel walk url dest links :
  (∀ u d, steps (walk u d)) →
  steps (crawl_links v w cfg fuel walk url dest links).
Proof.
  intros Hw. induction links as [|href rest IH]; simpl; [step|].
  destruct (is_nav href); [apply IH|].
  destruct href as [h|]; [|step].
  step; [|apply IH].
  destruct (endswith_slash h).
  - step; [step|]. step; [step | apply Hw].
  - step; [step | apply steps_download_file].
Qed.

Lemma steps_download_directory fuel url dest :
  steps (download_directory v w cfg fuel url dest).
Proof.
  revert url dest. induction fuel as [|fuel IH]; intros url dest; simpl; [step|].
  apply steps_cancel_return.
  step.
  - apply steps_try_request. step; [apply steps_listing_get|].
    destruct (negb _); [repeat step|]. destruct (unparsable a); [step|].
    step; [by apply steps_crawl_links | step].
  - destruct a; [step|]. step; [step | apply IH].
Qed.

(** *** The first request of a call *)

Lemma starts_with_bind {A B} pre (m : M A) (k : A → M B) s :
  (∀ a, steps (k a)) → starts_with pre m s → starts_with pre (bind m k) s.
Proof.
  intros Hk [tl Hm]. unfold starts_with, bind.
  destruct (m s) as [a s1|e s1|s1]; cbn [state_of] in *; [|by exists tl..].
  destruct (Hk a s1) as [new T _ _ _ _ _]. exists (tl ++ new).
  by rewrite T, Hm, <- !app_assoc.
Qed.

Lemma starts_with_try_request {A} pre (m : M A) s :
  starts_with pre m s → starts_with pre (try_request m) s.
Proof.
  intros [tl Hm]. exists tl. unfold try_request.
  by destruct (m s) as [a s1|[] s1|s1].
Qed.

Lemma starts_with_requests_get {B} r (k : Response → M B) s :
  (∀ a, steps (k a)) → starts_with [HttpGet r] (bind (requests_get w r) k) s.
Proof.
  intros Hk. apply starts_with_bind; [done|]. exists []. unfold requests_get.
  by destruct (http w (clock s) r).
Qed.

Lemma starts_with_not_canceled pre (go : M unit) s :
  cancel_set w (clock s) = false →
  starts_with pre go (tick s) →
  starts_with pre (c <- is_canceled w ;; if c then emit canceled_signal else go) s.
Proof.
  intros Hc [tl Hgo]. exists tl. unfold bind, is_canceled. by rewrite Hc.
Qed.

Lemma starts_with_gets {A B} pre (f : State → A) (k : A → M B) s :
  starts_with pre (k (f s)) s → starts_with pre (bind (gets f) k) s.
Proof. done. Qed.

Lemma count_files_first_request fuel url s :
  starts_with [HttpGet (listing_request url)] (count_files w (S fuel) url) s.
Proof.
  cbn [count_files].
  apply starts_with_bind; [intros [total|]; step|].
  apply starts_with_try_request, starts_with_requests_get. intros response.
  destruct (negb _); [step|]. destruct (unparsable response); [step|].
  apply steps_count_links, steps_count_files.
Qed.

Lemma download_directory_first_request fuel url dest s :
  cancel_set w (clock s) = false →
  starts_with [HttpGet (listing_request url)]
    (download_directory v w cfg (S fuel) url dest) s.
Proof.
  intros Hc. cbn [download_directory]. apply starts_with_not_canceled; [done|].
  apply starts_with_bind.
  { intros [c|]; [step|]. step; [step | apply steps_download_directory]. }
  apply starts_with_try_request, starts_with_requests_get. intros response.
  destruct (negb _); [repeat step|]. destruct (unparsable response); [step|].
  step; [apply steps_crawl_links, steps_download_directory | step].
Qed.

Lemma download_file_first_request fuel url dest s :
  cancel_set w (S (clock s)) = false →
  os_path_join dest (last_segment url) ∉ completed_files s →
  starts_with [HttpGet (stream_request v cfg url)]
    (download_file v w cfg (S fuel) url dest) s.
Proof.
  intros Hc Hnew.
  assert (cancel_set w (clock s) = false) as Hc0.
  { apply (cancel_set_false_mono w (clock s) (S (clock s))); [lia | done]. }
  unfold download_file. apply starts_with_not_canceled; [done|].
  apply starts_with_gets. cbn [completed_files tick].
  rewrite bool_decide_eq_false_2 by done.
  cbn [download_loop]. apply starts_with_not_canceled; [done|].
  apply starts_with_bind.
  { intros [[| |url']|]; try step; try apply steps_download_loop. step. }
  apply starts_with_try_request. unfold attempt.
  apply starts_with_requests_get. intros response.
  match goal with |- context [if ?b then _ else _] => destruct b end.
  { destruct (location response); repeat step. }
  destruct (status_code response =? 200).
  - step; [destruct (content_length response); step|].
    step; [step|]. step; [apply steps_iter_content|].
    match goal with e : StreamEnd |- _ => destruct e end; [|step].
    step; [apply steps_finish_file | step].
  - step; [step|]. step; [apply steps_modify_append_pending | step].
Qed.

End ProgramSteps.

(** ** A fetch that is answered with a failure status *)

Section FailedStatus.

Variable v : Variant.
Variable w : World.
Variable cfg : Config.

Local Abbreviation after_failed_status := (after_failed_status v cfg).
Local Abbreviation permanent_failure := (permanent_failure v).

Lemma attempt_failed_status url file_path s r :
  http w (clock s) (stream_request v cfg url) = Replied r →
  permanent_failure r →
  attempt v w cfg url file_path s =
    Ret Break (mkState (total_files s) (downloaded_files s) (total_size s)
                 (completed_files s) (pending_files s ++ [url]) (progress_file s)
                 (trace s ++ [HttpGet (stream_request v cfg url);
                              Emit (log_signal (MsgFailedDownload url (status_code r)))])
                 (S (clock s))).
Proof.
  intros Hr [H200 H302].
  unfold attempt, bind, requests_get. rewrite Hr.
  assert (match v with TestPy => false | Test3Py => status_code r =? 302 end = false)
    as ->.
  { destruct v; [done|]. apply Z.eqb_neq. by apply H302. }
  apply Z.eqb_neq in H200. rewrite H200.
  unfold log, emit, modify, ret. unfold_state. by rewrite <- app_assoc.
Qed.

Lemma download_loop_failed_status fuel url file_path s r :
  cancel_set w (clock s) = false →
  http w (S (clock s)) (stream_request v cfg url) = Replied r →
  permanent_failure r →
  download_loop v w cfg (S fuel) url file_path s =
    Ret tt (after_failed_status url (status_code r) s).
Proof.
  intros Hc Hr Hp. simpl. unfold bind at 1, is_canceled. rewrite Hc.
  unfold bind, try_request.
  rewrite (attempt_failed_status url file_path (tick s) r Hr Hp). done.
Qed.

Lemma download_file_failed_status fuel url dest s r :
  cancel_set w (S (clock s)) = false →
  os_path_join dest (last_segment url) ∉ completed_files s →
  http w (S (S (clock s))) (stream_request v cfg url) = Replied r →
  permanent_failure r →
  download_file v w cfg (S fuel) url dest s =
    Ret tt (after_failed_status url (status_code r) (tick s)).
Proof.
  intros Hc Hnew Hr Hp.
  assert (cancel_set w (clock s) = false) as Hc0.
  { apply (cancel_set_false_mono w (clock s) (S (clock s))); [lia | done]. }
  unfold download_file. unfold bind at 1, is_canceled. rewrite Hc0.
  unfold bind at 1, gets. simpl completed_files.
  rewrite bool_decide_eq_false_2 by done.
  by apply download_loop_failed_status.
Qed.

End FailedStatus.


(** ** Redirects and network errors on the stream open *)

Lemma download_loop_fails v w cfg fuel url file_path s :
  cancel_set w (clock s) = false →
  http w (S (clock s)) (stream_request v cfg url) = NetworkError →
  download_loop v w cfg (S fuel) url file_path s =
  download_loop v w cfg fuel url file_path (after_hops v cfg url [Fails] s).
Proof.
  intros Hc Hr. cbn [download_loop]. unfold bind at 1, is_canceled. rewrite Hc.
  unfold bind at 1, try_request, attempt. unfold bind at 1, requests_get.
  cbn [clock tick]. rewrite Hr.
  unfold bind, retry_pause, bind, log, emit, effect, modify, ret, after_hops.
  destruct v; unfold_state; cbn [hops_trace length app]; f_equal; f_equal;
    first [lia | by rewrite <- ?app_assoc].
Qed.

Lemma download_loop_redirects w cfg fuel url file_path s r target :
  cancel_set w (clock s) = false →
  http w (S (clock s)) (stream_request Test3Py cfg url) = Replied r →
  status_code r = 302 → location r = Some target →
  download_loop Test3Py w cfg (S fuel) url file_path s =
  download_loop Test3Py w cfg fuel target file_path
    (after_hops Test3Py cfg url [Redirects target] s).
Proof.
  intros Hc Hr H302 Hloc. cbn [download_loop]. unfold bind at 1, is_canceled.
  rewrite Hc.
  unfold bind at 1, try_request, attempt. unfold bind at 1, requests_get.
  cbn [clock tick]. rewrite Hr, H302, Hloc. cbn.
  unfold after_hops. unfold_state. cbn [hops_trace length app]. f_equal; f_equal;
    first [lia | by rewrite <- ?app_assoc].
Qed.

Lemma after_hops_cons v cfg url h hs s :
  after_hops v cfg url (h :: hs) s =
  after_hops v cfg (hops_url url [h]) hs (after_hops v cfg url [h] s).
Proof.
  unfold after_hops. cbn [total_files downloaded_files total_size completed_files
    pending_files progress_file trace clock].
  f_equal.
  - destruct h; cbn [hops_trace hops_url]; rewrite <- !app_assoc;
      repeat (try rewrite app_nil_r; f_equal).
  - cbn [length]. lia.
Qed.

Lemma download_loop_retry v w cfg fuel url file_path s s1 :
  cancel_set w (clock s) = false →
  attempt v w cfg url file_path (tick s) = Exc RequestException s1 →
  download_loop v w cfg (S fuel) url file_path s =
  download_loop v w cfg fuel url file_path (after_retry v url s1).
Proof.
  intros Hc Ha. cbn [download_loop]. unfold bind at 1, is_canceled. rewrite Hc.
  unfold bind at 1, try_request. rewrite Ha.
  unfold bind, retry_pause, bind, log, emit, effect, modify, ret, after_retry.
  destruct v; unfold_state; cbn [app]; f_equal; f_equal; by rewrite <- ?app_assoc.
Qed.

Lemma download_loop_hops v w cfg hs fuel url file_path s :
  hops_happen v w cfg (clock s) url hs →
  download_loop v w cfg (length hs + fuel) url file_path s =
  download_loop v w cfg fuel (hops_url url hs) file_path (after_hops v cfg url hs s).
Proof.
  revert url s. induction hs as [|h hs IH]; intros url s Hh.
  - cbn [length hops_url Nat.add]. f_equal. unfold after_hops.
    destruct s; cbn. f_equal; [by rewrite app_nil_r | lia].
  - destruct Hh as [Hc Hh]. rewrite after_hops_cons.
    cbn [length Nat.add]. destruct h as [|target].
    + destruct Hh as [Hr Hh].
      rewrite download_loop_fails by done. cbn [hops_url].
      apply IH. unfold after_hops. cbn [clock length].
      replace (clock s + 2 * 1)%nat with (S (S (clock s))) by lia. done.
    + destruct Hh as (-> & (r & Hr & H302 & Hloc) & Hh).
      rewrite (download_loop_redirects w cfg _ url file_path s r target) by done.
      cbn [hops_url]. apply IH. unfold after_hops. cbn [clock length].
      replace (clock s + 2 * 1)%nat with (S (S (clock s))) by lia. done.
Qed.


(** ** Progress of a file whose declared size is zero *)

(** C1 (what the code does). A 200 answer whose content-length is missing
    or zero and whose first chunk is not empty makes the progress computation
    divide by zero: the chunk is written, no progress signal is emitted, and
    [ZeroDivisionError] leaves [download_file] (the retry handler catches
    [RequestException] only). *)
Theorem zero_size_division_fault v w cfg fuel url file_path s r chunk rest :
  cancel_set w (clock s) = false →
  http w (S (clock s)) (stream_request v cfg url) = Replied r →
  status_code r = 200 →
  declared_size r = Some 0 →
  chunks r = chunk :: rest →
  chunk ≠ [] →
  download_loop v w cfg (S fuel) url file_path s =
    Exc ZeroDivisionError
      (mkState (total_files s) (downloaded_files s) (total_size s)
         (completed_files s) (pending_files s) (progress_file s)
         (trace s ++ [HttpGet (stream_request v cfg url); OpenWb file_path;
                      Write file_path chunk])
         (S (S (clock s)))).
Proof.
  intros Hc Hr H200 Hsize Hchunks Hne.
  cbn [download_loop]. unfold bind at 1, is_canceled. rewrite Hc.
  unfold bind at 1, try_request, attempt. unfold bind at 1, requests_get.
  cbn [clock tick]. rewrite Hr, H200.
  assert (match v with TestPy => false | Test3Py => 200 =? 302 end = false) as ->
    by by destruct v.
  cbn [Z.eqb Pos.eqb]. unfold declared_size in Hsize.
  rewrite Hchunks. destruct chunk as [|b bs]; [done|].
  destruct (content_length r) as [|n|]; simplify_eq; cbn;
    unfold_state; by rewrite <- !app_assoc.
Qed.

(** ** Which exceptions leave which function *)

Section Raises.

Variable v : Variant.
Variable w : World.
Variable cfg : Config.

Lemma raises_weaken {A} (P Q : exn → Prop) (m : M A) :
  (∀ e, P e → Q e) → raises_only P m → raises_only Q m.
Proof. intros HPQ Hm s e s' H. eapply HPQ, Hm, H. Qed.

Lemma raises_ret {A} P (a : A) : raises_only P (ret a).
Proof. by intros s e s' H. Qed.

Lemma raises_out_of_fuel {A} P : raises_only P (@out_of_fuel A).
Proof. by intros s e s' H. Qed.

Lemma raises_gets {A} P (f : State → A) : raises_only P (gets f).
Proof. by intros s e s' H. Qed.

Lemma raises_modify P f : raises_only P (modify f).
Proof. by intros s e s' H. Qed.

Lemma raises_raise {A} (P : exn → Prop) e : P e → raises_only P (@raise A e).
Proof. intros He s e' s' H. unfold raise in H. by simplify_eq. Qed.

Lemma raises_bind {A B} P (m : M A) (k : A → M B) :
  raises_only P m → (∀ a, raises_only P (k a)) → raises_only P (bind m k).
Proof.
  intros Hm Hk s e s' H. unfold bind in H.
  destruct (m s) as [a s1|e1 s1|s1] eqn:E; [|simplify_eq|done].
  - eapply Hk, H.
  - eapply Hm, E.
Qed.

Lemma raises_try_request {A} (P : exn → Prop) (m : M A) :
  raises_only (λ e, e = RequestException ∨ P e) m →
  raises_only P (try_request m).
Proof.
  intros Hm s e s' H. unfold try_request in H.
  destruct (m s) as [a s1|e1 s1|s1] eqn:E; [done| |done].
  destruct (Hm _ _ _ E) as [->|HP]; [done|].
  destruct e1; by simplify_eq.
Qed.

Lemma raises_is_canceled P : raises_only P (is_canceled w).
Proof. by intros s e s' H. Qed.

Lemma raises_pause_wait P : raises_only P (pause_wait w).
Proof. by intros s e s' H. Qed.

Lemma raises_requests_get (P : exn → Prop) r :
  P RequestException → raises_only P (requests_get w r).
Proof.
  intros HP s e s' H. unfold requests_get in H.
  destruct (http w (clock s) r); by simplify_eq.
Qed.

Lemma raises_estimate (P : exn → Prop) factor overall :
  P OverflowError → raises_only P (estimate w factor overall).
Proof.
  intros HP s e s' H. unfold estimate in H.
  destruct (_ && _); by simplify_eq.
Qed.

Lemma raises_retry_pause P m : raises_only P (retry_pause v m).
Proof.
  unfold retry_pause, log, emit, effect.
  apply raises_bind; [apply raises_modify | intros _].
  apply raises_bind; [|intros _; apply raises_modify].
  destruct v; [apply raises_modify | apply raises_ret].
Qed.

Local Ltac rstep :=
  first
    [ apply raises_ret | apply raises_out_of_fuel | apply raises_gets
    | apply raises_modify | apply raises_is_canceled | apply raises_pause_wait
    | apply raises_retry_pause
    | apply raises_raise; unfold transfer_fault; tauto
    | apply raises_requests_get; unfold transfer_fault; tauto
    | apply raises_estimate; unfold transfer_fault; tauto
    | apply raises_bind; [|intros ?] ].

Local Tactic Notation "rbind" "as" ident(x) := apply raises_bind; [|intros x].

Lemma raises_count_links P count url links total :
  P TypeError → (∀ u, raises_only P (count u)) →
  raises_only P (count_links count url links total).
Proof.
  intros HP Hc. revert total.
  induction links as [|href rest IH]; intros total; cbn [count_links]; [rstep|].
  destruct (is_nav href); [apply IH|].
  destruct href as [h|]; [|by apply raises_raise].
  destruct (endswith_slash h); [|apply IH].
  rstep; [apply Hc | apply IH].
Qed.

(** [count_files] lets no [RequestException] out: the handler has caught
    the one [requests.get] raises, and the nested calls caught their own. *)
Lemma count_files_catches fuel url :
  raises_only (λ e, e = TypeError ∨ e = ParserRejectedMarkup) (count_files w fuel url).
Proof.
  revert url. induction fuel as [|fuel IH]; intros url; cbn [count_files]; [rstep|].
  rstep; [|destruct a; rstep].
  apply raises_try_request. rstep; [apply raises_requests_get; tauto|].
  destruct (negb _); [rstep|].
  destruct (unparsable a); [apply raises_raise; tauto|].
  apply raises_count_links; [tauto|].
  intros u. eapply raises_weaken; [|apply IH]. tauto.
Qed.

(** With listings whose anchors all have an [href], the list loop of
    [count_files] raises nothing of its own. *)
Lemma raises_count_links_href P count url links total :
  Forall is_Some links → (∀ u, raises_only P (count u)) →
  raises_only P (count_links count url links total).
Proof.
  intros Hl Hc. revert total.
  induction Hl as [|href rest [h ->] _ IH]; intros total; cbn [count_links]; [rstep|].
  destruct (is_nav (Some h)); [apply IH|].
  destruct (endswith_slash h); [|apply IH].
  rstep; [apply Hc | apply IH].
Qed.

Lemma raises_iter_content file_path file_size cs is_broken written :
  raises_only (λ e, e = RequestException ∨ transfer_fault e)
    (iter_content w file_path file_size cs is_broken written).
Proof.
  revert written. induction cs as [|chunk rest IH]; intros written;
    cbn [iter_content].
  { destruct is_broken; rstep. }
  rbind as written'.
  - destruct chunk; [rstep|]. unfold effect, emit. rstep; [rstep|].
    rstep; [|rstep]. destruct (file_size =? 0); rstep.
  - rstep; [rstep|]. rbind as c; [rstep|].
    destruct c; [|apply IH]. unfold emit. repeat rstep.
Qed.

Lemma raises_finish_file file_path file_size written :
  raises_only (λ e, e = RequestException ∨ transfer_fault e)
    (finish_file v w cfg file_path file_size written).
Proof.
  assert (raises_only (λ e, e = RequestException ∨ transfer_fault e)
            (file_time_remaining w file_size written)) as Ht.
  { unfold file_time_remaining, emit.
    destruct (0 <? file_size); [|rstep]. destruct (written =? 0); rstep. }
  unfold finish_file, log, emit, effect. destruct v.
  - rstep; [rstep|]. rstep; [apply Ht|]. rbind as d; [rstep|].
    rbind as t; [rstep|].
    rstep; [destruct (t =? 0); rstep|]. repeat rstep.
  - rstep; [apply Ht|]. repeat rstep.
Qed.

Lemma raises_attempt url file_path :
  raises_only (λ e, e = RequestException ∨ transfer_fault e)
    (attempt v w cfg url file_path).
Proof.
  unfold attempt, log, emit, effect. rbind as response; [rstep|].
  match goal with |- context [if ?b then _ else _] => destruct b end.
  { destruct (location response); repeat rstep. }
  destruct (status_code response =? 200); [|repeat rstep].
  rbind as file_size; [destruct (content_length response); rstep|].
  rstep; [rstep|]. rbind as e; [apply raises_iter_content|].
  destruct e; [|rstep]. rstep; [apply raises_finish_file | rstep].
Qed.

Lemma raises_download_loop fuel url file_path :
  raises_only transfer_fault (download_loop v w cfg fuel url file_path).
Proof.
  revert url. induction fuel as [|fuel IH]; intros url; cbn [download_loop]; [rstep|].
  rbind as c; [rstep|]. destruct c; [unfold emit; rstep|].
  rbind as r; [apply raises_try_request, raises_attempt|].
  destruct r as [[| |url']|]; try rstep; try apply IH.
  rstep.
Qed.

(** [download_file] lets no [RequestException] and no [TypeError] out. *)
Lemma download_file_catches fuel url dest :
  raises_only transfer_fault (download_file v w cfg fuel url dest).
Proof.
  unfold download_file, log, emit. rbind as c; [rstep|].
  destruct c; [rstep|]. rbind as done; [rstep|].
  destruct done; [rstep | apply raises_download_loop].
Qed.

Lemma raises_crawl_links (P : exn → Prop) fuel walk url dest links :
  (∀ e, transfer_fault e → P e) →
  (Forall is_Some links ∨ P TypeError) →
  (∀ u d, raises_only P (walk u d)) →
  raises_only P (crawl_links v w cfg fuel walk url dest links).
Proof.
  intros HP Hl Hw.
  induction links as [|href rest IH]; cbn [crawl_links]; [rstep|].
  assert (Forall is_Some rest ∨ P TypeError) as Hrest.
  { destruct Hl as [Hl|]; [left; by inversion Hl | by right]. }
  destruct (is_nav href); [by apply IH|].
  destruct href as [h|].
  - rstep; [|by apply IH]. unfold log, emit, effect.
    destruct (endswith_slash h).
    + rstep; [rstep|]. rstep; [rstep | apply Hw].
    + rstep; [rstep|]. eapply raises_weaken; [exact HP | apply download_file_catches].
  - destruct Hl as [Hl|Hl]; [|by apply raises_raise].
    inversion Hl as [|? ? [? ?] ?]; simplify_eq.
Qed.

(** [download_directory] lets no [RequestException] out either; with
    listings whose anchors all have an [href] it lets no [TypeError] out. *)
Lemma raises_download_directory (P : exn → Prop) fuel url dest :
  (∀ e, transfer_fault e → P e) →
  P ParserRejectedMarkup →
  ((∀ t u r, http w t (listing_request u) = Replied r → Forall is_Some (anchors r))
   ∨ P TypeError) →
  raises_only P (download_directory v w cfg fuel url dest).
Proof.
  intros HP HM Hl. revert url dest.
  induction fuel as [|fuel IH]; intros url dest; cbn [download_directory]; [rstep|].
  rbind as c; [rstep|]. destruct c; [unfold emit; rstep|].
  rbind as r; [|destruct r; [rstep|]; rstep; [rstep | apply IH]].
  apply raises_try_request.
  intros s e s' H. unfold bind at 1, requests_get in H.
  destruct (http w (clock s) (listing_request url)) as [|response] eqn:Hr;
    [simplify_eq; by left|].
  revert H. generalize (tick (push (HttpGet (listing_request url)) s)).
  intros s1 H. right.
  assert (raises_only P
            (if negb (status_code response =? 200)
             then log (MsgFailedAccess url (status_code response));; ret Return
             else if unparsable response then raise ParserRejectedMarkup
             else crawl_links v w cfg fuel (download_directory v w cfg fuel) url dest
                    (anchors response);; ret Break)) as Hbody; [|by eapply Hbody].
  destruct (negb _); [unfold log, emit; repeat rstep|].
  destruct (unparsable response); [by apply raises_raise|].
  rstep; [|rstep]. apply raises_crawl_links; [done| |apply IH].
  destruct Hl as [Hl|Hl]; [left; by eapply Hl | by right].
Qed.

End Raises.

(** ** Listings *)

(** With such listings the one exception that leaves [count_files] is the
    parser's. *)
Lemma count_files_href_raises w fuel url :
  anchors_have_href w →
  raises_only (λ e, e = ParserRejectedMarkup) (count_files w fuel url).
Proof.
  intros Hw. revert url.
  induction fuel as [|fuel IH]; intros url; cbn [count_files].
  { apply raises_out_of_fuel. }
  apply raises_bind; [|intros [total|]; apply raises_ret].
  apply raises_try_request.
  intros s e s' H. unfold bind at 1, requests_get in H.
  destruct (http w (clock s) (listing_request url)) as [|response] eqn:Hr;
    [simplify_eq; by left|].
  destruct (negb _); [done|]. right.
  destruct (unparsable response); [unfold raise in H; by simplify_eq|].
  eapply (raises_count_links_href (λ e, e = ParserRejectedMarkup));
    [by eapply Hw | apply IH | exact H].
Qed.

Lemma count_links_returns count url links total :
  Forall is_Some links →
  (∀ u s, ∃ n s', count u s = Ret n s') →
  ∀ s, ∃ n s', count_links count url links total s = Ret n s'.
Proof.
  intros Hl Hc. revert total.
  induction Hl as [|href rest [h ->] _ IH]; intros total s; cbn [count_links].
  { by exists total, s. }
  destruct (is_nav (Some h)); [apply IH|].
  destruct (endswith_slash h); [|apply IH].
  unfold bind. destruct (Hc (url +:+ h) s) as (n & s1 & ->). apply IH.
Qed.

Lemma count_files_unparsable w fuel url s r :
  http w (clock s) (listing_request url) = Replied r →
  status_code r = 200 → unparsable r = true →
  count_files w (S fuel) url s = Exc ParserRejectedMarkup (fetched [url] s).
Proof.
  intros Hr H200 Hu. cbn [count_files]. unfold bind at 1, try_request.
  unfold bind at 1, requests_get. rewrite Hr, H200, Hu. cbn [Z.eqb Pos.eqb negb].
  unfold raise, fetched, advanced. unfold_state. cbn [map length].
  do 2 f_equal. lia.
Qed.

Lemma download_directory_unparsable v w cfg fuel url dest s r :
  cancel_set w (clock s) = false →
  http w (S (clock s)) (listing_request url) = Replied r →
  status_code r = 200 → unparsable r = true →
  download_directory v w cfg (S fuel) url dest s
  = Exc ParserRejectedMarkup (advanced [HttpGet (listing_request url)] 2 s).
Proof.
  intros Hc Hr H200 Hu. cbn [download_directory].
  unfold bind at 1, is_canceled. rewrite Hc.
  unfold bind at 1, try_request. unfold bind at 1, requests_get.
  cbn [clock tick]. rewrite Hr, H200, Hu. cbn [Z.eqb Pos.eqb negb].
  unfold raise, advanced. unfold_state. do 2 f_equal. lia.
Qed.

(** C8 (as the code has it). On listings whose anchors all have an [href],
    the list loops raise nothing of their own: the loop of [count_files]
    returns whenever the nested counts return (on the empty listing too), and
    no [TypeError], the one exception the list loops can raise, leaves
    [count_files] or [download_directory]. Markup is not always turned into
    anchors: when the parser rejects the text of a listing answered 200, its
    exception leaves [count_files] and [download_directory] after the one
    request (no handler of the crawl catches it). *)
Theorem listing_processing_total v w cfg fuel url dest :
  anchors_have_href w →
  (∀ count links total,
     Forall is_Some links →
     (∀ u s, ∃ n s', count u s = Ret n s') →
     ∀ s, ∃ n s', count_links count url links total s = Ret n s')
  ∧ (∀ s s', count_files w fuel url s ≠ Exc TypeError s')
  ∧ (∀ s s', download_directory v w cfg fuel url dest s ≠ Exc TypeError s')
  ∧ (∀ r s,
       http w (clock s) (listing_request url) = Replied r →
       status_code r = 200 → unparsable r = true →
       count_files w (S fuel) url s = Exc ParserRejectedMarkup (fetched [url] s))
  ∧ (∀ r s,
       cancel_set w (clock s) = false →
       http w (S (clock s)) (listing_request url) = Replied r →
       status_code r = 200 → unparsable r = true →
       download_directory v w cfg (S fuel) url dest s
       = Exc ParserRejectedMarkup (advanced [HttpGet (listing_request url)] 2 s)).
Proof.
  intros Hw. split_and!.
  - intros count links total Hl Hc. by apply count_links_returns.
  - intros s s' H.
    by pose proof (count_files_href_raises w fuel url Hw _ _ _ H).
  - intros s s' H.
    assert (transfer_fault TypeError ∨ TypeError = ParserRejectedMarkup)
      as [[?|[?|[?|?]]]|?]; [|done..].
    eapply (raises_download_directory v w cfg
              (λ e, transfer_fault e ∨ e = ParserRejectedMarkup));
      [tauto | tauto | by left | exact H].
  - intros r s. apply count_files_unparsable.
  - intros r s. apply download_directory_unparsable.
Qed.

(** ** Counting *)

Lemma count_links_sum count url hrefs counts total :
  Forall2 (λ d n, returns (count (url +:+ d)) n) (directory_anchors hrefs) counts →
  returns (count_links count url (map Some hrefs) total)
          (total + (Z.of_nat (length (file_anchors hrefs)) + total_of counts)).
Proof.
  revert counts total. unfold directory_anchors, file_anchors, entries.
  induction hrefs as [|h rest IH]; intros counts total Hc s.
  { cbn in Hc. inversion Hc. cbn. exists s. unfold ret. f_equal. lia. }
  cbn [map count_links List.filter] in *.
  destruct (is_nav (Some h)); cbn [negb List.filter] in *; [by apply IH|].
  destruct (endswith_slash h) eqn:Hd; cbn [negb List.filter length] in *.
  - inversion Hc as [|d n ds ns Hn Hrest]; subst.
    unfold bind. destruct (Hn s) as [s1 ->].
    destruct (IH ns (total + n) Hrest s1) as [s2 ->].
    exists s2. f_equal. cbn [total_of foldr]. fold (total_of ns). lia.
  - destruct (IH counts (total + 1) Hc s) as [s2 ->].
    exists s2. f_equal. lia.
Qed.

(** C3 (as the code has it). On a listing answered with status 200 that the
    parser accepts and whose anchors all have an [href], [count_files]
    returns the number of file anchors plus the sum of what it returns on
    each directory anchor's URL, ['../'] and ['./'] being left out; a listing
    answered with another status, or a fetch that raises [RequestException],
    counts 0. *)
Theorem count_is_files_plus_subdirectories w fuel url :
  (∀ r hrefs counts,
     (∀ t, http w t (listing_request url) = Replied r) →
     status_code r = 200 →
     unparsable r = false →
     anchors r = map Some hrefs →
     Forall2 (λ d n, returns (count_files w fuel (url +:+ d)) n)
             (directory_anchors hrefs) counts →
     returns (count_files w (S fuel) url)
             (Z.of_nat (length (file_anchors hrefs)) + total_of counts))
  ∧ (∀ r, (∀ t, http w t (listing_request url) = Replied r) →
          status_code r ≠ 200 →
          returns (count_files w (S fuel) url) 0)
  ∧ ((∀ t, http w t (listing_request url) = NetworkError) →
     returns (count_files w (S fuel) url) 0).
Proof.
  split; [|split].
  - intros r hrefs counts Hr H200 Hu Ha Hc s.
    cbn [count_files]. unfold bind at 1, try_request.
    unfold bind at 1, requests_get. rewrite Hr, H200, Hu, Ha.
    cbn [Z.eqb Pos.eqb negb].
    destruct (count_links_sum (count_files w fuel) url hrefs counts 0 Hc
                (tick (push (HttpGet (listing_request url)) s))) as [s' ->].
    by exists s'.
  - intros r Hr H200 s.
    cbn [count_files]. unfold bind at 1, try_request.
    unfold bind at 1, requests_get. rewrite Hr.
    apply Z.eqb_neq in H200. rewrite H200. cbn. by eexists.
  - intros Hr s.
    cbn [count_files]. unfold bind at 1, try_request.
    unfold bind at 1, requests_get. rewrite Hr. cbn. by eexists.
Qed.

(** ** A whole run *)

Lemma new_effects_app s s' new : trace s' = trace s ++ new → new_effects s s' = new.
Proof. intros H. unfold new_effects. rewrite H. apply drop_app_length. Qed.

Lemma steps_weaken {A} v w cfg fixed (m : M A) :
  steps v w cfg true m → steps v w cfg fixed m.
Proof. intros Hm s. apply extends_weaken, Hm. Qed.

Lemma steps_pipeline v w cfg fuel : steps v w cfg false (pipeline v w cfg fuel).
Proof.
  unfold pipeline.
  match goal with |- context [if ?b then _ else _] => destruct b end.
  { apply steps_weaken, steps_download_file. }
  apply steps_bind; [apply steps_weaken, steps_count_files | intros total].
  apply steps_bind; [|intros _].
  { intros s. apply extends_same_trace; cbn; done. }
  apply steps_bind; [by apply steps_emit | intros _].
  apply steps_weaken, steps_download_directory.
Qed.

Lemma run_shape v w cfg fuel s :
  ∃ s1, extends v w cfg false s s1
        ∧ run_end w (pipeline v w cfg fuel s) (run v w cfg fuel s) s1.
Proof.
  pose proof (steps_pipeline v w cfg fuel s) as Hext.
  unfold run, try_exception. unfold bind at 1.
  destruct (pipeline v w cfg fuel s) as [[] s1|e s1|s1]; cbn [state_of] in Hext;
    exists s1; (split; [exact Hext|]).
  - unfold bind, is_canceled.
    destruct (cancel_set w (clock s1)) eqn:Hc; [by apply run_canceled|].
    by apply run_completed.
  - by eapply run_failed.
  - by apply run_out_of_fuel.
Qed.

Lemma emittable_not_complete v cfg new :
  Forall (emittable v cfg) new → Emit complete_signal ∉ new.
Proof. intros Hf Hin. by apply (proj1 (Forall_forall _ _) Hf) in Hin. Qed.

(** No run emits both terminal signals. *)
Lemma canceled_excludes_complete v w cfg fuel s :
  let new := new_effects s (state_of (run v w cfg fuel s)) in
  Emit canceled_signal ∈ new → Emit complete_signal ∉ new.
Proof.
  destruct (run_shape v w cfg fuel s) as (s1 & [new1 T F C K D N] & Hend).
  pose proof (emittable_not_complete v cfg new1 F) as Hnc.
  cbv zeta.
  destruct Hend as [_ Hc ->|_ Hc ->|e _ ->|_ ->]; cbn [state_of].
  - rewrite (new_effects_app s (tick s1) new1) by done. done.
  - rewrite (new_effects_app s _ (new1 ++ [Emit complete_signal]))
      by (unfold_state; by rewrite T, app_assoc).
    intros [Hin|Hin%list_elem_of_singleton]%elem_of_app; [|done].
    rewrite (C Hin) in Hc. done.
  - rewrite (new_effects_app s _ (new1 ++ [Emit (log_signal (MsgErrorOccurred e))]))
      by (unfold_state; by rewrite T, app_assoc).
    intros _ [Hin|Hin%list_elem_of_singleton]%elem_of_app; done.
  - rewrite (new_effects_app s s1 new1) by done. done.
Qed.

(** Once the flag is set, no completion signal follows. *)
Lemma set_flag_excludes_complete v w cfg fuel s :
  cancel_set w (clock s) = true →
  Emit complete_signal ∉ new_effects s (state_of (run v w cfg fuel s)).
Proof.
  intros Hset.
  destruct (run_shape v w cfg fuel s) as (s1 & [new1 T F C K D N] & Hend).
  pose proof (emittable_not_complete v cfg new1 F) as Hnc.
  destruct Hend as [_ _ ->|_ Hc ->|e _ ->|_ ->]; cbn [state_of].
  - by rewrite (new_effects_app s (tick s1) new1).
  - rewrite (cancel_set_mono w (clock s) (clock s1) K Hset) in Hc. done.
  - rewrite (new_effects_app s _ (new1 ++ [Emit (log_signal (MsgErrorOccurred e))]))
      by (unfold_state; by rewrite T, app_assoc).
    intros [Hin|Hin%list_elem_of_singleton]%elem_of_app; done.
  - by rewrite (new_effects_app s s1 new1).
Qed.

(** C4 (as the code has it). The two terminal signals exclude each other;
    the completion signal is emitted exactly when the pipeline of [run]
    (count and walk, or the single transfer) returns without an exception
    and the cancel flag reads unset at the test that follows it; a canceled
    signal is only ever emitted with the cancel flag set, and a run that
    emits it does not emit the completion signal; a run that starts with the
    flag set emits no completion signal. *)
Theorem terminal_signals v w cfg fuel s :
  let r := run v w cfg fuel s in
  let new := new_effects s (state_of r) in
  ¬ (Emit complete_signal ∈ new ∧ Emit canceled_signal ∈ new)
  ∧ (Emit complete_signal ∈ new ↔
     ∃ s1, pipeline v w cfg fuel s = Ret tt s1 ∧ cancel_set w (clock s1) = false)
  ∧ (Emit canceled_signal ∈ new →
     cancel_set w (clock (state_of r)) = true ∧ Emit complete_signal ∉ new)
  ∧ (cancel_set w (clock s) = true → Emit complete_signal ∉ new).
Proof.
  cbv zeta.
  pose proof (canceled_excludes_complete v w cfg fuel s) as Hex. cbv zeta in Hex.
  split; [intros [H1 H2]; by apply Hex in H2|].
  destruct (run_shape v w cfg fuel s) as (s1 & [new1 T F C K D N] & Hend).
  pose proof (emittable_not_complete v cfg new1 F) as Hnc.
  split; [|split; [|apply set_flag_excludes_complete]].
  - destruct Hend as [Hp Hc Hr|Hp Hc Hr|e Hp Hr|Hp Hr]; rewrite Hr in *; cbn [state_of].
    + rewrite (new_effects_app s (tick s1) new1) by done.
      split; [done|]. intros (s2 & Hp2 & Hc2). rewrite Hp in Hp2. simplify_eq.
      rewrite Hc in Hc2. done.
    + rewrite (new_effects_app s _ (new1 ++ [Emit complete_signal]))
        by (unfold_state; by rewrite T, app_assoc).
      split; [by exists s1|]. intros _. apply elem_of_app. right.
      by apply list_elem_of_singleton.
    + rewrite (new_effects_app s _ (new1 ++ [Emit (log_signal (MsgErrorOccurred e))]))
        by (unfold_state; by rewrite T, app_assoc).
      split; [|intros (s2 & Hp2 & _); rewrite Hp in Hp2; done].
      intros [Hin|Hin%list_elem_of_singleton]%elem_of_app; done.
    + rewrite (new_effects_app s s1 new1) by done.
      split; [done|]. intros (s2 & Hp2 & _). rewrite Hp in Hp2. done.
  - intros Hin. split; [|by apply Hex].
    destruct Hend as [Hp Hc Hr|Hp Hc Hr|e Hp Hr|Hp Hr]; rewrite Hr in *;
      cbn [state_of] in *.
    + apply (cancel_set_mono w (clock s1)); [cbn; lia | done].
    + rewrite (new_effects_app s _ (new1 ++ [Emit complete_signal])) in Hin
        by (unfold_state; by rewrite T, app_assoc).
      apply elem_of_app in Hin as [Hin|Hin%list_elem_of_singleton]; [|done].
      rewrite (C Hin) in Hc. done.
    + rewrite (new_effects_app s _ (new1 ++ [Emit (log_signal (MsgErrorOccurred e))]))
        in Hin by (unfold_state; by rewrite T, app_assoc).
      apply elem_of_app in Hin as [Hin|Hin%list_elem_of_singleton]; [|done].
      by apply C.
    + rewrite (new_effects_app s s1 new1) in Hin by done. by apply C.
Qed.

(** ** What a call leaves untouched *)

Section Keeps.

Context {X : Type} (f : State → X).
Hypothesis f_inert : inert f.
Variable w : World.

Lemma inert_push e s : f (push e s) = f s.
Proof. destruct f_inert as [Hp _]. apply (Hp [e] s). Qed.

Lemma inert_tick s : f (tick s) = f s.
Proof. by destruct f_inert as [_ Ht]. Qed.

Lemma keeps_ret {A} (a : A) : keeps f (ret a).
Proof. done. Qed.

Lemma keeps_raise {A} e : keeps f (@raise A e).
Proof. done. Qed.

Lemma keeps_out_of_fuel {A} : keeps f (@out_of_fuel A).
Proof. done. Qed.

Lemma keeps_gets {A} (g : State → A) : keeps f (gets g).
Proof. done. Qed.

Lemma keeps_bind {A B} (m : M A) (k : A → M B) :
  keeps f m → (∀ a, keeps f (k a)) → keeps f (bind m k).
Proof.
  intros Hm Hk s. unfold bind. specialize (Hm s).
  destruct (m s) as [a s'|e s'|s']; cbn [state_of] in *; [|done..].
  by rewrite Hk.
Qed.

Lemma keeps_try_request {A} (m : M A) : keeps f m → keeps f (try_request m).
Proof.
  intros Hm s. unfold try_request. specialize (Hm s).
  by destruct (m s) as [a s'|[] s'|s'].
Qed.

Lemma keeps_effect e : keeps f (effect e).
Proof. intros s. apply inert_push. Qed.

Lemma keeps_emit sg : keeps f (emit sg).
Proof. intros s. apply inert_push. Qed.

Lemma keeps_log m : keeps f (log m).
Proof. intros s. apply inert_push. Qed.

Lemma keeps_is_canceled : keeps f (is_canceled w).
Proof. intros s. apply inert_tick. Qed.

Lemma keeps_pause_wait : keeps f (pause_wait w).
Proof.
  intros s. unfold pause_wait. cbn [state_of]. rewrite inert_tick.
  by destruct f_inert as [Hp _].
Qed.

Lemma keeps_requests_get r : keeps f (requests_get w r).
Proof.
  intros s. unfold requests_get.
  assert (f (tick (push (HttpGet r) s)) = f s) by by rewrite inert_tick, inert_push.
  by destruct (http w (clock s) r).
Qed.

Lemma keeps_estimate factor overall : keeps f (estimate w factor overall).
Proof.
  intros s. unfold estimate. destruct (_ && _); cbn [state_of]; [done|].
  apply inert_push.
Qed.

Lemma keeps_retry_pause v m : keeps f (retry_pause v m).
Proof.
  unfold retry_pause.
  apply keeps_bind; [apply keeps_log | intros _].
  apply keeps_bind; [|intros _; apply keeps_effect].
  destruct v; [apply keeps_effect | apply keeps_ret].
Qed.

Lemma keeps_iter_content file_path file_size cs is_broken written :
  keeps f (iter_content w file_path file_size cs is_broken written).
Proof.
  revert written. induction cs as [|chunk rest IH]; intros written;
    cbn [iter_content].
  { by destruct is_broken. }
  apply keeps_bind; [|intros written'].
  - destruct chunk; [apply keeps_ret|].
    apply keeps_bind; [apply keeps_effect | intros _].
    apply keeps_bind; [|intros _; apply keeps_ret].
    destruct (file_size =? 0); [apply keeps_raise | apply keeps_emit].
  - apply keeps_bind; [apply keeps_pause_wait | intros _].
    apply keeps_bind; [apply keeps_is_canceled | intros c].
    destruct c; [|apply IH].
    apply keeps_bind; [apply keeps_emit | intros _; apply keeps_ret].
Qed.

Lemma keeps_count_links count url links total :
  (∀ u, keeps f (count u)) → keeps f (count_links count url links total).
Proof.
  intros Hc. revert total.
  induction links as [|href rest IH]; intros total; cbn [count_links]; [done|].
  destruct (is_nav href); [apply IH|].
  destruct href as [h|]; [|done].
  destruct (endswith_slash h); [|apply IH].
  apply keeps_bind; [apply Hc | intros n; apply IH].
Qed.

Lemma keeps_count_files fuel url : keeps f (count_files w fuel url).
Proof.
  revert url. induction fuel as [|fuel IH]; intros url; cbn [count_files]; [done|].
  apply keeps_bind; [|by intros [total|]].
  apply keeps_try_request.
  apply keeps_bind; [apply keeps_requests_get | intros response].
  destruct (negb _); [done|]. destruct (unparsable response); [done|].
  by apply keeps_count_links.
Qed.

End Keeps.

Lemma downloaded_files_inert : inert downloaded_files.
Proof. by split. Qed.

Lemma total_files_inert : inert total_files.
Proof. by split. Qed.

Lemma ledger_inert : inert ledger.
Proof. by split. Qed.

(** ** The effects of a call *)

Section Emits.

Variable w : World.
Variable P : Effect → Prop.

Lemma emits_same {A} (m : M A) : (∀ s, trace (state_of (m s)) = trace s) → emits P m.
Proof. intros H s. exists []. by rewrite H, app_nil_r. Qed.

Lemma emits_ret {A} (a : A) : emits P (ret a).
Proof. by apply emits_same. Qed.

Lemma emits_raise {A} e : emits P (@raise A e).
Proof. by apply emits_same. Qed.

Lemma emits_out_of_fuel {A} : emits P (@out_of_fuel A).
Proof. by apply emits_same. Qed.

Lemma emits_gets {A} (f : State → A) : emits P (gets f).
Proof. by apply emits_same. Qed.

Lemma emits_is_canceled : emits P (is_canceled w).
Proof. by apply emits_same. Qed.

Lemma emits_bind {A B} (m : M A) (k : A → M B) :
  emits P m → (∀ a, emits P (k a)) → emits P (bind m k).
Proof.
  intros Hm Hk s. unfold bind. destruct (Hm s) as (new1 & E1 & H1).
  destruct (m s) as [a s1|e s1|s1]; cbn [state_of] in *; [|by exists new1..].
  destruct (Hk a s1) as (new2 & E2 & H2). exists (new1 ++ new2).
  rewrite E2, E1, app_assoc. split; [done | by apply Forall_app].
Qed.

Lemma emits_try_request {A} (m : M A) : emits P m → emits P (try_request m).
Proof.
  intros Hm s. unfold try_request. destruct (Hm s) as (new & E & H).
  exists new. by destruct (m s) as [a s1|[] s1|s1].
Qed.

Lemma emits_effect e : P e → emits P (effect e).
Proof. intros H s. exists [e]. split; [done | by constructor]. Qed.

Lemma emits_emit sg : P (Emit sg) → emits P (emit sg).
Proof. apply emits_effect. Qed.

Lemma emits_log m : P (Emit (log_signal m)) → emits P (log m).
Proof. apply emits_effect. Qed.

Lemma emits_pause_wait : P PausePoll → emits P (pause_wait w).
Proof.
  intros H s. exists (replicate (pause_polls w (clock s)) PausePoll).
  split; [done | by apply Forall_replicate].
Qed.

Lemma emits_estimate factor overall :
  P (Emit (time_remaining_signal overall)) → emits P (estimate w factor overall).
Proof.
  intros H s. unfold estimate. destruct (_ && _); cbn [state_of].
  - exists []. by rewrite app_nil_r.
  - exists [Emit (time_remaining_signal overall)]. split; [done | by constructor].
Qed.

Lemma emits_requests_get r : P (HttpGet r) → emits P (requests_get w r).
Proof.
  intros H s. exists [HttpGet r]. unfold requests_get.
  split; [by destruct (http w (clock s) r) | by constructor].
Qed.

Lemma emits_retry_pause v m :
  P (Emit (log_signal m)) → P MessageBox → P (Sleep retry_delay) →
  emits P (retry_pause v m).
Proof.
  intros H1 H2 H3. unfold retry_pause.
  apply emits_bind; [by apply emits_log | intros _].
  apply emits_bind; [|intros _; by apply emits_effect].
  destruct v; [by apply emits_effect | apply emits_ret].
Qed.

End Emits.

Lemma emits_iter_content_of w (P : Effect → Prop) file_path file_size cs is_broken
    written :
  (∀ chunk, P (Write file_path chunk)) →
  (∀ n, P (Emit (progress_signal n file_size))) →
  P PausePoll → P (Emit canceled_signal) →
  emits P (iter_content w file_path file_size cs is_broken written).
Proof.
  intros Hw Hp Hpoll Hc. revert written.
  induction cs as [|chunk rest IH]; intros written; cbn [iter_content].
  { destruct is_broken; [apply emits_raise | apply emits_ret]. }
  apply emits_bind; [|intros written'].
  - destruct chunk; [apply emits_ret|].
    apply emits_bind; [by apply emits_effect | intros _].
    apply emits_bind; [|intros _; apply emits_ret].
    destruct (file_size =? 0); [apply emits_raise | by apply emits_emit].
  - apply emits_bind; [by apply emits_pause_wait | intros _].
    apply emits_bind; [apply emits_is_canceled | intros c].
    destruct c; [|apply IH].
    apply emits_bind; [by apply emits_emit | intros _; apply emits_ret].
Qed.

(** ** Files on disk *)

Lemma file_on_disk_app path content es1 es2 :
  file_on_disk path content (es1 ++ es2)
  = file_on_disk path (file_on_disk path content es1) es2.
Proof. apply foldl_app. Qed.

(** Effects that write to other paths, or to none, leave a file as it is. *)
Lemma file_on_disk_spared path es :
  Forall (λ e, ∀ content, file_step path content e = content) es →
  ∀ content, file_on_disk path content es = content.
Proof.
  induction 1 as [|e es He _ IH]; intros content; [done|].
  unfold file_on_disk. cbn [foldl]. rewrite He. apply IH.
Qed.

Lemma file_step_write_other path file_path chunk content :
  file_path ≠ path → file_step path content (Write file_path chunk) = content.
Proof. intros H. cbn. by destruct (String.eqb_spec file_path path). Qed.

Lemma file_step_open_other path file_path content :
  file_path ≠ path → file_step path content (OpenWb file_path) = content.
Proof. intros H. cbn. by destruct (String.eqb_spec file_path path). Qed.

Lemma file_writes_app es1 es2 : file_writes (es1 ++ es2) = file_writes es1 ++ file_writes es2.
Proof. apply flat_map_app. Qed.

(** Effects of which the file operations are [f.write] calls on [path]
    append the chunks to the file at [path]. *)
Lemma file_on_disk_written path es :
  Forall (λ e, match e with
               | Write p _ => p = path
               | OpenWb _ | AppendLine _ _ => False
               | _ => True
               end) es →
  ∀ content,
    file_on_disk path content es = content ++ map Bytes (map snd (file_writes es)).
Proof.
  induction 1 as [|e es He _ IH]; intros content.
  { cbn. by rewrite app_nil_r. }
  unfold file_on_disk. cbn [foldl]. fold (file_on_disk path (file_step path content e) es).
  rewrite IH. change (e :: es) with ([e] ++ es).
  rewrite file_writes_app, !map_app, app_assoc. f_equal.
  destruct e as [| | | | |p|p chunk|p line|]; cbn in He |- *;
    rewrite ?app_nil_r; try done.
  subst p. by rewrite String.eqb_refl.
Qed.

(** ** Cancellation in the middle of a stream *)

Lemma iter_content_aborted w file_path file_size cs is_broken written s s1 :
  iter_content w file_path file_size cs is_broken written s = Ret Aborted s1 →
  ∃ s' new, s1 = push (Emit canceled_signal) s' ∧ trace s' = trace s ++ new.
Proof.
  revert written s. induction cs as [|chunk rest IH]; intros written s;
    cbn [iter_content].
  { destruct is_broken; by intros. }
  unfold bind at 1.
  destruct chunk as [|b bs].
  - unfold ret at 1, bind at 1, pause_wait, bind at 1, is_canceled.
    cbn [clock tick push_all].
    destruct (cancel_set w _).
    + intros H. unfold bind, emit, modify, ret in H. injection H as H.
      eexists _, _. split; [symmetry; exact H|]. cbn. reflexivity.
    + intros (s' & new & -> & Hn)%IH. exists s'.
      rewrite Hn. cbn. rewrite <- ?app_assoc. eexists. split; reflexivity.
  - unfold bind at 1, effect, modify. unfold bind at 1.
    destruct (file_size =? 0); [by intros|].
    unfold emit, modify, ret at 1, bind at 1, pause_wait, bind at 1, is_canceled.
    cbn [clock tick push_all push].
    destruct (cancel_set w _).
    + intros H. unfold bind, emit, modify, ret in H. injection H as H.
      eexists _, _. split; [symmetry; exact H|]. cbn. rewrite <- ?app_assoc.
      reflexivity.
    + intros (s' & new & -> & Hn)%IH. exists s'.
      rewrite Hn. cbn. rewrite <- ?app_assoc. eexists. split; reflexivity.
Qed.

(** C5 (as the code has it). A transfer that the cancel flag stops between
    two chunks ([iter_content] ends [Aborted]) returns from [download_file]
    at once: the canceled signal is the last thing it emits, no completion
    signal is among its effects, the completed set is what it was before the
    transfer and nothing has been appended to the progress file. When the
    file in flight is not the progress file itself, the progress file holds
    what it held. When it is, [open(file_path, 'wb')] has emptied it: it
    holds the chunks written so far, and nothing of what it held. No run
    that emits the canceled signal emits the completion signal. *)
Theorem cancel_mid_stream_leaves_ledger v w cfg fuel url file_path s r size s1 :
  cancel_set w (clock s) = false →
  http w (S (clock s)) (stream_request v cfg url) = Replied r →
  status_code r = 200 →
  declared_size r = Some size →
  iter_content w file_path size (chunks r) (broken r) 0
    (stream_opened v cfg url file_path s) = Ret Aborted s1 →
  download_loop v w cfg (S fuel) url file_path s = Ret tt s1
  ∧ (∃ new, new_effects s s1 = new ++ [Emit canceled_signal]
            ∧ Emit complete_signal ∉ new)
  ∧ completed_files s1 = completed_files s
  ∧ progress_file s1 = progress_file s
  ∧ appended_lines (ledger_path cfg) (new_effects s s1) = []
  ∧ (∀ content,
       file_on_disk (ledger_path cfg) content (new_effects s s1)
       = if String.eqb file_path (ledger_path cfg)
         then map Bytes (map snd (file_writes (new_effects s s1)))
         else content)
  ∧ (∀ fuel0 cfg0 s0,
       let new0 := new_effects s0 (state_of (run v w cfg0 fuel0 s0)) in
       Emit canceled_signal ∈ new0 → Emit complete_signal ∉ new0).
Proof.
  intros Hc Hr H200 Hsize Hiter.
  assert (download_loop v w cfg (S fuel) url file_path s = Ret tt s1) as Hloop.
  { cbn [download_loop]. unfold bind at 1, is_canceled. rewrite Hc.
    unfold bind at 1, try_request, attempt. unfold bind at 1, requests_get.
    cbn [clock tick]. rewrite Hr, H200.
    assert (match v with TestPy => false | Test3Py => 200 =? 302 end = false) as ->
      by by destruct v.
    cbn [Z.eqb Pos.eqb]. unfold declared_size in Hsize.
    unfold stream_opened in Hiter.
    destruct (content_length r) as [|n|]; [injection Hsize as <-|injection Hsize as <-|done];
      unfold bind at 1; unfold ret at 1; unfold bind at 1; unfold effect, modify;
      unfold bind at 1; rewrite Hiter; done. }
  split; [exact Hloop|].
  pose proof (steps_download_loop v w cfg (S fuel) url file_path s) as Hext.
  rewrite Hloop in Hext. cbn [state_of] in Hext.
  destruct Hext as [new1 T F _ _ _ _].
  pose proof (keeps_iter_content ledger ledger_inert w file_path size (chunks r)
                (broken r) 0 (stream_opened v cfg url file_path s)) as Hk.
  rewrite Hiter in Hk. cbn [state_of] in Hk. unfold ledger in Hk.
  injection Hk as Hk1 Hk2.
  destruct (iter_content_aborted _ _ _ _ _ _ _ _ Hiter) as (s' & new2 & Hs1 & Hn2).
  assert (trace s1 = trace s ++
            ([HttpGet (stream_request v cfg url); OpenWb file_path] ++ new2)
            ++ [Emit canceled_signal]) as T2.
  { rewrite Hs1. cbn in Hn2 |- *. rewrite Hn2. by rewrite <- !app_assoc. }
  split; [|split; [exact Hk1 | split; [exact Hk2|]]].
  { rewrite (new_effects_app s s1 _ T2).
    eexists. split; [reflexivity|].
    intros Hin. apply (emittable_not_complete v cfg new1 F).
    rewrite T in T2. apply app_inv_head in T2. rewrite T2.
    apply elem_of_app. by left. }
  destruct (emits_iter_content_of w
              (λ e, match e with
                    | Write p _ => p = file_path
                    | OpenWb _ | AppendLine _ _ => False
                    | _ => True
                    end)
              file_path size (chunks r) (broken r) 0
              (λ _, eq_refl) (λ _, I) I I
              (stream_opened v cfg url file_path s)) as (new3 & T3 & F3).
  rewrite Hiter in T3. cbn [state_of] in T3.
  assert (trace s1 = trace s
            ++ [HttpGet (stream_request v cfg url); OpenWb file_path] ++ new3) as T4.
  { rewrite T3. unfold stream_opened. unfold_state. by rewrite <- !app_assoc. }
  rewrite (new_effects_app s s1 _ T4).
  split; [|split].
  - cbn [app appended_lines flat_map]. clear -F3.
    induction F3 as [|e es He _ IH]; [done|].
    cbn [flat_map]. rewrite IH. by destruct e.
  - intros content. destruct (String.eqb_spec file_path (ledger_path cfg)) as [<-|Hne].
    + rewrite file_on_disk_app.
      assert (file_on_disk file_path content
                [HttpGet (stream_request v cfg url); OpenWb file_path] = []) as ->.
      { cbn. by rewrite String.eqb_refl. }
      by rewrite (file_on_disk_written _ _ F3), file_writes_app.
    + apply file_on_disk_spared. constructor; [done|].
      constructor; [intros c; by apply file_step_open_other|].
      eapply Forall_impl; [exact F3|].
      intros [| | | | |p|p chunk|p line|] He c; try done.
      subst p. by apply file_step_write_other.
  - intros fuel0 cfg0 s0. apply canceled_excludes_complete.
Qed.

(** ** The headers of the requests *)

(** C9 (as the code has it). In a run of test-3.py every request is either
    a stream open of [download_file], which carries the fixed User-Agent
    header (and nothing else in [headers]), or a listing fetch of
    [count_files] or [download_directory], which passes no headers. *)
Theorem stream_opens_carry_user_agent w cfg fuel s r :
  HttpGet r ∈ new_effects s (state_of (run Test3Py w cfg fuel s)) →
  (∃ u, r = stream_request Test3Py cfg u
        ∧ req_headers r = [("User-Agent"%string, user_agent)])
  ∨ (∃ u, r = listing_request u ∧ req_headers r = []).
Proof.
  destruct (run_shape Test3Py w cfg fuel s) as (s1 & [new1 T F C K D N] & Hend).
  assert (HttpGet r ∈ new1 →
          (∃ u, r = stream_request Test3Py cfg u
                ∧ req_headers r = [("User-Agent"%string, user_agent)])
          ∨ (∃ u, r = listing_request u ∧ req_headers r = [])) as Hnew.
  { intros Hin. apply (proj1 (Forall_forall _ _) F) in Hin.
    destruct Hin as [[u ->]|[u ->]]; [right|left]; by exists u. }
  destruct Hend as [_ _ ->|_ _ ->|e _ ->|_ ->]; cbn [state_of].
  - by rewrite (new_effects_app s (tick s1) new1).
  - rewrite (new_effects_app s _ (new1 ++ [Emit complete_signal]))
      by (unfold_state; by rewrite T, app_assoc).
    intros [Hin|Hin%list_elem_of_singleton]%elem_of_app; [by apply Hnew | done].
  - rewrite (new_effects_app s _ (new1 ++ [Emit (log_signal (MsgErrorOccurred e))]))
      by (unfold_state; by rewrite T, app_assoc).
    intros [Hin|Hin%list_elem_of_singleton]%elem_of_app; [by apply Hnew | done].
  - by rewrite (new_effects_app s s1 new1).
Qed.

(** ** The URL of a child *)

Lemma starts_with_push {B} e pre (k : unit → M B) s :
  starts_with pre (k tt) (push e s) →
  starts_with (e :: pre) (bind (modify (push e)) k) s.
Proof.
  intros [tl H]. exists tl. unfold bind, modify. rewrite H. cbn.
  by rewrite <- app_assoc.
Qed.

(** C10. The URL requested for an entry of a listing is the URL of the
    listing followed by the [href], as it is: for an entry [h] that is not
    ['../'] or ['./'], the first request the entry causes goes to
    [url +:+ h], in the count (a directory), in the walk of a directory
    (after the local directory is made and logged), and in the walk of a
    file (after the log line). Nothing resolves [h] against [url]. *)
Theorem child_url_is_concatenation v w cfg fuel url dest h rest s :
  is_nav (Some h) = false →
  (endswith_slash h = true →
   (∀ total,
      starts_with [HttpGet (listing_request (url +:+ h))]
        (count_links (count_files w (S fuel)) url (Some h :: rest) total) s)
   ∧ (cancel_set w (clock s) = false →
      starts_with
        [Makedirs (os_path_join dest h);
         Emit (log_signal (MsgEntering (os_path_join dest h)));
         HttpGet (listing_request (url +:+ h))]
        (crawl_links v w cfg (S fuel) (download_directory v w cfg (S fuel))
           url dest (Some h :: rest)) s))
  ∧ (endswith_slash h = false →
     cancel_set w (S (clock s)) = false →
     os_path_join dest (last_segment (url +:+ h)) ∉ completed_files s →
     starts_with
       [Emit (log_signal (MsgDownloadingFile h (os_path_join dest h)));
        HttpGet (stream_request v cfg (url +:+ h))]
       (crawl_links v w cfg (S fuel) (download_directory v w cfg (S fuel))
          url dest (Some h :: rest)) s).
Proof.
  intros Hnav. split.
  - intros Hdir. split.
    + intros total. cbn [count_links]. rewrite Hnav, Hdir.
      apply (starts_with_bind v w cfg).
      * intros n. apply steps_count_links. intros u. apply steps_count_files.
      * apply (count_files_first_request v w cfg).
    + intros Hc. cbn [crawl_links]. rewrite Hnav, Hdir.
      apply (starts_with_bind v w cfg).
      { intros _. apply steps_crawl_links. intros u d.
        apply steps_download_directory. }
      unfold effect, log, emit.
      apply starts_with_push, starts_with_push.
      by apply download_directory_first_request.
  - intros Hfile Hc Hnew. cbn [crawl_links]. rewrite Hnav, Hfile.
    apply (starts_with_bind v w cfg).
    { intros _. apply steps_crawl_links. intros u d.
      apply steps_download_directory. }
    unfold log, emit. apply starts_with_push.
    by apply download_file_first_request.
Qed.

(** ** The counter of downloaded files *)

Section Downloaded.

Variable v : Variant.
Variable w : World.
Variable cfg : Config.

Lemma finish_file_downloaded file_path file_size written s :
  downloaded_files (state_of (finish_file v w cfg file_path file_size written s))
    <= downloaded_files s + 1
  ∧ ∀ s', finish_file v w cfg file_path file_size written s ≠ Exc RequestException s'.
Proof.
  unfold finish_file, file_time_remaining, estimate, bind, modify, gets, log, emit,
    effect, modify, raise, ret.
  destruct v; cbn;
    repeat match goal with
           | |- context [if ?b then _ else _] => destruct b; cbn
           end;
    (split; [lia | done]).
Qed.

Lemma stream_downloaded file_path file_size cs is_broken s0 s :
  downloaded_files s0 = downloaded_files s →
  attempt_counts s
    ((e <- iter_content w file_path file_size cs is_broken 0 ;;
      match e with
      | Aborted => ret Return
      | Finished written => finish_file v w cfg file_path file_size written ;; ret Break
      end) s0).
Proof.
  intros Hs. unfold bind at 1.
  pose proof (keeps_iter_content downloaded_files downloaded_files_inert
                w file_path file_size cs is_broken 0 s0) as Hk.
  destruct (iter_content w file_path file_size cs is_broken 0 s0)
    as [[written|] s1|e s1|s1]; cbn [state_of] in Hk.
  - unfold bind.
    destruct (finish_file_downloaded file_path file_size written s1) as [Hd Hne].
    destruct (finish_file v w cfg file_path file_size written s1) as [[] s2|e s2|s2];
      cbn [state_of] in Hd.
    + cbn. lia.
    + specialize (Hne s2). destruct e; cbn; try lia. done.
    + cbn. lia.
  - cbn. lia.
  - destruct e; cbn; lia.
  - cbn. lia.
Qed.

Lemma attempt_downloaded url file_path s :
  attempt_counts s (attempt v w cfg url file_path s).
Proof.
  unfold attempt. unfold bind at 1, requests_get.
  destruct (http w (clock s) (stream_request v cfg url)) as [|response]; [done|].
  match goal with |- context [if ?b then _ else _] => destruct b end.
  { destruct (location response); unfold bind, log, emit, modify, ret, raise;
      unfold_state; cbn; [done | lia]. }
  destruct (status_code response =? 200);
    [|unfold bind, log, emit, modify, ret; unfold_state; cbn; lia].
  unfold bind at 1.
  destruct (content_length response) as [|n|]; [| |cbn; lia];
    unfold ret at 1; unfold bind at 1, effect, modify;
    apply stream_downloaded; done.
Qed.

Lemma download_loop_at_most_one fuel url file_path s :
  downloaded_files (state_of (download_loop v w cfg fuel url file_path s))
    <= downloaded_files s + 1.
Proof.
  revert url s. induction fuel as [|fuel IH]; intros url s; cbn [download_loop].
  { cbn. lia. }
  unfold bind at 1, is_canceled.
  destruct (cancel_set w (clock s)); [cbn; lia|].
  unfold bind at 1, try_request.
  pose proof (attempt_downloaded url file_path (tick s)) as Ha.
  destruct (attempt v w cfg url file_path (tick s)) as [[| |url'] s1|e s1|s1];
    unfold attempt_counts in Ha; cbn [downloaded_files tick] in Ha; cbn [state_of].
  - unfold ret. cbn. lia.
  - unfold ret. cbn. lia.
  - specialize (IH url' s1). lia.
  - destruct e; cbn [state_of]; try lia.
    unfold bind.
    pose proof (keeps_retry_pause downloaded_files downloaded_files_inert v
                  (MsgNetworkIssue url) s1) as Hk.
    destruct (retry_pause v (MsgNetworkIssue url) s1) as [[] s2|e s2|s2];
      cbn [state_of] in *; try lia.
    specialize (IH url s2). lia.
  - lia.
Qed.

Lemma download_file_at_most_one fuel url dest s :
  downloaded_files (state_of (download_file v w cfg fuel url dest s))
    <= downloaded_files s + 1.
Proof.
  unfold download_file. unfold bind at 1, is_canceled.
  destruct (cancel_set w (clock s)); [cbn; lia|].
  unfold bind at 1, gets.
  destruct (bool_decide _); [cbn; lia|].
  pose proof (download_loop_at_most_one fuel url
                (os_path_join dest (last_segment url)) (tick s)) as H.
  cbn [downloaded_files tick] in H. exact H.
Qed.

Lemma crawl_links_catches fuel url dest links s s' :
  crawl_links v w cfg fuel (download_directory v w cfg fuel) url dest links s
    ≠ Exc RequestException s'.
Proof.
  intros H.
  assert (RequestException = TypeError ∨ RequestException = ParserRejectedMarkup
          ∨ transfer_fault RequestException)
    as [?|[?|[?|[?|[?|?]]]]]; [|done..].
  eapply (raises_crawl_links v w cfg
            (λ e, e = TypeError ∨ e = ParserRejectedMarkup ∨ transfer_fault e));
    [tauto | by right; left | | exact H].
  intros u d. apply raises_download_directory; [tauto | tauto | by right; left].
Qed.

(** A directory whose listing cannot be fetched: the walk retries and
    downloads nothing. *)
Lemma walk_unreachable fuel url dest s :
  (∀ t, http w t (listing_request url) = NetworkError) →
  downloaded_files (state_of (download_directory v w cfg fuel url dest s))
    = downloaded_files s.
Proof.
  intros Hr. revert s. induction fuel as [|fuel IH]; intros s;
    cbn [download_directory]; [done|].
  unfold bind at 1, is_canceled.
  destruct (cancel_set w (clock s)); [done|].
  unfold bind at 1, try_request. unfold bind at 1, requests_get. rewrite Hr.
  unfold bind at 1.
  pose proof (keeps_retry_pause downloaded_files downloaded_files_inert v
                (MsgNetworkIssueDir url)
                (tick (push (HttpGet (listing_request url)) (tick s)))) as Hk.
  destruct (retry_pause v (MsgNetworkIssueDir url) _) as [[] s2|e s2|s2];
    cbn [state_of] in *; unfold_state; [|done..].
  by rewrite IH.
Qed.

(** A directory whose listing is answered with an answer [r]: the walk
    downloads what the list loop downloads. *)
Lemma walk_listing fuel url dest r bound s :
  (∀ t, http w t (listing_request url) = Replied r) →
  0 <= bound →
  (status_code r = 200 →
   ∀ sb, downloaded_files
           (state_of (crawl_links v w cfg fuel (download_directory v w cfg fuel)
                        url dest (anchors r) sb))
         <= downloaded_files sb + bound) →
  downloaded_files (state_of (download_directory v w cfg (S fuel) url dest s))
    <= downloaded_files s + bound.
Proof.
  intros Hr Hb Hcrawl. cbn [download_directory].
  unfold bind at 1, is_canceled.
  destruct (cancel_set w (clock s)); [cbn; lia|].
  unfold bind at 1, try_request. unfold bind at 1, requests_get. rewrite Hr.
  destruct (status_code r =? 200) eqn:H200; cbn [negb].
  - destruct (unparsable r); [cbn; lia|].
    apply Z.eqb_eq in H200. unfold bind at 1.
    specialize (Hcrawl H200 (tick (push (HttpGet (listing_request url)) (tick s)))).
    pose proof (crawl_links_catches fuel url dest (anchors r)
                  (tick (push (HttpGet (listing_request url)) (tick s)))) as Hne.
    destruct (crawl_links v w cfg fuel _ url dest (anchors r) _)
      as [[] s2|e s2|s2]; cbn [state_of] in *; unfold_state; [done| |done].
    destruct e; cbn [state_of]; try done. by specialize (Hne s2).
  - cbn. lia.
Qed.

Section Stable.

Hypothesis Hstable : stable_listings w.

Lemma crawl_bound n :
  (∀ url s0 total s0',
     count_files w n url s0 = Ret total s0' →
     0 <= total
     ∧ ∀ m dest s,
         downloaded_files (state_of (download_directory v w cfg m url dest s))
           <= downloaded_files s + total) →
  ∀ url links acc sa total sa',
    count_links (count_files w n) url links acc sa = Ret total sa' →
    acc <= total
    ∧ ∀ m dest sb,
        downloaded_files
          (state_of (crawl_links v w cfg m (download_directory v w cfg m)
                       url dest links sb))
          <= downloaded_files sb + (total - acc).
Proof.
  intros IHn url links.
  induction links as [|href rest IH]; intros acc sa total sa' H;
    cbn [count_links] in H.
  { unfold ret in H. simplify_eq. split; [lia|]. intros m dest sb. cbn. lia. }
  cbn [crawl_links].
  destruct (is_nav href); [by apply IH in H|].
  destruct href as [h|]; [|done].
  destruct (endswith_slash h).
  - unfold bind in H.
    destruct (count_files w n (url +:+ h) sa) as [c sa1|e sa1|sa1] eqn:E; [|done..].
    apply IHn in E as [Hc Hwalk]. apply IH in H as [Hle Hrest].
    split; [lia|]. intros m dest sb.
    unfold bind at 1. unfold bind at 1, effect, modify.
    unfold bind at 1, log, emit, modify.
    specialize (Hwalk m (os_path_join dest h)
                  (push (Emit (log_signal (MsgEntering (os_path_join dest h))))
                     (push (Makedirs (os_path_join dest h)) sb))).
    destruct (download_directory v w cfg m (url +:+ h) (os_path_join dest h) _)
      as [[] s2|e s2|s2]; cbn [state_of] in *; unfold_state; try lia.
    specialize (Hrest m dest s2). lia.
  - apply IH in H as [Hle Hrest].
    split; [lia|]. intros m dest sb.
    unfold bind at 1. unfold bind at 1, log, emit, modify.
    pose proof (download_file_at_most_one m (url +:+ h) dest
                  (push (Emit (log_signal
                                 (MsgDownloadingFile h (os_path_join dest h)))) sb))
      as Hfile.
    destruct (download_file v w cfg m (url +:+ h) dest _)
      as [[] s2|e s2|s2]; cbn [state_of] in *; unfold_state; try lia.
    specialize (Hrest m dest s2). lia.
Qed.

(** With stable listings, the walk of a directory downloads no more files
    than the count of that directory has returned. *)
Lemma walk_bound n url s0 total s0' :
  count_files w n url s0 = Ret total s0' →
  0 <= total
  ∧ ∀ m dest s,
      downloaded_files (state_of (download_directory v w cfg m url dest s))
        <= downloaded_files s + total.
Proof.
  revert url s0 total s0'.
  induction n as [|n IHn]; intros url s0 total s0' H; [done|].
  cbn [count_files] in H. unfold bind at 1, try_request in H.
  unfold bind at 1, requests_get in H.
  destruct (http w (clock s0) (listing_request url)) as [|r] eqn:Hr.
  - unfold ret in H. simplify_eq. split; [lia|]. intros m dest s.
    rewrite walk_unreachable; [lia|]. intros t. by rewrite (Hstable t (clock s0)).
  - assert (∀ t, http w t (listing_request url) = Replied r) as Hr'.
    { intros t. by rewrite (Hstable t (clock s0)). }
    destruct (status_code r =? 200) eqn:H200; cbn [negb] in H.
    + destruct (unparsable r); [done|].
      pose proof (raises_count_links (λ e, e = TypeError ∨ e = ParserRejectedMarkup)
                    (count_files w n) url (anchors r) 0 (or_introl eq_refl)
                    (λ u, count_files_catches w n u)
                    (tick (push (HttpGet (listing_request url)) s0))) as Hne.
      destruct (count_links (count_files w n) url (anchors r) 0 _)
        as [c s1|e s1|s1] eqn:E; [| |done].
      * unfold ret in H. simplify_eq.
        apply (crawl_bound n IHn) in E as [Hle Hcrawl]. split; [done|].
        intros [|m] dest s; [cbn; lia|].
        apply (walk_listing m url dest r); [done..|].
        intros _ sb. specialize (Hcrawl m dest sb). lia.
      * destruct (Hne e s1 eq_refl); subst e; done.
    + unfold ret in H. simplify_eq. split; [lia|].
      intros [|m] dest s; [cbn; lia|].
      apply (walk_listing m url dest r); [done..|].
      intros H200'. rewrite H200' in H200. done.
Qed.

End Stable.

End Downloaded.

Lemma extends_downloaded v w cfg fixed s s' :
  extends v w cfg fixed s s' → downloaded_files s <= downloaded_files s'.
Proof. by intros [new T F C K D N]. Qed.

Lemma run_counters v w cfg fuel s :
  downloaded_files (state_of (run v w cfg fuel s))
    = downloaded_files (state_of (pipeline v w cfg fuel s))
  ∧ total_files (state_of (run v w cfg fuel s))
    = total_files (state_of (pipeline v w cfg fuel s)).
Proof.
  destruct (run_shape v w cfg fuel s) as (s1 & _ & Hend).
  by destruct Hend as [-> _ ->| -> _ ->|e -> ->| -> ->].
Qed.

(** C2 (as the code has it). The counter of downloaded files never
    decreases: none of [count_files], [download_file], [download_directory]
    and [run] ends, in any way and after any number of steps the recursion
    budget allows, with a smaller counter than it started with. When the
    listings are stable (the same answer for the same URL at count time and at
    walk time), the walk of a directory downloads at most what the count of
    that directory returned, and a run in directory mode that starts from the
    state [__init__] leaves ends with the counter at most [total_files]. *)
Theorem downloaded_files_monotone_and_bounded v w cfg fuel :
  (∀ s url dest,
     downloaded_files s <= downloaded_files (state_of (count_files w fuel url s))
     ∧ downloaded_files s
       <= downloaded_files (state_of (download_file v w cfg fuel url dest s))
     ∧ downloaded_files s
       <= downloaded_files (state_of (download_directory v w cfg fuel url dest s))
     ∧ downloaded_files s <= downloaded_files (state_of (run v w cfg fuel s)))
  ∧ (stable_listings w →
     (∀ url s0 total s0',
        count_files w fuel url s0 = Ret total s0' →
        ∀ m dest s,
          downloaded_files (state_of (download_directory v w cfg m url dest s))
            <= downloaded_files s + total)
     ∧ (directory_mode v cfg →
        ∀ completed lines,
          let sf := state_of (run v w cfg fuel (init completed lines)) in
          downloaded_files sf <= total_files sf)).
Proof.
  split.
  - intros s url dest. repeat split.
    + eapply extends_downloaded, (steps_count_files v w cfg).
    + eapply extends_downloaded, steps_download_file.
    + eapply extends_downloaded, steps_download_directory.
    + destruct (run_counters v w cfg fuel s) as [-> _].
      eapply extends_downloaded, steps_pipeline.
  - intros Hstable. split.
    { intros url s0 total s0' H. by apply (walk_bound v w cfg Hstable) in H as [_ H]. }
    intros Hmode completed lines. cbv zeta.
    destruct (run_counters v w cfg fuel (init completed lines)) as [-> ->].
    assert (pipeline v w cfg fuel (init completed lines) =
            match count_files w fuel (base_url cfg) (init completed lines) with
            | Ret total s1 =>
                download_directory v w cfg fuel (base_url cfg) (dest_folder cfg)
                  (push (Emit (file_count_signal total)) (set_total_files total s1))
            | Exc e s1 => Exc e s1
            | OutOfFuel s1 => OutOfFuel s1
            end) as ->.
    { unfold pipeline.
      assert (match v with TestPy => false | Test3Py => is_single_file cfg end = false)
        as -> by (destruct v; [done | exact Hmode]).
      unfold bind at 1. by destruct (count_files w fuel _ _). }
    pose proof (keeps_count_files downloaded_files downloaded_files_inert w fuel
                  (base_url cfg) (init completed lines)) as Hd.
    pose proof (keeps_count_files total_files total_files_inert w fuel
                  (base_url cfg) (init completed lines)) as Ht.
    destruct (count_files w fuel (base_url cfg) (init completed lines))
      as [total s1|e s1|s1] eqn:E; cbn [state_of] in *;
      unfold init in Hd, Ht; cbn in Hd, Ht;
      [|lia..].
    apply (walk_bound v w cfg Hstable) in E as [Htotal Hwalk].
    specialize (Hwalk fuel (dest_folder cfg)
                  (push (Emit (file_count_signal total)) (set_total_files total s1))).
    pose proof (steps_download_directory v w cfg fuel (base_url cfg) (dest_folder cfg)
                  (push (Emit (file_count_signal total)) (set_total_files total s1)))
      as [new T F C K D N].
    rewrite (N eq_refl). unfold_state. lia.
Qed.

(** ** The properties on the scenarios *)

Local Ltac in_list := apply list_elem_of_In; vm_compute; tauto.
Local Ltac not_in_list :=
  let H := fresh in intros H; apply list_elem_of_In in H; vm_compute in H; intuition discriminate.

(** C1 on a file served without a content-length: the first chunk is
    written and the transfer ends with [ZeroDivisionError]; the run reports
    the error and emits no completion signal. *)
Lemma zero_size_division_fault_witness :
  download_loop Test3Py unsized_world crawl_h 1 "http://h/f" "dest/f" (init ∅ []) =
    Exc ZeroDivisionError
      (mkState 0 0 0 ∅ [] []
         [HttpGet (stream_request Test3Py crawl_h "http://h/f"); OpenWb "dest/f";
          Write "dest/f" ["a"%byte]] 2)
  ∧ new_effects (init ∅ []) (state_of (run TestPy unsized_world crawl_h 3 (init ∅ []))) =
      [HttpGet (listing_request "http://h/"); Emit (file_count_signal 1);
       HttpGet (listing_request "http://h/");
       Emit (log_signal (MsgDownloadingFile "f" "dest/f"));
       HttpGet (stream_request TestPy crawl_h "http://h/f"); OpenWb "dest/f";
       Write "dest/f" ["a"%byte];
       Emit (log_signal (MsgErrorOccurred ZeroDivisionError))].
Proof.
  split; [|reflexivity].
  apply (zero_size_division_fault Test3Py unsized_world crawl_h 0 "http://h/f" "dest/f"
           (init ∅ []) (mkResponse 200 CLAbsent None [] [["a"%byte]] false false)
           ["a"%byte] []); try reflexivity.
  discriminate.
Defined.

(** C2 fails when the listing cannot be fetched at count time and can at
    walk time: the count is 0 and one file is downloaded, on both programs. *)
Lemma downloaded_exceeds_total :
  let s3 := state_of (run Test3Py flaky_world crawl_h 3 (init ∅ [])) in
  let s1 := state_of (run TestPy flaky_world crawl_h 3 (init ∅ [])) in
  directory_mode Test3Py crawl_h
  ∧ Emit (file_count_signal 0) ∈ trace s3
  ∧ (downloaded_files s3 = 1 ∧ total_files s3 = 0)
  ∧ (downloaded_files s1 = 1 ∧ total_files s1 = 0)
  ∧ ¬ (downloaded_files s3 <= total_files s3).
Proof.
  cbv zeta. split; [reflexivity|]. split; [in_list|].
  split; [by vm_compute|]. split; [by vm_compute|]. by vm_compute.
Defined.

Lemma tree_world_stable : stable_listings tree_world.
Proof. by intros t t' u. Qed.

(** C2 as amended, on the tree of the specification. *)
Lemma downloaded_files_bounded_witness :
  let sf := state_of (run Test3Py tree_world crawl_h 4 (init ∅ [])) in
  downloaded_files (init ∅ []) <= downloaded_files sf
  ∧ downloaded_files sf <= total_files sf.
Proof.
  cbv zeta.
  destruct (downloaded_files_monotone_and_bounded Test3Py tree_world crawl_h 4)
    as [Hmono Hbound].
  split.
  - apply (Hmono (init ∅ []) ""%string ""%string).
  - apply (proj2 (Hbound tree_world_stable)); reflexivity.
Defined.

(** C3 fails on a listing with an anchor that has no [href]: the listing
    has two file anchors and no directory anchor, and [count_files] does not
    return 2: at the anchor without [href], [url + href] raises [TypeError].
    The run reports the error; no count is stored or emitted and nothing is
    downloaded. *)
Lemma count_fails_at_anchor_without_href :
  http bookmark_world 0 (listing_request "http://h/")
  = listing_reply [Some "a.txt"; None; Some "b.txt"]%string
  ∧ count_files bookmark_world 1 "http://h/" (init ∅ [])
    = Exc TypeError (mkState 0 0 0 ∅ [] [] [HttpGet (listing_request "http://h/")] 1)
  ∧ ¬ returns (count_files bookmark_world 1 "http://h/") 2
  ∧ run TestPy bookmark_world crawl_h 3 (init ∅ [])
    = Ret tt (mkState 0 0 0 ∅ [] []
                [HttpGet (listing_request "http://h/");
                 Emit (log_signal (MsgErrorOccurred TypeError))] 1).
Proof.
  split; [reflexivity|]. split; [reflexivity|]. split; [|reflexivity].
  intros H. destruct (H (init ∅ [])) as [s' Hs']. discriminate Hs'.
Defined.

(** C3 as amended, on the tree of the specification: one file and one
    directory at the root (['../'] left out), one file in the directory:
    2. *)
Lemma count_tree_witness :
  returns (count_files tree_world 2 "http://h/") 2
  ∧ returns (count_files tree_world 2 "http://h/missing/") 0
  ∧ returns (count_files down_world 2 "http://h/") 0.
Proof.
  split; [|split].
  - apply (proj1 (count_is_files_plus_subdirectories tree_world 1 "http://h/")
             (mkResponse 200 CLAbsent None
                [Some "../"; Some "a.txt"; Some "sub/"]%string [] false false)
             ["../"; "a.txt"; "sub/"]%string [1]); try reflexivity.
    repeat constructor. intros s. eexists. reflexivity.
  - apply (proj1 (proj2 (count_is_files_plus_subdirectories tree_world 1
                           "http://h/missing/"))
             (mkResponse 404 CLAbsent None [] [] false false)); [reflexivity | discriminate].
  - by apply (proj2 (proj2 (count_is_files_plus_subdirectories down_world 1
                              "http://h/"))).
Defined.

(** C4 fails on a run that [cancel()] reaches after the last check of the
    walk and before the test of [run]: the run returns and has emitted
    neither signal. It fails as well on a run that ends in an exception. *)
Lemma neither_terminal_signal :
  let r := run Test3Py late_cancel_world crawl_h 3 (init ∅ []) in
  let r' := run Test3Py unsized_world crawl_h 3 (init ∅ []) in
  (∃ s, r = Ret tt s)
  ∧ (Emit complete_signal ∉ trace (state_of r))
  ∧ (Emit canceled_signal ∉ trace (state_of r))
  ∧ (∃ s, r' = Ret tt s)
  ∧ (Emit complete_signal ∉ trace (state_of r'))
  ∧ (Emit canceled_signal ∉ trace (state_of r')).
Proof.
  cbv zeta. split; [eexists; by vm_compute|].
  split; [not_in_list|]. split; [not_in_list|].
  split; [eexists; by vm_compute|].
  split; not_in_list.
Defined.

(** C4 as amended, on the run that is canceled while a file is written:
    the canceled signal is there, the completion signal is not. *)
Lemma terminal_signals_witness :
  let new := new_effects (init ∅ [])
               (state_of (run Test3Py cancel_world fetch_f 3 (init ∅ []))) in
  Emit canceled_signal ∈ new ∧ Emit complete_signal ∉ new.
Proof.
  cbv zeta.
  assert (Emit canceled_signal
            ∈ new_effects (init ∅ [])
                (state_of (run Test3Py cancel_world fetch_f 3 (init ∅ [])))) as Hin
    by in_list.
  split; [exact Hin|].
  apply (proj1 (proj2 (proj2 (terminal_signals Test3Py cancel_world fetch_f 3
                                (init ∅ []))))
           Hin).
Defined.

(** C5 fails when the file in flight has the path of the progress file: the
    transfer has opened it with ['wb'] and written its first chunk into it
    when the flag stops it. The line that recorded an earlier file is gone
    from the file, and still in the completed set. *)
Lemma cancel_mid_stream_truncates_ledger :
  let s := init {["dest/old.bin"%string]} ["dest/old.bin"%string] in
  let file_path := os_path_join "dest" (last_segment "http://h/download_progress.txt") in
  let r := download_loop Test3Py ledger_name_world fetch_ledger_name 1
             "http://h/download_progress.txt" file_path s in
  file_path = ledger_path fetch_ledger_name
  ∧ r = Ret tt (mkState 0 0 0 {["dest/old.bin"%string]} [] ["dest/old.bin"%string]
                  [HttpGet (stream_request Test3Py fetch_ledger_name
                              "http://h/download_progress.txt");
                   OpenWb "dest/download_progress.txt";
                   Write "dest/download_progress.txt" ["a"%byte];
                   Emit (progress_signal 1 2); Emit canceled_signal] 4)
  ∧ file_on_disk (ledger_path fetch_ledger_name) [Line "dest/old.bin"]
      (new_effects s (state_of r))
    = [Bytes ["a"%byte]].
Proof.
  cbv zeta. split; [reflexivity|].
  assert (download_loop Test3Py ledger_name_world fetch_ledger_name 1
            "http://h/download_progress.txt"
            (os_path_join "dest" (last_segment "http://h/download_progress.txt"))
            (init {["dest/old.bin"%string]} ["dest/old.bin"%string])
          = Ret tt (mkState 0 0 0 {["dest/old.bin"%string]} [] ["dest/old.bin"%string]
                      [HttpGet (stream_request Test3Py fetch_ledger_name
                                  "http://h/download_progress.txt");
                       OpenWb "dest/download_progress.txt";
                       Write "dest/download_progress.txt" ["a"%byte];
                       Emit (progress_signal 1 2); Emit canceled_signal] 4)) as E
    by reflexivity.
  rewrite E. split; reflexivity.
Defined.

(** C5 as amended, on the file of two chunks: the second chunk is never
    written, nothing is recorded, and a progress file with a line in it
    still has that line and no other. *)
Lemma cancel_mid_stream_witness :
  let s1 := mkState 0 0 0 ∅ [] []
              [HttpGet (stream_request Test3Py fetch_f "http://h/f"); OpenWb "dest/f";
               Write "dest/f" ["a"%byte]; Emit (progress_signal 1 2);
               Emit canceled_signal] 4 in
  download_loop Test3Py cancel_world fetch_f 1 "http://h/f" "dest/f" (init ∅ [])
  = Ret tt s1
  ∧ completed_files s1 = ∅ ∧ progress_file s1 = []
  ∧ file_on_disk (ledger_path fetch_f) [Line "dest/old.bin"]
      (new_effects (init ∅ []) s1)
    = [Line "dest/old.bin"].
Proof.
  cbv zeta.
  pose proof (cancel_mid_stream_leaves_ledger Test3Py cancel_world fetch_f 0
                "http://h/f" "dest/f" (init ∅ [])
                (mkResponse 200 (CLInt 2) None [] [["a"%byte]; ["b"%byte]] false false) 2
                (mkState 0 0 0 ∅ [] []
                   [HttpGet (stream_request Test3Py fetch_f "http://h/f");
                    OpenWb "dest/f"; Write "dest/f" ["a"%byte];
                    Emit (progress_signal 1 2); Emit canceled_signal] 4)
                eq_refl eq_refl eq_refl eq_refl eq_refl)
    as (H1 & _ & H2 & H3 & _ & H4 & _).
  split; [exact H1|]. split; [exact H2|]. split; [exact H3|].
  exact (H4 [Line "dest/old.bin"]).
Defined.



(** C8 fails on an anchor without [href]: [url + href] raises [TypeError],
    in the count and in the walk, and the run ends on the error report. It
    fails as well on a text the parser rejects. *)
Lemma anchor_without_href_raises :
  (∃ s, count_files named_anchor_world 1 "http://h/" (init ∅ []) = Exc TypeError s)
  ∧ (∃ s, download_directory Test3Py named_anchor_world crawl_h 1 "http://h/" "dest"
            (init ∅ []) = Exc TypeError s)
  ∧ trace (state_of (run Test3Py named_anchor_world crawl_h 3 (init ∅ [])))
    = [HttpGet (listing_request "http://h/");
       Emit (log_signal (MsgErrorOccurred TypeError))]
  ∧ trace (state_of (run Test3Py rejected_world crawl_h 3 (init ∅ [])))
    = [HttpGet (listing_request "http://h/");
       Emit (log_signal (MsgErrorOccurred ParserRejectedMarkup))].
Proof.
  split; [eexists; by vm_compute|]. split; [eexists; by vm_compute|].
  split; reflexivity.
Defined.

Lemma tree_world_anchors : anchors_have_href tree_world.
Proof.
  intros t u r. unfold tree_world, quiet, tree, listing_reply, file_reply,
    status_reply. cbn.
  repeat match goal with
         | |- context [if ?b then _ else _] => destruct b
         end;
    intros [= <-]; cbn; repeat constructor; by eexists.
Qed.

Lemma rejected_world_anchors : anchors_have_href rejected_world.
Proof. intros t u r [= <-]. constructor. Qed.

(** C8 as amended, on the tree of the specification, and on the listing
    the parser rejects. *)
Lemma listing_processing_witness :
  anchors_have_href tree_world
  ∧ (∀ s s', count_files tree_world 3 "http://h/" s ≠ Exc TypeError s')
  ∧ (∀ s s', download_directory Test3Py tree_world crawl_h 3 "http://h/" "dest" s
             ≠ Exc TypeError s')
  ∧ count_files tree_world 3 "http://h/sub/" (init ∅ []) =
      Ret 1 (mkState 0 0 0 ∅ [] [] [HttpGet (listing_request "http://h/sub/")] 1)
  ∧ count_files rejected_world 1 "http://h/" (init ∅ [])
    = Exc ParserRejectedMarkup
        (mkState 0 0 0 ∅ [] [] [HttpGet (listing_request "http://h/")] 1)
  ∧ download_directory Test3Py rejected_world crawl_h 1 "http://h/" "dest" (init ∅ [])
    = Exc ParserRejectedMarkup
        (mkState 0 0 0 ∅ [] [] [HttpGet (listing_request "http://h/")] 2).
Proof.
  destruct (listing_processing_total Test3Py tree_world crawl_h 3 "http://h/" "dest"
              tree_world_anchors) as (_ & H1 & H2 & _).
  destruct (listing_processing_total Test3Py rejected_world crawl_h 0 "http://h/" "dest"
              rejected_world_anchors) as (_ & _ & _ & H4 & H5).
  split; [exact tree_world_anchors|]. split; [exact H1|]. split; [exact H2|].
  split; [reflexivity|]. split.
  - apply (H4 (mkResponse 200 CLAbsent None [] [] false true)); reflexivity.
  - apply (H5 (mkResponse 200 CLAbsent None [] [] false true)); reflexivity.
Defined.

(** C9 fails on the listing fetches: the first request of a run of
    test-3.py has no header at all. *)
Lemma listing_fetch_without_user_agent :
  ∃ r, HttpGet r ∈ trace (state_of (run Test3Py tree_world crawl_h 4 (init ∅ [])))
       ∧ req_headers r = []
       ∧ ("User-Agent"%string, user_agent) ∉ req_headers r.
Proof.
  exists (listing_request "http://h/"). split; [in_list|]. split; [reflexivity|].
  not_in_list.
Defined.

(** C9 as amended, on the stream open of [a.txt]. *)
Lemma stream_open_witness :
  let r := stream_request Test3Py crawl_h "http://h/a.txt" in
  HttpGet r ∈ new_effects (init ∅ [])
                (state_of (run Test3Py tree_world crawl_h 4 (init ∅ [])))
  ∧ ((∃ u, r = stream_request Test3Py crawl_h u
           ∧ req_headers r = [("User-Agent"%string, user_agent)])
     ∨ (∃ u, r = listing_request u ∧ req_headers r = [])).
Proof.
  cbv zeta.
  assert (HttpGet (stream_request Test3Py crawl_h "http://h/a.txt")
            ∈ new_effects (init ∅ [])
                (state_of (run Test3Py tree_world crawl_h 4 (init ∅ [])))) as Hin
    by in_list.
  split; [exact Hin|].
  exact (stream_opens_carry_user_agent tree_world crawl_h 4 (init ∅ []) _ Hin).
Defined.

(** C10 on a root-relative and on an absolute [href]: the request goes to
    the concatenation, not to the target of the [href]. *)
Lemma child_url_witness :
  starts_with [HttpGet (listing_request "http://h/d//pub/")]
    (count_links (count_files tree_world 1) "http://h/d/" [Some "/pub/"%string] 0)
    (init ∅ [])
  ∧ starts_with
      [Emit (log_signal (MsgDownloadingFile "http://o/x" "dest/http://o/x"));
       HttpGet (stream_request Test3Py crawl_h "http://h/d/http://o/x")]
      (crawl_links Test3Py tree_world crawl_h 1
         (download_directory Test3Py tree_world crawl_h 1) "http://h/d/" "dest"
         [Some "http://o/x"%string])
      (init ∅ []).
Proof.
  split.
  - apply (proj1 (proj1 (child_url_is_concatenation Test3Py tree_world crawl_h 0
                           "http://h/d/" "dest" "/pub/" [] (init ∅ []) eq_refl)
                    eq_refl)).
  - apply (proj2 (child_url_is_concatenation Test3Py tree_world crawl_h 0
                    "http://h/d/" "dest" "http://o/x" [] (init ∅ []) eq_refl));
      [reflexivity | reflexivity | by vm_compute].
Defined.

(** * Further properties of the engine, its constructor and its window *)

(** ** The progress file, the completed set and the counter *)

Lemma account_inert : inert account.
Proof. by split. Qed.

Section Booking.

Variable v : Variant.
Variable w : World.
Variable cfg : Config.
Variable P : string → Prop.

Lemma books_same {A} s (r : Res A) : account (state_of r) = account s → books v P s r.
Proof.
  unfold account. intros [= Hp Hc Hd]. exists []. rewrite Hp, Hc, Hd, app_nil_r.
  split_and!; [done | by rewrite list_to_set_nil, (left_id_L ∅ (∪)) | constructor
              | simpl; lia.. ].
Qed.

Lemma booking_keeps {A} (m : M A) : keeps account m → booking v P m.
Proof. intros Hk s. apply books_same, Hk. Qed.

Lemma books_trans {A B} s (a : A) s1 (r : Res B) :
  books v P s (Ret a s1) → books v P s1 r → books v P s r.
Proof.
  intros (a1 & Hp1 & Hc1 & HP1 & Hb1 & He1) (a2 & Hp2 & Hc2 & HP2 & Hb2 & He2).
  cbn [state_of] in *. specialize (He1 (or_intror I)).
  exists (a1 ++ a2). rewrite Hp2, Hp1, Hc2, Hc1, length_app, Nat2Z.inj_add, app_assoc.
  split_and!; [done | | by apply Forall_app | lia..
              | intros H; specialize (He2 H); lia].
  by rewrite list_to_set_app_L, (assoc_L (∪)), (comm_L (∪) (list_to_set a2)).
Qed.

Lemma booking_bind {A B} (m : M A) (k : A → M B) :
  booking v P m → (∀ a, booking v P (k a)) → booking v P (bind m k).
Proof.
  intros Hm Hk s. unfold bind. specialize (Hm s).
  destruct (m s) as [a s1|e s1|s1] eqn:E; [|done..].
  eapply books_trans; [exact Hm | apply Hk].
Qed.

Lemma booking_try_request {A} (m : M A) : booking v P m → booking v P (try_request m).
Proof.
  intros Hm s. unfold try_request. specialize (Hm s).
  by destruct (m s) as [a s1|[] s1|s1].
Qed.

Local Ltac kept :=
  apply booking_keeps;
  first [ apply keeps_ret | apply keeps_raise | apply keeps_out_of_fuel
        | apply keeps_gets | apply keeps_emit | apply keeps_log | apply keeps_effect
        | apply keeps_is_canceled | apply keeps_pause_wait | apply keeps_requests_get
        | apply keeps_retry_pause | apply keeps_iter_content | apply keeps_count_files ];
  apply account_inert.

Lemma booking_finish_file file_path file_size written :
  P file_path → booking v P (finish_file v w cfg file_path file_size written).
Proof.
  intros HP s.
  assert (Hsame : ∀ {A} (r : Res A), account (state_of r) = account s → books v P s r)
    by (intros A r; apply books_same).
  assert (Hone : ∀ {A} (r : Res A),
            account (state_of r)
            = account (record_completed file_path (count_download file_size s)) →
            books v P s r).
  { intros A r. unfold account. unfold_state. intros [= Hp Hc Hd].
    exists [file_path]. rewrite Hp, Hc, Hd.
    split_and!; [done | | by constructor | simpl; lia.. ].
    by rewrite list_to_set_cons, list_to_set_nil, (right_id_L ∅ (∪)). }
  assert (Hhalf : ∀ {A} e, e ≠ RequestException → v = TestPy → ∀ s',
            account s' = account (count_download file_size s) →
            books v P s (@Exc A e s')).
  { intros A e He Hv s'. unfold account. unfold_state. intros [= Hp Hc Hd].
    exists []. cbn [state_of]. rewrite Hp, Hc, Hd, app_nil_r.
    split_and!; [done | by rewrite list_to_set_nil, (left_id_L ∅ (∪)) | constructor
                | simpl; lia.. |].
    intros [?|Hs]; [congruence | by destruct e]. }
  unfold finish_file, file_time_remaining, estimate, log, emit, effect, modify, gets,
    raise, ret, bind.
  destruct v eqn:Ev;
    repeat (cbn -[Z.add Z.sub Z.eqb Z.ltb];
            match goal with
            | |- context [if ?b then _ else _] => destruct b
            end);
    cbn -[Z.add Z.sub Z.eqb Z.ltb];
    first [by apply Hsame | by apply Hhalf | by apply Hone].
Qed.

Lemma booking_attempt url file_path :
  P file_path → booking v P (attempt v w cfg url file_path).
Proof.
  intros HP. unfold attempt.
  apply booking_bind; [kept | intros response].
  match goal with |- context [if ?b then _ else _] => destruct b end.
  { destruct (location response); [|kept].
    apply booking_bind; [kept | intros _; kept]. }
  destruct (status_code response =? 200).
  - apply booking_bind; [destruct (content_length response); kept | intros file_size].
    apply booking_bind; [kept | intros _].
    apply booking_bind; [kept | intros [written|]]; [|kept].
    apply booking_bind; [by apply booking_finish_file | intros _; kept].
  - apply booking_bind; [kept | intros _].
    apply booking_bind; [by apply booking_keeps | intros _; kept].
Qed.

Lemma booking_download_loop fuel url file_path :
  P file_path → booking v P (download_loop v w cfg fuel url file_path).
Proof.
  intros HP. revert url. induction fuel as [|fuel IH]; intros url;
    cbn [download_loop]; [kept|].
  apply booking_bind; [kept | intros c]. destruct c; [kept|].
  apply booking_bind; [by apply booking_try_request, booking_attempt | intros r].
  destruct r as [[| |url']|]; [kept | kept | apply IH |].
  apply booking_bind; [kept | intros _; apply IH].
Qed.

Lemma booking_download_file fuel url dest :
  P (os_path_join dest (last_segment url)) →
  booking v P (download_file v w cfg fuel url dest).
Proof.
  intros HP. unfold download_file.
  apply booking_bind; [kept | intros c]. destruct c; [kept|].
  apply booking_bind; [kept | intros d]. destruct d; [kept|].
  by apply booking_download_loop.
Qed.

Lemma booking_crawl_links fuel walk url dest links :
  (∀ p, P p) →
  (∀ u d, booking v P (walk u d)) →
  booking v P (crawl_links v w cfg fuel walk url dest links).
Proof.
  intros HP Hw. induction links as [|href rest IH]; cbn [crawl_links]; [kept|].
  destruct (is_nav href); [apply IH|].
  destruct href as [h|]; [|kept].
  apply booking_bind; [|intros _; apply IH].
  destruct (endswith_slash h).
  - apply booking_bind; [kept | intros _].
    apply booking_bind; [kept | intros _; apply Hw].
  - apply booking_bind; [kept | intros _]. by apply booking_download_file.
Qed.

Lemma booking_download_directory fuel url dest :
  (∀ p, P p) → booking v P (download_directory v w cfg fuel url dest).
Proof.
  intros HP. revert url dest. induction fuel as [|fuel IH]; intros url dest;
    cbn [download_directory]; [kept|].
  apply booking_bind; [kept | intros c]. destruct c; [kept|].
  apply booking_bind.
  - apply booking_try_request.
    apply booking_bind; [kept | intros response].
    destruct (negb _); [|destruct (unparsable response); [kept|]].
    + apply booking_bind; [kept | intros _; kept].
    + apply booking_bind; [by apply booking_crawl_links | intros _; kept].
  - intros [c|]; [kept|].
    apply booking_bind; [kept | intros _; apply IH].
Qed.

Lemma booking_pipeline fuel : (∀ p, P p) → booking v P (pipeline v w cfg fuel).
Proof.
  intros HP. unfold pipeline.
  match goal with |- context [if ?b then _ else _] => destruct b end.
  { by apply booking_download_file. }
  apply booking_bind; [kept | intros total].
  apply booking_bind; [by apply booking_keeps | intros _].
  apply booking_bind; [kept | intros _]. by apply booking_download_directory.
Qed.

End Booking.

Lemma progress_file_inert : inert progress_file.
Proof. by split. Qed.

Lemma appended_lines_app path es1 es2 :
  appended_lines path (es1 ++ es2) = appended_lines path es1 ++ appended_lines path es2.
Proof. apply flat_map_app. Qed.

(** When no transfer writes to [path], the file at [path] grows by the
    lines that are appended to it. *)
Lemma file_on_disk_appended path es :
  Forall (λ e, transfer_to path e = false) es →
  ∀ content,
    file_on_disk path content es = content ++ map Line (appended_lines path es).
Proof.
  induction 1 as [|e es He _ IH]; intros content.
  { cbn. by rewrite app_nil_r. }
  unfold file_on_disk. cbn [foldl]. fold (file_on_disk path (file_step path content e) es).
  rewrite IH. change (e :: es) with ([e] ++ es).
  rewrite appended_lines_app, map_app, app_assoc. f_equal.
  destruct e as [| | | | |p|p chunk|p line|]; cbn in He |- *;
    rewrite ?app_nil_r; try done.
  - by rewrite He.
  - by rewrite He.
  - destruct (String.eqb p path); cbn; by rewrite ?app_nil_r.
Qed.

Section Journal.

Variable v : Variant.
Variable w : World.
Variable cfg : Config.

Local Abbreviation journals := (journals (ledger_path cfg)).
Local Abbreviation silent := (λ e, appended_lines (ledger_path cfg) [e] = []).

Lemma journals_same {A} (m : M A) :
  (∀ s, trace (state_of (m s)) = trace s) →
  (∀ s, progress_file (state_of (m s)) = progress_file s) →
  journals m.
Proof. intros Ht Hp s. exists []. cbn. by rewrite Ht, Hp, !app_nil_r. Qed.

Lemma journals_silent {A} (m : M A) :
  emits silent m → keeps progress_file m → journals m.
Proof.
  intros He Hk s. destruct (He s) as (new & T & F). exists new.
  split; [done|]. rewrite Hk.
  assert (appended_lines (ledger_path cfg) new = []) as ->; [|by rewrite app_nil_r].
  clear T. induction F as [|e es He' _ IH]; [done|].
  change (e :: es) with ([e] ++ es). by rewrite appended_lines_app, He', IH.
Qed.

Lemma journals_bind {A B} (m : M A) (k : A → M B) :
  journals m → (∀ a, journals (k a)) → journals (bind m k).
Proof.
  intros Hm Hk s. unfold bind. destruct (Hm s) as (new1 & T1 & P1).
  destruct (m s) as [a s1|e s1|s1]; cbn [state_of] in *; [|by exists new1..].
  destruct (Hk a s1) as (new2 & T2 & P2). exists (new1 ++ new2).
  by rewrite T2, T1, P2, P1, appended_lines_app, !app_assoc.
Qed.

Lemma journals_try_request {A} (m : M A) : journals m → journals (try_request m).
Proof.
  intros Hm s. unfold try_request. destruct (Hm s) as (new & T & P).
  exists new. by destruct (m s) as [a s1|[] s1|s1].
Qed.

(** [pf.write(file_path + '\n')] and what follows it. *)
Lemma journals_record file_path (k : M unit) :
  journals k →
  journals (effect (AppendLine (ledger_path cfg) file_path) ;;
            modify (record_completed file_path) ;; k).
Proof.
  intros Hk s. unfold bind, effect, modify.
  destruct (Hk (record_completed file_path
                  (push (AppendLine (ledger_path cfg) file_path) s)))
    as (new & T & P).
  exists ([AppendLine (ledger_path cfg) file_path] ++ new). split.
  - rewrite T. unfold_state. by rewrite <- app_assoc.
  - rewrite P. unfold_state. rewrite appended_lines_app. cbn [appended_lines flat_map].
    by rewrite String.eqb_refl, <- !app_assoc.
Qed.

Local Ltac quiet_step :=
  apply journals_silent;
  [ first [ apply emits_ret | apply emits_raise | apply emits_out_of_fuel
          | apply emits_gets | apply emits_is_canceled
          | apply emits_pause_wait; reflexivity
          | apply emits_log; reflexivity
          | apply emits_emit; reflexivity
          | apply emits_effect; reflexivity
          | apply emits_requests_get; reflexivity
          | apply emits_estimate; reflexivity
          | apply emits_retry_pause; reflexivity
          | apply emits_iter_content_of; intros; reflexivity ]
  | first [ apply keeps_ret | apply keeps_raise | apply keeps_out_of_fuel
          | apply keeps_gets | apply keeps_emit | apply keeps_log | apply keeps_effect
          | apply keeps_is_canceled | apply keeps_pause_wait
          | apply keeps_requests_get | apply keeps_estimate
          | apply keeps_retry_pause | apply keeps_iter_content ];
    apply progress_file_inert ].

Local Tactic Notation "next" "as" ident(x) := apply journals_bind; [|intros x].
Local Tactic Notation "next" := apply journals_bind; [|intros _].

Lemma journals_finish_file file_path file_size written :
  journals (finish_file v w cfg file_path file_size written).
Proof.
  assert (Ht : journals (file_time_remaining w file_size written)).
  { unfold file_time_remaining. destruct (0 <? file_size); [|quiet_step].
    destruct (written =? 0); quiet_step. }
  assert (Hc : journals (modify (count_download file_size)))
    by by apply journals_same.
  unfold finish_file. destruct v.
  - next; [exact Hc|]. next; [exact Ht|]. next as d; [quiet_step|].
    next as t; [quiet_step|]. next; [destruct (_ =? 0); quiet_step|].
    next; [quiet_step|]. apply journals_record. quiet_step.
  - next; [exact Ht|]. next; [exact Hc|]. next as d; [quiet_step|].
    next as t; [quiet_step|]. next; [quiet_step|]. next; [quiet_step|].
    assert (modify (record_completed file_path)
            = (modify (record_completed file_path) ;; ret tt)) as -> by done.
    apply journals_record. quiet_step.
Qed.

Lemma journals_attempt url file_path : journals (attempt v w cfg url file_path).
Proof.
  unfold attempt. next as response; [quiet_step|].
  match goal with |- context [if ?b then _ else _] => destruct b end.
  { destruct (location response); [|quiet_step]. next; quiet_step. }
  destruct (status_code response =? 200).
  - next as file_size; [destruct (content_length response); quiet_step|].
    next; [quiet_step|]. next as e; [quiet_step|].
    destruct e; [|quiet_step]. next; [apply journals_finish_file | quiet_step].
  - next; [quiet_step|]. next; [by apply journals_same | quiet_step].
Qed.

Lemma journals_download_loop fuel url file_path :
  journals (download_loop v w cfg fuel url file_path).
Proof.
  revert url. induction fuel as [|fuel IH]; intros url; cbn [download_loop];
    [quiet_step|].
  next as c; [quiet_step|]. destruct c; [quiet_step|].
  next as r; [apply journals_try_request, journals_attempt|].
  destruct r as [[| |url']|]; [quiet_step | quiet_step | apply IH |].
  next; [quiet_step | apply IH].
Qed.

Lemma journals_download_file fuel url dest :
  journals (download_file v w cfg fuel url dest).
Proof.
  unfold download_file. next as c; [quiet_step|]. destruct c; [quiet_step|].
  next as d; [quiet_step|]. destruct d; [quiet_step | apply journals_download_loop].
Qed.

Lemma journals_count_links count url links total :
  (∀ u, journals (count u)) → journals (count_links count url links total).
Proof.
  intros Hc. revert total.
  induction links as [|href rest IH]; intros total; cbn [count_links]; [quiet_step|].
  destruct (is_nav href); [apply IH|].
  destruct href as [h|]; [|quiet_step].
  destruct (endswith_slash h); [|apply IH].
  next as n; [apply Hc | apply IH].
Qed.

Lemma journals_count_files fuel url : journals (count_files w fuel url).
Proof.
  revert url. induction fuel as [|fuel IH]; intros url; cbn [count_files];
    [quiet_step|].
  next as r; [|destruct r; quiet_step].
  apply journals_try_request. next as response; [quiet_step|].
  destruct (negb _); [quiet_step|]. destruct (unparsable response); [quiet_step|].
  by apply journals_count_links.
Qed.

Lemma journals_crawl_links fuel walk url dest links :
  (∀ u d, journals (walk u d)) →
  journals (crawl_links v w cfg fuel walk url dest links).
Proof.
  intros Hw. induction links as [|href rest IH]; cbn [crawl_links]; [quiet_step|].
  destruct (is_nav href); [apply IH|].
  destruct href as [h|]; [|quiet_step].
  next; [|apply IH].
  destruct (endswith_slash h).
  - next; [quiet_step|]. next; [quiet_step | apply Hw].
  - next; [quiet_step | apply journals_download_file].
Qed.

Lemma journals_download_directory fuel url dest :
  journals (download_directory v w cfg fuel url dest).
Proof.
  revert url dest. induction fuel as [|fuel IH]; intros url dest;
    cbn [download_directory]; [quiet_step|].
  next as c; [quiet_step|]. destruct c; [quiet_step|].
  next as r.
  - apply journals_try_request. next as response; [quiet_step|].
    destruct (negb _); [next; quiet_step|].
    destruct (unparsable response); [quiet_step|].
    next; [by apply journals_crawl_links | quiet_step].
  - destruct r; [quiet_step|]. next; [quiet_step | apply IH].
Qed.

Lemma journals_run fuel : journals (run v w cfg fuel).
Proof.
  assert (Hp : journals (pipeline v w cfg fuel)).
  { unfold pipeline.
    match goal with |- context [if ?b then _ else _] => destruct b end.
    { apply journals_download_file. }
    next as total; [apply journals_count_files|].
    next; [by apply journals_same|]. next; [quiet_step|].
    apply journals_download_directory. }
  intros s. destruct (Hp s) as (new & T & P).
  destruct (run_shape v w cfg fuel s) as (s1 & _ & Hend).
  destruct Hend as [E _ ->|E _ ->|e E ->|E ->]; rewrite E in T, P;
    cbn [state_of] in *.
  - exists new. by unfold_state.
  - exists (new ++ [Emit complete_signal]). unfold_state.
    by rewrite T, P, appended_lines_app, !app_assoc, app_nil_r.
  - exists (new ++ [Emit (log_signal (MsgErrorOccurred e))]). unfold_state.
    by rewrite T, P, appended_lines_app, !app_assoc, app_nil_r.
  - by exists new.
Qed.

End Journal.

(** The books of a run. *)
Lemma run_books v w cfg fuel s :
  let s' := state_of (run v w cfg fuel s) in
  let added := appended_lines (ledger_path cfg) (new_effects s s') in
  progress_file s' = progress_file s ++ added
  ∧ completed_files s' = list_to_set added ∪ completed_files s
  ∧ Z.of_nat (length added) <= downloaded_files s' - downloaded_files s
      <= Z.of_nat (length added) + 1
  ∧ (v = Test3Py →
     downloaded_files s' - downloaded_files s = Z.of_nat (length added))
  ∧ (∀ s1, pipeline v w cfg fuel s = Ret tt s1 →
     downloaded_files s' - downloaded_files s = Z.of_nat (length added)).
Proof.
  intros s' added.
  destruct (journals_run v w cfg fuel s) as (new & T & Hj). fold s' in T, Hj.
  assert (Hn : new_effects s s' = new) by by apply new_effects_app.
  subst added. rewrite Hn.
  assert (Hp : booking v (λ _, True) (pipeline v w cfg fuel))
    by by apply booking_pipeline.
  destruct (Hp s) as (added & Hl & Hc & _ & Hb & He).
  assert (Hs : account s' = account (state_of (pipeline v w cfg fuel s))).
  { subst s'. unfold run, try_exception, bind.
    destruct (pipeline v w cfg fuel s) as [[] s1|e s1|s1]; [|done..].
    unfold is_canceled. by destruct (negb _). }
  unfold account in Hs. injection Hs as Hs1 Hs2 Hs3.
  assert (added = appended_lines (ledger_path cfg) new) as <-.
  { rewrite <- Hs1, Hj in Hl. by apply app_inv_head in Hl. }
  rewrite Hs1, Hs2, Hs3.
  split_and!; [done.. | lia | lia | |].
  - intros ->. apply He. by left.
  - intros s1 E. apply He. rewrite E. by right.
Qed.

(** X1. The progress file is append-only, as long as no transfer writes to
    its path, and the completed set and the counter follow it. Let [added]
    be the lines the effects of a run append to the progress file. The
    completed set grows by these paths, and the counter of downloaded files
    by [length added]: exactly so in test-3.py and whenever the pipeline of
    [run] returns; in test.py the counter can be one ahead, the file that
    was counted before a division or an estimate failed. When none of the
    effects is part of a transfer to the path of the progress file, the file
    holds at the end what it held, followed by the lines [added]: nothing of
    it is rewritten. *)
Theorem ledger_append_only v w cfg fuel s content :
  let s' := state_of (run v w cfg fuel s) in
  let new := new_effects s s' in
  let added := appended_lines (ledger_path cfg) new in
  completed_files s' = list_to_set added ∪ completed_files s
  ∧ progress_file s' = progress_file s ++ added
  ∧ Z.of_nat (length added) <= downloaded_files s' - downloaded_files s
      <= Z.of_nat (length added) + 1
  ∧ (v = Test3Py →
     downloaded_files s' - downloaded_files s = Z.of_nat (length added))
  ∧ (∀ s1, pipeline v w cfg fuel s = Ret tt s1 →
     downloaded_files s' - downloaded_files s = Z.of_nat (length added))
  ∧ (Forall (λ e, transfer_to (ledger_path cfg) e = false) new →
     file_on_disk (ledger_path cfg) content new = content ++ map Line added).
Proof.
  intros s' new added.
  destruct (run_books v w cfg fuel s) as (H1 & H2 & H3 & H4 & H5).
  split; [exact H2|]. split; [exact H1|]. split; [exact H3|].
  split; [exact H4|]. split; [exact H5|].
  intros Hno. by apply file_on_disk_appended.
Qed.

Lemma ledger_append_only_witness :
  let s' := state_of (run Test3Py tree_world crawl_h 4 (init ∅ [])) in
  let new := new_effects (init ∅ []) s' in
  appended_lines (ledger_path crawl_h) new = ["dest/a.txt"; "dest/sub/b.txt"]%string
  ∧ Forall (λ e, transfer_to (ledger_path crawl_h) e = false) new
  ∧ downloaded_files s' = 2
  ∧ file_on_disk (ledger_path crawl_h) [Line "dest/old.bin"] new
    = [Line "dest/old.bin"; Line "dest/a.txt"; Line "dest/sub/b.txt"].
Proof.
  intros s' new.
  assert (Ha : appended_lines (ledger_path crawl_h) new
               = ["dest/a.txt"; "dest/sub/b.txt"]%string) by (vm_compute; reflexivity).
  assert (Hno : Forall (λ e, transfer_to (ledger_path crawl_h) e = false) new).
  { apply Forall_forall. intros e He. apply list_elem_of_In in He.
    vm_compute in He. intuition (subst e; reflexivity). }
  split; [exact Ha|]. split; [exact Hno|]. split; [by vm_compute|].
  destruct (ledger_append_only Test3Py tree_world crawl_h 4 (init ∅ [])
              [Line "dest/old.bin"]) as (_ & _ & _ & _ & _ & Hd).
  fold s' new in Hd. rewrite (Hd Hno), Ha. reflexivity.
Defined.

(** X2. A file is transferred at most once by a thread. When
    [download_file] returns having counted a file, it has appended the path
    to the progress file and added it to the completed set, and every later
    call for a URL with the same last segment and the same folder, after
    whatever walk, does no request: it logs that it skips the file (or
    emits the canceled signal when the flag is set) and returns. *)
Theorem counted_file_is_skipped v w cfg fuel url dest s s1 :
  download_file v w cfg fuel url dest s = Ret tt s1 →
  downloaded_files s1 ≠ downloaded_files s →
  let file_path := os_path_join dest (last_segment url) in
  progress_file s1 = progress_file s ++ [file_path]
  ∧ completed_files s1 = {[file_path]} ∪ completed_files s
  ∧ downloaded_files s1 = downloaded_files s + 1
  ∧ ∀ fuel1 url1 dest1 fuel2 url2,
      let s2 := state_of (download_directory v w cfg fuel1 url1 dest1 s1) in
      last_segment url2 = last_segment url →
      download_file v w cfg fuel2 url2 dest s2 =
        Ret tt (push (Emit (if cancel_set w (clock s2) then canceled_signal
                            else log_signal (MsgSkipping file_path)))
                     (tick s2)).
Proof.
  intros E Hd file_path.
  destruct (booking_download_file v w cfg (eq file_path) fuel url dest eq_refl s)
    as (added & Hl & Hc & HP & _ & He).
  pose proof (download_file_at_most_one v w cfg fuel url dest s) as Hone.
  rewrite E in *. cbn [state_of] in *. specialize (He (or_intror I)).
  destruct added as [|p [|q added]]; cbn [length] in He; [lia | | lia].
  apply Forall_cons in HP as [<- _].
  assert (Hin : completed_files s1 = {[file_path]} ∪ completed_files s).
  { by rewrite Hc, list_to_set_cons, list_to_set_nil, (right_id_L ∅ (∪)). }
  split_and!; [done | done | lia |].
  intros fuel1 url1 dest1 fuel2 url2 Hseg.
  destruct (booking_download_directory v w cfg (λ _, True) fuel1 url1 dest1
              (λ _, I) s1) as (added & _ & Hc2 & _).
  set (s2 := state_of (download_directory v w cfg fuel1 url1 dest1 s1)) in *.
  unfold download_file, bind, is_canceled.
  destruct (cancel_set w (clock s2)); [done|].
  unfold gets. rewrite Hseg. fold file_path. cbn [completed_files tick].
  rewrite bool_decide_true; [done|].
  rewrite Hc2, Hin. by apply elem_of_union_r, elem_of_union_l, elem_of_singleton.
Qed.

Lemma counted_file_is_skipped_witness :
  let s1 := state_of (download_file Test3Py tree_world crawl_h 1 "http://h/a.txt"
                        "dest" (init ∅ [])) in
  progress_file s1 = ["dest/a.txt"%string]
  ∧ download_file Test3Py tree_world crawl_h 0 "http://h/other/a.txt" "dest" s1
    = Ret tt (push (Emit (log_signal (MsgSkipping "dest/a.txt"))) (tick s1)).
Proof.
  intros s1.
  assert (E : download_file Test3Py tree_world crawl_h 1 "http://h/a.txt" "dest"
                (init ∅ []) = Ret tt s1) by reflexivity.
  assert (Hd : downloaded_files s1 ≠ downloaded_files (init ∅ []))
    by (vm_compute; discriminate).
  destruct (counted_file_is_skipped Test3Py tree_world crawl_h 1 "http://h/a.txt"
              "dest" (init ∅ []) s1 E Hd) as (Hl & _ & _ & Hskip).
  split; [exact Hl|].
  exact (Hskip 0%nat "http://h/"%string "dest"%string 0%nat
           "http://h/other/a.txt"%string eq_refl).
Defined.

(** ** The walk after [cancel()], and the footprint of the count *)

Lemma advanced_nil s : advanced [] 0 s = s.
Proof. destruct s. unfold advanced. cbn. by rewrite app_nil_r, Nat.add_0_r. Qed.

Lemma advanced_advanced es1 n1 es2 n2 s :
  advanced es2 n2 (advanced es1 n1 s) = advanced (es1 ++ es2) (n1 + n2) s.
Proof. unfold advanced. cbn. f_equal; [by rewrite app_assoc | lia]. Qed.

(** X3. Once the cancel flag is set the listing loop of
    [download_directory] still visits every remaining entry: for a directory
    it creates the local folder and logs, for a file it logs, and the nested
    call emits the canceled signal at its first check and returns. No
    request is made, no counter and no part of the ledger changes; the
    canceled signal is emitted once for each remaining entry. *)
Theorem canceled_walk_visits_every_entry v w cfg fuel fuel' url dest hrefs s :
  cancel_set w (clock s) = true →
  crawl_links v w cfg fuel (download_directory v w cfg (S fuel')) url dest
    (map Some hrefs) s
  = Ret tt (advanced (flat_map (canceled_entry dest) (entries hrefs))
                     (length (entries hrefs)) s).
Proof.
  revert s. induction hrefs as [|h rest IH]; intros s Hc; cbn [map crawl_links].
  { by rewrite advanced_nil. }
  unfold entries in *. cbn [List.filter].
  destruct (is_nav (Some h)); cbn [negb]; [by apply IH|].
  assert (Hc' : cancel_set w (S (clock s)) = true)
    by (eapply cancel_set_mono; [|exact Hc]; lia).
  cbn [flat_map length]. unfold canceled_entry at 1.
  destruct (endswith_slash h).
  - unfold bind at 1. unfold bind at 1. unfold effect at 1, modify.
    unfold bind at 1. unfold log at 1, emit, modify.
    cbn [download_directory]. unfold bind at 1, is_canceled.
    unfold_state. rewrite Hc. unfold emit, modify.
    rewrite IH by done. unfold advanced. unfold_state.
    do 2 f_equal; [by rewrite <- !app_assoc | lia].
  - unfold bind at 1. unfold bind at 1. unfold log at 1, emit, modify.
    unfold download_file, bind at 1, is_canceled.
    unfold_state. rewrite Hc. unfold emit, modify.
    rewrite IH by done. unfold advanced. unfold_state.
    do 2 f_equal; [by rewrite <- !app_assoc | lia].
Qed.

Lemma canceled_walk_witness :
  crawl_links Test3Py canceled_world crawl_h 1
    (download_directory Test3Py canceled_world crawl_h 1) "http://h/" "dest"
    [Some "../"; Some "a.txt"; Some "sub/"]%string (init ∅ [])
  = Ret tt (mkState 0 0 0 ∅ [] []
              [Emit (log_signal (MsgDownloadingFile "a.txt" "dest/a.txt"));
               Emit canceled_signal;
               Makedirs "dest/sub/";
               Emit (log_signal (MsgEntering "dest/sub/"));
               Emit canceled_signal] 2).
Proof.
  exact (canceled_walk_visits_every_entry Test3Py canceled_world crawl_h 1 0
           "http://h/" "dest" ["../"; "a.txt"; "sub/"]%string (init ∅ []) eq_refl).
Defined.

(** ** The footprint of the count *)

Lemma fetched_nil s : fetched [] s = s.
Proof. apply advanced_nil. Qed.

Lemma fetched_app urls1 urls2 s :
  fetched urls2 (fetched urls1 s) = fetched (urls1 ++ urls2) s.
Proof.
  unfold fetched. by rewrite advanced_advanced, map_app, length_app.
Qed.

Lemma fetches_ret {A} (a : A) : fetches (ret a).
Proof. intros s. exists []. by rewrite fetched_nil. Qed.

Lemma fetches_raise {A} e : fetches (@raise A e).
Proof. intros s. exists []. by rewrite fetched_nil. Qed.

Lemma fetches_out_of_fuel {A} : fetches (@out_of_fuel A).
Proof. intros s. exists []. by rewrite fetched_nil. Qed.

Lemma fetches_bind {A B} (m : M A) (k : A → M B) :
  fetches m → (∀ a, fetches (k a)) → fetches (bind m k).
Proof.
  intros Hm Hk s. unfold bind. destruct (Hm s) as [urls1 E1].
  destruct (m s) as [a s1|e s1|s1]; cbn [state_of] in *; [|by exists urls1..].
  destruct (Hk a s1) as [urls2 E2]. exists (urls1 ++ urls2).
  by rewrite E2, E1, fetched_app.
Qed.

Lemma fetches_try_request {A} (m : M A) : fetches m → fetches (try_request m).
Proof.
  intros Hm s. unfold try_request. destruct (Hm s) as [urls E]. exists urls.
  by destruct (m s) as [a s1|[] s1|s1].
Qed.

Lemma fetches_listing_get w url : fetches (requests_get w (listing_request url)).
Proof.
  intros s. exists [url]. unfold requests_get.
  assert (tick (push (HttpGet (listing_request url)) s) = fetched [url] s).
  { unfold fetched, advanced. unfold_state. cbn [map length]. f_equal. lia. }
  by destruct (http w (clock s) _).
Qed.

Lemma fetches_count_links count url links total :
  (∀ u, fetches (count u)) → fetches (count_links count url links total).
Proof.
  intros Hc. revert total.
  induction links as [|href rest IH]; intros total; cbn [count_links];
    [apply fetches_ret|].
  destruct (is_nav href); [apply IH|].
  destruct href as [h|]; [|apply fetches_raise].
  destruct (endswith_slash h); [|apply IH].
  apply fetches_bind; [apply Hc | intros n; apply IH].
Qed.

Lemma fetches_count_files w fuel url : fetches (count_files w fuel url).
Proof.
  revert url. induction fuel as [|fuel IH]; intros url; cbn [count_files];
    [apply fetches_out_of_fuel|].
  apply fetches_bind; [|intros [total|]; apply fetches_ret].
  apply fetches_try_request.
  apply fetches_bind; [apply fetches_listing_get | intros response].
  destruct (negb _); [apply fetches_ret|].
  destruct (unparsable response); [apply fetches_raise|].
  by apply fetches_count_links.
Qed.

Lemma count_links_ext count count' url links total s :
  (∀ u s0, count u s0 = count' u s0) →
  count_links count url links total s = count_links count' url links total s.
Proof.
  intros Hc. revert total s.
  induction links as [|href rest IH]; intros total s; cbn [count_links]; [done|].
  destruct (is_nav href); [apply IH|].
  destruct href as [h|]; [|done].
  destruct (endswith_slash h); [|apply IH].
  unfold bind. rewrite Hc. destruct (count' (url +:+ h) s); [apply IH | done..].
Qed.

(** X4. [count_files] only fetches listings: whatever way it ends, the
    state differs from the one it started in by [HttpGet] effects of the
    listing form and by the clock, which has advanced by their number. It
    looks at neither flag: two worlds that answer requests alike give the
    same count, whatever [cancel()] and [pause()] do in them. *)
Theorem count_files_footprint w w' fuel url s :
  (∃ urls, state_of (count_files w fuel url s) = fetched urls s)
  ∧ ((∀ t r, http w' t r = http w t r) →
     count_files w' fuel url s = count_files w fuel url s).
Proof.
  split; [apply fetches_count_files|].
  intros Hw. revert url s. induction fuel as [|fuel IH]; intros url s; [done|].
  cbn [count_files]. unfold bind, try_request, requests_get. rewrite Hw.
  destruct (http w (clock s) (listing_request url)) as [|response]; [done|].
  destruct (negb _); [done|]. destruct (unparsable response); [done|].
  by rewrite (count_links_ext (count_files w' fuel) (count_files w fuel)).
Qed.

Lemma count_files_footprint_witness :
  count_files canceled_world 2 "http://h/" (init ∅ [])
  = count_files tree_world 2 "http://h/" (init ∅ []).
Proof.
  exact (proj2 (count_files_footprint tree_world canceled_world 2 "http://h/"
                  (init ∅ [])) (λ _ _, eq_refl)).
Defined.

(** X5. A run in directory mode whose cancel flag is set from the beginning
    still counts the whole tree: it makes every request of [count_files],
    stores and emits the count, and only then emits the canceled signal, once,
    at the first check of [download_directory]; no completion signal. *)
Theorem cancel_before_start_still_counts v w cfg fuel s total s1 :
  directory_mode v cfg →
  cancel_set w (clock s) = true →
  count_files w (S fuel) (base_url cfg) s = Ret total s1 →
  run v w cfg (S fuel) s =
    Ret tt (tick (push (Emit canceled_signal)
                    (tick (push (Emit (file_count_signal total))
                             (set_total_files total s1))))).
Proof.
  intros Hm Hc E.
  assert (Hc1 : cancel_set w (clock s1) = true).
  { destruct (steps_count_files v w cfg (S fuel) (base_url cfg) s) as [? _ _ _ Hk _ _].
    rewrite E in Hk. eapply cancel_set_mono; [exact Hk | exact Hc]. }
  assert (Hc2 : cancel_set w (S (clock s1)) = true)
    by (eapply cancel_set_mono; [|exact Hc1]; lia).
  assert (Ep : pipeline v w cfg (S fuel) s =
               Ret tt (push (Emit canceled_signal)
                         (tick (push (Emit (file_count_signal total))
                                  (set_total_files total s1))))).
  { unfold pipeline.
    replace (match v with TestPy => false | Test3Py => is_single_file cfg end)
      with false by (by destruct v; [|rewrite Hm]).
    unfold bind. rewrite E. unfold modify at 1. unfold emit at 1, modify.
    cbn [download_directory]. unfold bind, is_canceled. unfold_state.
    by rewrite Hc1. }
  unfold run, try_exception, bind. rewrite Ep. unfold is_canceled. unfold_state.
  by rewrite Hc2.
Qed.

Lemma cancel_before_start_witness :
  run Test3Py canceled_world crawl_h 2 (init ∅ [])
  = Ret tt (mkState 2 0 0 ∅ [] []
              [HttpGet (listing_request "http://h/");
               HttpGet (listing_request "http://h/sub/");
               Emit (file_count_signal 2); Emit canceled_signal] 4).
Proof.
  exact (cancel_before_start_still_counts Test3Py canceled_world crawl_h 1
           (init ∅ []) 2 _ eq_refl eq_refl eq_refl).
Defined.

(** ** A stream that is read to its end *)

Lemma file_writes_polls n : file_writes (replicate n PausePoll) = [].
Proof. by induction n. Qed.

Lemma iter_content_finished w file_path file_size cs written s :
  file_size ≠ 0 ∨ body_length cs = 0 →
  (∀ t, (t < clock s + 2 * length cs)%nat → cancel_set w t = false) →
  ∃ es,
    iter_content w file_path file_size cs false written s
    = Ret (Finished (written + body_length cs)) (advanced es (2 * length cs) s)
    ∧ file_writes es = map (pair file_path) (List.filter nonempty cs)
    ∧ Forall (chunk_effect file_path file_size) es.
Proof.
  revert written s. induction cs as [|chunk rest IH]; intros written s Hsize Hc.
  { exists []. cbn. by rewrite advanced_nil, Z.add_0_r. }
  assert (Hlen : 0 <= body_length rest).
  { clear. unfold body_length. induction rest as [|c rest IH]; cbn [foldr]; lia. }
  cbn [body_length foldr] in Hsize. fold (body_length rest) in Hsize.
  set (written' := written + Z.of_nat (length chunk)).
  set (s1 := match chunk with
             | [] => s
             | _ => push (Emit (progress_signal written' file_size))
                      (push (Write file_path chunk) s)
             end).
  assert (E1 : (match chunk with
                | [] => ret written
                | _ :: _ =>
                    effect (Write file_path chunk) ;;
                    (if file_size =? 0 then raise ZeroDivisionError
                     else emit (progress_signal written' file_size)) ;;
                    ret written'
                end) s = Ret written' s1).
  { subst s1 written'. destruct chunk as [|b chunk]; [cbn; by rewrite Z.add_0_r|].
    unfold bind, effect, modify.
    assert ((file_size =? 0) = false) as ->.
    { apply Z.eqb_neq. destruct Hsize as [|Hz]; [done|]. cbn [length] in Hz. lia. }
    done. }
  set (s2 := tick (tick (push_all (replicate (pause_polls w (clock s1)) PausePoll) s1))).
  assert (Hk1 : clock s1 = clock s) by (subst s1; by destruct chunk).
  destruct (IH written' s2) as (es & E & Hw & Hes).
  { destruct Hsize as [|Hz]; [by left | right; lia]. }
  { intros t Ht. apply Hc. subst s2. unfold_state. rewrite Hk1 in Ht.
    cbn [length]. lia. }
  exists (match chunk with
          | [] => []
          | _ => [Write file_path chunk; Emit (progress_signal written' file_size)]
          end ++ replicate (pause_polls w (clock s1)) PausePoll ++ es).
  split_and!.
  - cbn [iter_content]. fold written'. unfold bind at 1. rewrite E1.
    unfold bind at 1. unfold pause_wait. unfold bind at 1. unfold is_canceled.
    unfold_state. rewrite Hc by (rewrite Hk1; cbn [length]; lia).
    fold (tick (push_all (replicate (pause_polls w (clock s1)) PausePoll) s1)).
    fold (tick (tick (push_all (replicate (pause_polls w (clock s1)) PausePoll) s1))).
    fold s2. rewrite E. f_equal.
    + f_equal. subst written'. cbn [body_length foldr]. fold (body_length rest). lia.
    + subst s2 s1. unfold advanced. unfold_state.
      destruct chunk; unfold_state; f_equal; rewrite <- ?app_assoc; try done;
        cbn [length]; lia.
  - rewrite !file_writes_app, file_writes_polls, Hw.
    by destruct chunk.
  - apply Forall_app. split; [by destruct chunk; repeat constructor|].
    apply Forall_app. split; [|done].
    by apply Forall_replicate.
Qed.

Lemma download_loop_finishes v w cfg fuel url file_path s r size written s1 :
  cancel_set w (clock s) = false →
  http w (S (clock s)) (stream_request v cfg url) = Replied r →
  status_code r = 200 →
  declared_size r = Some size →
  iter_content w file_path size (chunks r) (broken r) 0
    (stream_opened v cfg url file_path s) = Ret (Finished written) s1 →
  download_loop v w cfg (S fuel) url file_path s
  = finish_file v w cfg file_path size written s1.
Proof.
  intros Hc Hr H200 Hsize E.
  cbn [download_loop]. unfold bind at 1. unfold is_canceled. rewrite Hc.
  assert (Ea : attempt v w cfg url file_path (tick s)
               = (finish_file v w cfg file_path size written ;; ret Break) s1).
  { unfold attempt. unfold bind at 1. unfold requests_get. cbn [clock tick].
    rewrite Hr.
    replace (match v with TestPy => false | Test3Py => status_code r =? 302 end)
      with false by (by destruct v; [|rewrite H200]).
    rewrite H200. cbn [Z.eqb Pos.eqb].
    unfold declared_size in Hsize. unfold bind at 1.
    destruct (content_length r); simplify_eq.
    - unfold ret at 1. unfold bind at 1. unfold effect, modify.
      unfold bind at 1. fold (stream_opened v cfg url file_path s). by rewrite E.
    - unfold ret at 1. unfold bind at 1. unfold effect, modify.
      unfold bind at 1. fold (stream_opened v cfg url file_path s). by rewrite E. }
  pose proof (finish_file_downloaded v w cfg file_path size written s1) as [_ Hne].
  unfold bind, try_request. rewrite Ea. unfold bind.
  destruct (finish_file v w cfg file_path size written s1) as [[] s2|e s2|s2];
    [done | | done].
  destruct e; [by destruct (Hne s2) | done..].
Qed.

Lemma download_loop_streams v w cfg fuel url file_path s r size :
  cancel_set w (clock s + 2 * length (chunks r) + 1) = false →
  http w (S (clock s)) (stream_request v cfg url) = Replied r →
  status_code r = 200 →
  declared_size r = Some size →
  broken r = false →
  size ≠ 0 ∨ body_length (chunks r) = 0 →
  ∃ es,
    file_writes es = map (pair file_path) (List.filter nonempty (chunks r))
    ∧ Forall (chunk_effect file_path size) es
    ∧ download_loop v w cfg (S fuel) url file_path s
      = finish_file v w cfg file_path size (body_length (chunks r))
          (streamed v cfg url file_path es (length (chunks r)) s).
Proof.
  intros Hc Hr H200 Hsize Hb Hz.
  assert (Hc' : ∀ t, (t <= clock s + 2 * length (chunks r) + 1)%nat →
                     cancel_set w t = false).
  { intros t Ht. eapply cancel_set_false_mono; [exact Ht | exact Hc]. }
  destruct (iter_content_finished w file_path size (chunks r) 0
              (stream_opened v cfg url file_path s) Hz)
    as (es & E & Hw & Hes).
  { intros t Ht. apply Hc'. unfold stream_opened in Ht. unfold_state. lia. }
  exists es. split; [done|]. split; [done|].
  assert (Es : advanced es (2 * length (chunks r)) (stream_opened v cfg url file_path s)
               = streamed v cfg url file_path es (length (chunks r)) s).
  { unfold streamed, advanced, stream_opened. unfold_state. f_equal.
    - by rewrite <- !app_assoc.
    - lia. }
  rewrite Es, Z.add_0_l, <- Hb in E.
  assert (Hc0 : cancel_set w (clock s) = false) by (apply Hc'; lia).
  apply (download_loop_finishes v w cfg fuel url file_path s r size _ _
           Hc0 Hr H200 Hsize E).
Qed.

(** An estimate that is in range is emitted. *)
Lemma estimate_in_range w factor overall s :
  (factor ≠ 0 → estimate_overflows w (clock s) overall = false) →
  estimate w factor overall s = Ret tt (push (Emit (time_remaining_signal overall)) s).
Proof.
  intros H. unfold estimate. destruct (factor =? 0) eqn:E; [done|].
  apply Z.eqb_neq in E. by rewrite (H E).
Qed.

Lemma estimate_out_of_range w factor overall s :
  factor ≠ 0 → estimate_overflows w (clock s) overall = true →
  estimate w factor overall s = Exc OverflowError s.
Proof.
  intros Hf H. unfold estimate. apply Z.eqb_neq in Hf. by rewrite Hf, H.
Qed.

(** What follows the chunk loop, when no division fails and the estimates
    are in range. *)
Lemma finish_file_completes v w cfg file_path size written s :
  (0 < size → written ≠ 0) →
  (v = TestPy → total_files s ≠ 0) →
  (0 < size → written ≠ size → estimate_overflows w (clock s) false = false) →
  (v = TestPy → total_files s ≠ downloaded_files s + 1 →
   estimate_overflows w (clock s) true = false) →
  finish_file v w cfg file_path size written s
  = Ret tt (after_transfer v cfg file_path size s).
Proof.
  intros Hw Ht Hfit Hall.
  unfold finish_file, file_time_remaining, after_transfer, finish_effects, log, emit,
    effect, modify, gets, raise, ret, bind.
  destruct v.
  - specialize (Ht eq_refl). specialize (Hall eq_refl).
    apply Z.eqb_neq in Ht.
    destruct (0 <? size) eqn:E0.
    + apply Z.ltb_lt in E0. specialize (Hw E0). specialize (Hfit E0).
      apply Z.eqb_neq in Hw. rewrite Hw.
      rewrite estimate_in_range by (unfold_state; intros ?; apply Hfit; lia).
      unfold_state. rewrite Ht.
      rewrite estimate_in_range by (unfold_state; intros ?; apply Hall; lia).
      unfold_state. do 2 f_equal. by rewrite <- !app_assoc.
    + unfold_state. rewrite Ht.
      rewrite estimate_in_range by (unfold_state; intros ?; apply Hall; lia).
      unfold_state. do 2 f_equal. by rewrite <- !app_assoc.
  - destruct (0 <? size) eqn:E0.
    + apply Z.ltb_lt in E0. specialize (Hw E0). specialize (Hfit E0).
      apply Z.eqb_neq in Hw. rewrite Hw.
      rewrite estimate_in_range by (intros ?; apply Hfit; lia).
      unfold_state. do 2 f_equal. by rewrite <- !app_assoc.
    + unfold_state. do 2 f_equal. by rewrite <- !app_assoc.
Qed.

Lemma download_loop_completes v w cfg fuel url file_path s r size :
  let t_end := (clock s + (2 + 2 * length (chunks r)))%nat in
  cancel_set w (clock s + 2 * length (chunks r) + 1) = false →
  http w (S (clock s)) (stream_request v cfg url) = Replied r →
  status_code r = 200 →
  declared_size r = Some size →
  broken r = false →
  (size = 0 → body_length (chunks r) = 0) →
  (0 < size → 0 < body_length (chunks r)) →
  (v = TestPy → total_files s ≠ 0) →
  (0 < size → body_length (chunks r) ≠ size →
   estimate_overflows w t_end false = false) →
  (v = TestPy → total_files s ≠ downloaded_files s + 1 →
   estimate_overflows w t_end true = false) →
  ∃ es,
    download_loop v w cfg (S fuel) url file_path s
    = Ret tt (mkState (total_files s) (downloaded_files s + 1) (total_size s + size)
                ({[file_path]} ∪ completed_files s) (pending_files s)
                (progress_file s ++ [file_path])
                (trace s
                 ++ [HttpGet (stream_request v cfg url); OpenWb file_path]
                 ++ es
                 ++ finish_effects v cfg file_path size (downloaded_files s + 1)
                      (total_files s))
                t_end)
    ∧ file_writes es = map (pair file_path) (List.filter nonempty (chunks r))
    ∧ Forall (chunk_effect file_path size) es.
Proof.
  intros t_end Hc Hr H200 Hsize Hb Hz Hpos Ht Hfit Hall.
  destruct (download_loop_streams v w cfg fuel url file_path s r size)
    as (es & Hw & Hes & E); try done.
  { destruct (decide (size = 0)); [right; auto | by left]. }
  exists es. split; [|done]. rewrite E. clear E.
  rewrite finish_file_completes; [| |done..].
  - unfold after_transfer, streamed, advanced. unfold_state. do 2 f_equal.
    by rewrite <- !app_assoc.
  - intros H0 H1. specialize (Hpos H0). lia.
Qed.

(** X6. The transfer of a file that is answered 200 and streamed to its end
    (no cancel, no exception of the stream), when no division fails and the
    time estimates are in the range of a [timedelta]: the declared size is
    positive and the body not empty, or both are zero, or the size is
    negative; in test.py [total_files] is not 0; the estimate for the file is
    in range, which it is when the body has the declared size, and so is, in
    test.py, the estimate for the run, which it is when the file is the last
    one counted. One request, the file opened once, the non-empty chunks
    written in their order, the counter incremented, [total_size] increased
    by the declared size, the path appended to the progress file and added
    to the completed set, the closing signals emitted. The number of bytes
    received plays no other part: a body shorter than the declared size is
    recorded as completed. *)
Theorem transfer_completes v w cfg fuel url file_path s r size :
  let t_end := (clock s + (2 + 2 * length (chunks r)))%nat in
  cancel_set w (clock s + 2 * length (chunks r) + 1) = false →
  http w (S (clock s)) (stream_request v cfg url) = Replied r →
  status_code r = 200 →
  declared_size r = Some size →
  broken r = false →
  (size = 0 → body_length (chunks r) = 0) →
  (0 < size → 0 < body_length (chunks r)) →
  (v = TestPy → total_files s ≠ 0) →
  (0 < size → body_length (chunks r) ≠ size →
   estimate_overflows w t_end false = false) →
  (v = TestPy → total_files s ≠ downloaded_files s + 1 →
   estimate_overflows w t_end true = false) →
  ∃ es,
    download_loop v w cfg (S fuel) url file_path s
    = Ret tt (mkState (total_files s) (downloaded_files s + 1) (total_size s + size)
                ({[file_path]} ∪ completed_files s) (pending_files s)
                (progress_file s ++ [file_path])
                (trace s
                 ++ [HttpGet (stream_request v cfg url); OpenWb file_path]
                 ++ es
                 ++ finish_effects v cfg file_path size (downloaded_files s + 1)
                      (total_files s))
                t_end)
    ∧ file_writes es = map (pair file_path) (List.filter nonempty (chunks r))
    ∧ Forall (chunk_effect file_path size) es.
Proof. apply download_loop_completes. Qed.

Lemma transfer_completes_witness :
  ∃ es,
    download_loop Test3Py tree_world crawl_h 1 "http://h/a.txt" "dest/a.txt" (init ∅ [])
    = Ret tt (mkState 0 1 3 ({["dest/a.txt"%string]} ∪ ∅) [] ["dest/a.txt"%string]
                ([] ++ [HttpGet (stream_request Test3Py crawl_h "http://h/a.txt");
                        OpenWb "dest/a.txt"]
                 ++ es ++ finish_effects Test3Py crawl_h "dest/a.txt" 3 1 0)
                6)
    ∧ file_writes es = [("dest/a.txt"%string, ["a"; "b"]%byte);
                        ("dest/a.txt"%string, ["c"]%byte)]
    ∧ Forall (chunk_effect "dest/a.txt" 3) es.
Proof.
  apply (transfer_completes Test3Py tree_world crawl_h 0 "http://h/a.txt" "dest/a.txt"
           (init ∅ [])
           (mkResponse 200 (CLInt 3) None [] [["a"; "b"]%byte; ["c"]%byte] false false) 3);
    try reflexivity; discriminate.
Defined.

(** X7. A 200 answer that declares a positive size and has an empty body
    raises [ZeroDivisionError] in the estimate for the current file (the
    division by [os.path.getsize]). Nothing is recorded in the ledger; the
    empty file has been created. In test.py the counter and [total_size]
    have been incremented before, in test-3.py they have not. *)
Theorem empty_body_division_fault v w cfg fuel url file_path s r size :
  cancel_set w (clock s) = false →
  http w (S (clock s)) (stream_request v cfg url) = Replied r →
  status_code r = 200 →
  declared_size r = Some size →
  chunks r = [] →
  broken r = false →
  0 < size →
  let counted := match v with TestPy => 1 | Test3Py => 0 end in
  download_loop v w cfg (S fuel) url file_path s
  = Exc ZeroDivisionError
      (mkState (total_files s) (downloaded_files s + counted)
         (total_size s + counted * size)
         (completed_files s) (pending_files s) (progress_file s)
         (trace s ++ [HttpGet (stream_request v cfg url); OpenWb file_path])
         (S (S (clock s)))).
Proof.
  intros Hc Hr H200 Hsize Hcs Hb Hpos counted.
  rewrite (download_loop_finishes v w cfg fuel url file_path s r size 0
             (stream_opened v cfg url file_path s)); try done.
  - unfold finish_file, file_time_remaining, modify, raise, bind.
    apply Z.ltb_lt in Hpos. subst counted.
    destruct v; rewrite Hpos; cbn [Z.eqb]; unfold stream_opened; unfold_state;
      f_equal; f_equal; rewrite <- ?app_assoc; try done; lia.
  - by rewrite Hcs, Hb.
Qed.

Lemma empty_body_division_fault_witness :
  download_loop TestPy hollow_world crawl_h 1 "http://h/f" "dest/f" (init ∅ [])
  = Exc ZeroDivisionError
      (mkState 0 1 5 ∅ [] []
         [HttpGet (stream_request TestPy crawl_h "http://h/f"); OpenWb "dest/f"] 2).
Proof.
  apply (empty_body_division_fault TestPy hollow_world crawl_h 0 "http://h/f" "dest/f"
           (init ∅ []) (mkResponse 200 (CLInt 5) None [] [] false false) 5);
    reflexivity.
Defined.

(** X8. A file that completes while [total_files] is 0 (the count failed or
    found nothing; in test-3.py also the single-file mode), the estimate for
    the file being in the range of a [timedelta]. test.py divides by
    [total_files]: [ZeroDivisionError] after the file was written in full
    and counted, before it is recorded, so the ledger does not have it.
    test-3.py reports 100 and records the file. *)
Theorem uncounted_file_division_fault v w cfg fuel url file_path s r size :
  let t_end := (clock s + (2 + 2 * length (chunks r)))%nat in
  cancel_set w (clock s + 2 * length (chunks r) + 1) = false →
  http w (S (clock s)) (stream_request v cfg url) = Replied r →
  status_code r = 200 →
  declared_size r = Some size →
  broken r = false →
  0 < size →
  0 < body_length (chunks r) →
  total_files s = 0 →
  (body_length (chunks r) ≠ size → estimate_overflows w t_end false = false) →
  ∃ es,
    file_writes es = map (pair file_path) (List.filter nonempty (chunks r))
    ∧ Forall (chunk_effect file_path size) es
    ∧ download_loop v w cfg (S fuel) url file_path s
      = match v with
        | TestPy =>
            Exc ZeroDivisionError
              (mkState 0 (downloaded_files s + 1) (total_size s + size)
                 (completed_files s) (pending_files s) (progress_file s)
                 (trace s
                  ++ [HttpGet (stream_request v cfg url); OpenWb file_path]
                  ++ es ++ [Emit (time_remaining_signal false)])
                 t_end)
        | Test3Py =>
            Ret tt
              (mkState 0 (downloaded_files s + 1) (total_size s + size)
                 ({[file_path]} ∪ completed_files s) (pending_files s)
                 (progress_file s ++ [file_path])
                 (trace s
                  ++ [HttpGet (stream_request v cfg url); OpenWb file_path]
                  ++ es
                  ++ [Emit (time_remaining_signal false);
                      Emit (overall_progress_signal (Fixed 100));
                      Emit (log_signal (MsgDownloaded file_path size));
                      AppendLine (ledger_path cfg) file_path])
                 t_end)
        end.
Proof.
  intros t_end Hc Hr H200 Hsize Hb Hpos Hbody Ht Hfit.
  destruct (download_loop_streams v w cfg fuel url file_path s r size)
    as (es & Hw & Hes & E); try done.
  { left. lia. }
  exists es. split; [done|]. split; [done|]. rewrite E. clear E.
  destruct v.
  - unfold finish_file, file_time_remaining, log, emit, modify, gets,
      raise, ret, bind, streamed, advanced.
    apply Z.ltb_lt in Hpos. rewrite Hpos.
    destruct (body_length (chunks r) =? 0) eqn:E1; [apply Z.eqb_eq in E1; lia|].
    rewrite estimate_in_range by (unfold_state; intros ?; apply Hfit; lia).
    unfold_state. rewrite Ht. cbn [Z.eqb].
    do 2 f_equal. by rewrite <- !app_assoc.
  - rewrite finish_file_completes.
    + unfold after_transfer, finish_effects, streamed, advanced. unfold_state.
      apply Z.ltb_lt in Hpos. rewrite Hpos, Ht. cbn [Z.ltb Z.compare].
      do 2 f_equal. by rewrite <- !app_assoc.
    + lia.
    + done.
    + intros _ Hne. by apply Hfit.
    + done.
Qed.

Lemma uncounted_file_witness :
  ∃ es,
    file_writes es = [("dest/f"%string, ["a"%byte])]
    ∧ Forall (chunk_effect "dest/f" 1) es
    ∧ download_loop TestPy flaky_world crawl_h 1 "http://h/f" "dest/f" (init ∅ [])
      = Exc ZeroDivisionError
          (mkState 0 (0 + 1) (0 + 1) ∅ [] []
             ([] ++ [HttpGet (stream_request TestPy crawl_h "http://h/f");
                     OpenWb "dest/f"]
              ++ es ++ [Emit (time_remaining_signal false)])
             4).
Proof.
  apply (uncounted_file_division_fault TestPy flaky_world crawl_h 0 "http://h/f"
           "dest/f" (init ∅ []) (mkResponse 200 (CLInt 1) None [] [["a"%byte]] false false) 1);
    reflexivity.
Defined.

(** X21. A transfer that ends with an estimate out of range. When the
    stream is read to its end, the declared size is positive and differs
    from the number of bytes received, and the estimate for the file is
    beyond what a [timedelta] holds (a short body against a large declared
    size), [OverflowError] leaves [download_file]: the file has been
    written, and nothing records it. test.py has counted it before,
    test-3.py has not. *)
Theorem estimate_overflow_fault v w cfg fuel url file_path s r size :
  let t_end := (clock s + (2 + 2 * length (chunks r)))%nat in
  cancel_set w (clock s + 2 * length (chunks r) + 1) = false →
  http w (S (clock s)) (stream_request v cfg url) = Replied r →
  status_code r = 200 →
  declared_size r = Some size →
  broken r = false →
  0 < size →
  0 < body_length (chunks r) →
  body_length (chunks r) ≠ size →
  estimate_overflows w t_end false = true →
  let counted := match v with TestPy => 1 | Test3Py => 0 end in
  ∃ es,
    file_writes es = map (pair file_path) (List.filter nonempty (chunks r))
    ∧ Forall (chunk_effect file_path size) es
    ∧ download_loop v w cfg (S fuel) url file_path s
      = Exc OverflowError
          (mkState (total_files s) (downloaded_files s + counted)
             (total_size s + counted * size)
             (completed_files s) (pending_files s) (progress_file s)
             (trace s ++ [HttpGet (stream_request v cfg url); OpenWb file_path] ++ es)
             t_end).
Proof.
  intros t_end Hc Hr H200 Hsize Hb Hpos Hbody Hne Hover counted.
  destruct (download_loop_streams v w cfg fuel url file_path s r size)
    as (es & Hw & Hes & E); try done.
  { left. lia. }
  exists es. split; [done|]. split; [done|]. rewrite E. clear E.
  unfold finish_file, file_time_remaining, modify, raise, bind, streamed, advanced.
  apply Z.ltb_lt in Hpos. rewrite Hpos.
  destruct (body_length (chunks r) =? 0) eqn:E1; [apply Z.eqb_eq in E1; lia|].
  subst counted. destruct v.
  - rewrite estimate_out_of_range by (unfold_state; first [lia | done]).
    unfold_state. do 2 f_equal; lia.
  - rewrite estimate_out_of_range by (unfold_state; first [lia | done]).
    do 2 f_equal; lia.
Qed.

Lemma estimate_overflow_witness :
  ∃ es,
    file_writes es = [("dest/f"%string, ["a"%byte])]
    ∧ Forall (chunk_effect "dest/f" 10000000000000) es
    ∧ download_loop Test3Py short_body_world fetch_f 1 "http://h/f" "dest/f" (init ∅ [])
      = Exc OverflowError
          (mkState 0 (0 + 0) (0 + 0 * 10000000000000) ∅ [] []
             ([] ++ [HttpGet (stream_request Test3Py fetch_f "http://h/f");
                     OpenWb "dest/f"] ++ es)
             4).
Proof.
  apply (estimate_overflow_fault Test3Py short_body_world fetch_f 0 "http://h/f"
           "dest/f" (init ∅ [])
           (mkResponse 200 (CLInt 10000000000000) None [] [["a"%byte]] false false)
           10000000000000);
    try reflexivity; discriminate.
Defined.

Lemma file_on_disk_chunks path size es :
  Forall (chunk_effect path size) es →
  ∀ content,
    file_on_disk path content es = content ++ map Bytes (map snd (file_writes es)).
Proof.
  intros H. apply file_on_disk_written. eapply Forall_impl; [exact H|].
  by intros [[]| | | | | | | |].
Qed.

(** X22. A file that has the path of the progress file overwrites it. In
    the folder of the thread a file named [download_progress.txt] is
    written to the path of the progress file. When its transfer completes
    (the hypotheses are those of X6), the file holds, whatever it held
    before, the body of the transfer followed by one line, its own path:
    the lines that recorded earlier files are gone, while the completed set
    still has their paths. *)
Theorem transfer_overwrites_progress_file v w cfg fuel url s r size content :
  let t_end := (clock s + (2 + 2 * length (chunks r)))%nat in
  let s' := state_of (download_loop v w cfg (S fuel) url (ledger_path cfg) s) in
  cancel_set w (clock s + 2 * length (chunks r) + 1) = false →
  http w (S (clock s)) (stream_request v cfg url) = Replied r →
  status_code r = 200 →
  declared_size r = Some size →
  broken r = false →
  (size = 0 → body_length (chunks r) = 0) →
  (0 < size → 0 < body_length (chunks r)) →
  (v = TestPy → total_files s ≠ 0) →
  (0 < size → body_length (chunks r) ≠ size →
   estimate_overflows w t_end false = false) →
  (v = TestPy → total_files s ≠ downloaded_files s + 1 →
   estimate_overflows w t_end true = false) →
  (last_segment url = "download_progress.txt"%string →
   os_path_join (dest_folder cfg) (last_segment url) = ledger_path cfg)
  ∧ file_on_disk (ledger_path cfg) content (new_effects s s')
    = map Bytes (List.filter nonempty (chunks r)) ++ [Line (ledger_path cfg)]
  ∧ completed_files s' = {[ledger_path cfg]} ∪ completed_files s.
Proof.
  intros t_end s' Hc Hr H200 Hsize Hb Hz Hpos Ht Hfit Hall.
  split; [by intros ->|].
  destruct (download_loop_completes v w cfg fuel url (ledger_path cfg) s r size
              Hc Hr H200 Hsize Hb Hz Hpos Ht Hfit Hall) as (es & E & Hw & Hes).
  subst s'. rewrite E. cbn [state_of completed_files].
  split; [|done].
  erewrite new_effects_app by (cbn [trace]; reflexivity).
  rewrite !file_on_disk_app.
  assert (file_on_disk (ledger_path cfg) content
            [HttpGet (stream_request v cfg url); OpenWb (ledger_path cfg)] = []) as ->.
  { cbn. by rewrite String.eqb_refl. }
  rewrite (file_on_disk_chunks _ _ _ Hes), Hw, !map_map. cbn [app snd].
  unfold finish_effects.
  destruct v, (0 <? size); cbn; by rewrite String.eqb_refl.
Qed.

Lemma transfer_overwrites_witness :
  let s := init {["dest/old.bin"%string]} ["dest/old.bin"%string] in
  let s' := state_of (download_loop Test3Py tree_world
                        (mkConfig "http://h/a.txt" "dest" "" "" true) 1
                        "http://h/a.txt" "dest/download_progress.txt" s) in
  file_on_disk "dest/download_progress.txt" [Line "dest/old.bin"] (new_effects s s')
  = [Bytes ["a"; "b"]%byte; Bytes ["c"]%byte; Line "dest/download_progress.txt"]
  ∧ completed_files s'
    = {["dest/download_progress.txt"%string]} ∪ {["dest/old.bin"%string]}.
Proof.
  intros s s'.
  destruct (transfer_overwrites_progress_file Test3Py tree_world
              (mkConfig "http://h/a.txt" "dest" "" "" true) 0 "http://h/a.txt" s
              (mkResponse 200 (CLInt 3) None [] [["a"; "b"]%byte; ["c"]%byte]
                 false false)
              3 [Line "dest/old.bin"]) as (_ & Hd & Hc);
    try reflexivity; try discriminate.
  split; [exact Hd | exact Hc].
Defined.

(** ** Malformed answers, failed listings and the retry loops *)

(** X9. Two answers the retry loop of [download_file] does not survive: a
    302 without a [Location] header (test-3.py) raises [KeyError], a 200 with
    a [content-length] that is no integer raises [ValueError]. Either leaves
    the loop after the one request, with no file opened and nothing else
    changed. *)
Theorem malformed_headers_escape v w cfg fuel url file_path s r :
  cancel_set w (clock s) = false →
  http w (S (clock s)) (stream_request v cfg url) = Replied r →
  let s1 := advanced [HttpGet (stream_request v cfg url)] 2 s in
  (v = Test3Py → status_code r = 302 → location r = None →
   download_loop v w cfg (S fuel) url file_path s = Exc KeyError s1)
  ∧ (status_code r = 200 → content_length r = CLInvalid →
     download_loop v w cfg (S fuel) url file_path s = Exc ValueError s1).
Proof.
  intros Hc Hr s1.
  assert (Es : tick (push (HttpGet (stream_request v cfg url)) (tick s)) = s1).
  { subst s1. unfold advanced. unfold_state. f_equal. lia. }
  split.
  - intros -> H302 Hl. cbn [download_loop]. unfold bind at 1, is_canceled.
    rewrite Hc. unfold bind, try_request, attempt, bind, requests_get.
    cbn [clock tick]. rewrite Hr, H302, Hl. cbn [Z.eqb Pos.eqb]. unfold raise.
    by rewrite Es.
  - intros H200 Hl. cbn [download_loop]. unfold bind at 1, is_canceled.
    rewrite Hc. unfold bind, try_request, attempt, bind, requests_get.
    cbn [clock tick]. rewrite Hr.
    replace (match v with TestPy => false | Test3Py => status_code r =? 302 end)
      with false by (by destruct v; [|rewrite H200]).
    rewrite H200, Hl. cbn [Z.eqb Pos.eqb]. unfold raise. by rewrite Es.
Qed.

Lemma malformed_headers_witness :
  download_loop Test3Py lost_world fetch_f 1 "http://h/f" "dest/f" (init ∅ [])
  = Exc KeyError
      (mkState 0 0 0 ∅ [] [] [HttpGet (stream_request Test3Py fetch_f "http://h/f")] 2)
  ∧ download_loop TestPy garbled_world crawl_h 1 "http://h/f" "dest/f" (init ∅ [])
    = Exc ValueError
        (mkState 0 0 0 ∅ [] [] [HttpGet (stream_request TestPy crawl_h "http://h/f")] 2).
Proof.
  split.
  - exact (proj1 (malformed_headers_escape Test3Py lost_world fetch_f 0 "http://h/f"
                    "dest/f" (init ∅ []) _ eq_refl eq_refl) eq_refl eq_refl eq_refl).
  - exact (proj2 (malformed_headers_escape TestPy garbled_world crawl_h 0 "http://h/f"
                    "dest/f" (init ∅ []) _ eq_refl eq_refl) eq_refl eq_refl).
Defined.

Lemma count_files_failed_status w fuel url s r :
  http w (clock s) (listing_request url) = Replied r →
  status_code r ≠ 200 →
  count_files w (S fuel) url s = Ret 0 (fetched [url] s).
Proof.
  intros Hr H. apply Z.eqb_neq in H.
  cbn [count_files]. unfold bind, try_request, requests_get. rewrite Hr, H.
  cbn [negb]. unfold ret, fetched, advanced. unfold_state. cbn [map length].
  do 2 f_equal. lia.
Qed.

Lemma download_directory_failed_status v w cfg fuel url dest s r :
  cancel_set w (clock s) = false →
  http w (S (clock s)) (listing_request url) = Replied r →
  status_code r ≠ 200 →
  download_directory v w cfg (S fuel) url dest s
  = Ret tt (advanced [HttpGet (listing_request url);
                      Emit (log_signal (MsgFailedAccess url (status_code r)))] 2 s).
Proof.
  intros Hc Hr H. apply Z.eqb_neq in H.
  cbn [download_directory]. unfold bind at 1, is_canceled. rewrite Hc.
  unfold bind, try_request, requests_get. cbn [clock tick]. rewrite Hr, H.
  cbn [negb]. unfold log, emit, modify, ret, advanced. unfold_state.
  do 2 f_equal; [by rewrite <- !app_assoc | lia].
Qed.

(** X10. A run in directory mode on a root that is answered with a status
    other than 200, at the count and at the walk: it reports 0 files, logs
    that the access failed, and emits the completion signal. Nothing is
    retried and nothing is noted in [pending_files]. *)
Theorem unreachable_root_completes v w cfg fuel s r1 r2 :
  directory_mode v cfg →
  http w (clock s) (listing_request (base_url cfg)) = Replied r1 →
  status_code r1 ≠ 200 →
  http w (clock s + 2) (listing_request (base_url cfg)) = Replied r2 →
  status_code r2 ≠ 200 →
  cancel_set w (clock s + 3) = false →
  run v w cfg (S fuel) s
  = Ret tt
      (mkState 0 (downloaded_files s) (total_size s) (completed_files s)
         (pending_files s) (progress_file s)
         (trace s
          ++ [HttpGet (listing_request (base_url cfg));
              Emit (file_count_signal 0);
              HttpGet (listing_request (base_url cfg));
              Emit (log_signal (MsgFailedAccess (base_url cfg) (status_code r2)));
              Emit complete_signal])
         (clock s + 4)).
Proof.
  intros Hm Hr1 H1 Hr2 H2 Hc.
  assert (Hc' : ∀ t, (t <= clock s + 3)%nat → cancel_set w t = false).
  { intros t Ht. eapply cancel_set_false_mono; [exact Ht | exact Hc]. }
  unfold run, try_exception, pipeline.
  replace (match v with TestPy => false | Test3Py => is_single_file cfg end)
    with false by (by destruct v; [|rewrite Hm]).
  unfold bind. rewrite (count_files_failed_status w fuel _ s r1 Hr1 H1).
  unfold modify at 1. unfold emit at 1, modify.
  erewrite (download_directory_failed_status v w cfg fuel _ _ _ r2); [| |  |exact H2].
  - unfold is_canceled, fetched, advanced. unfold_state. cbn [length map].
    rewrite Hc' by lia. cbn [negb]. unfold emit, modify. unfold_state.
    do 2 f_equal; [by rewrite <- !app_assoc | lia].
  - unfold fetched, advanced. unfold_state. apply Hc'. cbn [length]. lia.
  - unfold fetched, advanced. unfold_state. cbn [length].
    by replace (S (clock s + 1)) with (clock s + 2)%nat by lia.
Qed.

Lemma unreachable_root_witness :
  run Test3Py closed_world crawl_h 1 (init ∅ [])
  = Ret tt
      (mkState 0 0 0 ∅ [] []
         [HttpGet (listing_request "http://h/");
          Emit (file_count_signal 0);
          HttpGet (listing_request "http://h/");
          Emit (log_signal (MsgFailedAccess "http://h/" 401));
          Emit complete_signal] 4).
Proof.
  apply (unreachable_root_completes Test3Py closed_world crawl_h 0 (init ∅ [])
           (mkResponse 401 CLAbsent None [] [] false false)
           (mkResponse 401 CLAbsent None [] [] false false));
    try reflexivity; discriminate.
Defined.

Lemma retry_rounds_S v url n :
  retry_rounds v url (S n) = retry_round v url ++ retry_rounds v url n.
Proof. done. Qed.

(** X11. [download_directory] has no retry limit. After [n] rounds in which
    the flag is not set and the fetch of the listing fails, it is at the head
    of its loop again, for the same URL, and all it has done is [n] times the
    request, the log line, (test.py) the message box and the sleep of 60
    seconds. With the network down for good it spends every budget. *)
Theorem directory_retries_forever v w cfg n fuel url dest s :
  (∀ t, (t < clock s + 2 * n)%nat → cancel_set w t = false) →
  (∀ t, (clock s <= t < clock s + 2 * n)%nat →
        http w t (listing_request url) = NetworkError) →
  download_directory v w cfg (n + fuel) url dest s
  = download_directory v w cfg fuel url dest
      (advanced (retry_rounds v url n) (2 * n) s).
Proof.
  revert s. induction n as [|n IH]; intros s Hc Hn.
  { by rewrite advanced_nil. }
  cbn [Nat.add download_directory]. unfold bind at 1, is_canceled.
  rewrite Hc by lia. unfold bind at 1. unfold try_request, bind at 1, requests_get.
  cbn [clock tick]. rewrite Hn by lia.
  unfold bind at 1. unfold retry_pause, bind at 1. unfold log, emit, modify.
  assert (Es : ∀ s0 : State,
            ((match v with TestPy => effect MessageBox | Test3Py => ret tt end ;;
              effect (Sleep retry_delay)) s0)
            = Ret tt (push_all (match v with TestPy => [MessageBox] | Test3Py => [] end
                                ++ [Sleep 60]) s0)).
  { intros s0. destruct v; unfold bind, effect, modify, ret; unfold_state; [|done].
    by rewrite <- app_assoc. }
  rewrite Es. rewrite IH.
  - f_equal. rewrite retry_rounds_S. unfold advanced, retry_round. unfold_state.
    f_equal; [by rewrite <- !app_assoc | lia].
  - intros t Ht. apply Hc. unfold_state. lia.
  - intros t Ht. apply Hn. unfold_state. lia.
Qed.

Lemma directory_retries_witness :
  download_directory TestPy down_world crawl_h 2 "http://h/" "dest" (init ∅ [])
  = OutOfFuel
      (mkState 0 0 0 ∅ [] []
         [HttpGet (listing_request "http://h/");
          Emit (log_signal (MsgNetworkIssueDir "http://h/")); MessageBox; Sleep 60;
          HttpGet (listing_request "http://h/");
          Emit (log_signal (MsgNetworkIssueDir "http://h/")); MessageBox; Sleep 60] 4).
Proof.
  exact (directory_retries_forever TestPy down_world crawl_h 2 0 "http://h/" "dest"
           (init ∅ []) (λ _ _, eq_refl) (λ _ _, eq_refl)).
Defined.

(** X12. A [cancel()] that arrives after the check at the head of the loop
    of [download_file], when the request then fails, is seen only after the
    retry handler has run to its end: the log line, (test.py) the message
    box and the sleep of 60 seconds come before the canceled signal. *)
Theorem cancel_waits_for_retry_delay v w cfg fuel url file_path s :
  cancel_set w (clock s) = false →
  http w (S (clock s)) (stream_request v cfg url) = NetworkError →
  cancel_set w (clock s + 2) = true →
  download_loop v w cfg (S (S fuel)) url file_path s
  = Ret tt (advanced
              ([HttpGet (stream_request v cfg url);
                Emit (log_signal (MsgNetworkIssue url))]
               ++ match v with TestPy => [MessageBox] | Test3Py => [] end
               ++ [Sleep 60; Emit canceled_signal])
              3 s).
Proof.
  intros Hc Hn Hc2.
  rewrite (download_loop_fails v w cfg (S fuel) url file_path s Hc Hn).
  cbn [download_loop]. unfold bind, is_canceled, after_hops.
  cbn [clock length hops_trace]. replace (clock s + 2 * 1)%nat with (clock s + 2)%nat by lia.
  rewrite Hc2. unfold emit, modify, advanced. unfold_state.
  do 2 f_equal; [|lia].
  destruct v; cbn [app]; by rewrite <- ?app_assoc.
Qed.

Lemma cancel_waits_witness :
  download_loop Test3Py
    (mkWorld (λ _ _, NetworkError) (Some 1%nat) (λ _, 0%nat) (λ _ _, false))
    fetch_f 2 "http://h/f" "dest/f" (init ∅ [])
  = Ret tt (mkState 0 0 0 ∅ [] []
              [HttpGet (stream_request Test3Py fetch_f "http://h/f");
               Emit (log_signal (MsgNetworkIssue "http://h/f"));
               Sleep 60; Emit canceled_signal] 3).
Proof.
  exact (cancel_waits_for_retry_delay Test3Py
           (mkWorld (λ _ _, NetworkError) (Some 1%nat) (λ _, 0%nat) (λ _ _, false))
           fetch_f 0 "http://h/f" "dest/f" (init ∅ []) eq_refl eq_refl eq_refl).
Defined.

(** ** Where a file is written *)

Lemma str_cons c (a b : string) : String c a +:+ b = String c (a +:+ b).
Proof. done. Qed.

Lemma str_nil_r (a : string) : a +:+ "" = a.
Proof. induction a as [|c a IH]; [done|]. by rewrite str_cons, IH. Qed.

Lemma str_assoc (a b c : string) : (a +:+ b) +:+ c = a +:+ (b +:+ c).
Proof. induction a as [|x a IH]; [done|]. by rewrite !str_cons, IH. Qed.

Lemma contains_slash_app a b :
  contains_slash (a +:+ b) = contains_slash a || contains_slash b.
Proof.
  induction a as [|c a IH]; [done|].
  rewrite str_cons. cbn [contains_slash]. by rewrite IH, orb_assoc.
Qed.

Lemma last_segment_from_split seg s :
  last_segment_from seg s
  = if contains_slash s then last_segment s else seg +:+ s.
Proof.
  unfold last_segment. revert seg.
  induction s as [|c s IH]; intros seg; cbn [last_segment_from contains_slash].
  { by rewrite str_nil_r. }
  destruct (Ascii.eqb c "/"); cbn [orb]; [done|].
  change ("" +:+ String c "") with (String c "").
  rewrite (IH (seg +:+ String c "")), (IH (String c "")).
  destruct (contains_slash s); [done|]. by rewrite str_assoc.
Qed.

Lemma last_segment_from_no_slash seg url :
  contains_slash seg = false →
  contains_slash (last_segment_from seg url) = false.
Proof.
  revert seg. induction url as [|c url IH]; intros seg Hseg;
    cbn [last_segment_from]; [done|].
  destruct (Ascii.eqb c "/") eqn:Ec; [by apply IH|].
  apply IH. rewrite contains_slash_app, Hseg. cbn [contains_slash orb].
  by rewrite Ec.
Qed.

Lemma last_segment_from_app seg base h :
  last_segment_from seg (base +:+ h)
  = if contains_slash h then last_segment h else last_segment_from seg base +:+ h.
Proof.
  revert seg. induction base as [|c base IH]; intros seg.
  { apply last_segment_from_split. }
  rewrite str_cons. cbn [last_segment_from].
  destruct (Ascii.eqb c "/"); apply IH.
Qed.

Lemma last_segment_from_directory seg base :
  endswith_slash base = true → last_segment_from seg base = EmptyString.
Proof.
  revert seg. induction base as [|c base IH]; intros seg H; [done|].
  cbn [last_segment_from endswith_slash] in *. destruct base as [|c' base].
  - by rewrite H.
  - destruct (Ascii.eqb c "/"); by apply IH.
Qed.

Lemma startswith_contains s : startswith_slash s = true → contains_slash s = true.
Proof. destruct s as [|c s]; [done|]. cbn. by intros ->. Qed.

(** X13. The local name of a file is the part of its URL after the last
    ['/']. It contains no ['/'], so [os.path.join] never drops the folder:
    the file is written directly in [dest_folder]. For the URL [base + h] of
    a listing entry the name is the last segment of [h] when [h] contains a
    ['/'], and [h] itself when it does not and [base] ends with ['/']: then
    the path written is the one logged. *)
Theorem file_lands_in_dest url dest :
  let name := last_segment url in
  contains_slash name = false
  ∧ os_path_join dest name = dest +:+ separator dest +:+ name
  ∧ (∀ base h, url = base +:+ h →
       name = if contains_slash h then last_segment h
              else last_segment base +:+ h)
  ∧ (∀ base h, url = base +:+ h → endswith_slash base = true →
       contains_slash h = false → os_path_join dest name = os_path_join dest h).
Proof.
  intros name.
  assert (Hn : contains_slash name = false)
    by by apply last_segment_from_no_slash.
  split_and!.
  - done.
  - unfold os_path_join, separator.
    destruct (startswith_slash name) eqn:E.
    { apply startswith_contains in E. congruence. }
    by destruct (_ || _).
  - intros base h ->. apply last_segment_from_app.
  - intros base h -> Hb Hh. subst name. unfold last_segment.
    by rewrite last_segment_from_app, Hh, (last_segment_from_directory _ base Hb).
Qed.

Lemma file_lands_in_dest_witness :
  contains_slash (last_segment "http://h/d/a.txt") = false
  ∧ os_path_join "dest" (last_segment "http://h/d/a.txt") = os_path_join "dest" "a.txt".
Proof.
  destruct (file_lands_in_dest "http://h/d/a.txt" "dest") as (H1 & _ & _ & H4).
  split; [exact H1|].
  exact (H4 "http://h/d/"%string "a.txt"%string eq_refl eq_refl eq_refl).
Defined.

Lemma nav_is_relative h : startswith_slash h = true → is_nav (Some h) = false.
Proof.
  destruct h as [|c h]; [done|]. cbn. intros Hc. apply Ascii.eqb_eq in Hc as ->.
  done.
Qed.

(** X14. A directory entry whose [href] starts with ['/'] replaces the
    destination: [os.path.join] returns the [href] alone, the folder created
    and logged is the [href], and the subtree is walked with it as its
    destination, whatever [dest_folder] is. *)
Theorem absolute_directory_href_replaces_dest v w cfg fuel walk url dest h rest s :
  startswith_slash h = true →
  endswith_slash h = true →
  crawl_links v w cfg fuel walk url dest (Some h :: rest) s
  = (walk (url +:+ h) h ;; crawl_links v w cfg fuel walk url dest rest)
      (advanced [Makedirs h; Emit (log_signal (MsgEntering h))] 0 s).
Proof.
  intros Hs He. cbn [crawl_links]. rewrite (nav_is_relative h Hs), He.
  unfold os_path_join. rewrite Hs.
  unfold bind, effect, log, emit, modify, advanced. unfold_state.
  by rewrite <- app_assoc, Nat.add_0_r.
Qed.

Lemma absolute_directory_href_witness :
  crawl_links Test3Py canceled_world crawl_h 1
    (download_directory Test3Py canceled_world crawl_h 1) "http://h" "dest"
    [Some "/etc/"%string] (init ∅ [])
  = Ret tt (mkState 0 0 0 ∅ [] []
              [Makedirs "/etc/"; Emit (log_signal (MsgEntering "/etc/"));
               Emit canceled_signal] 1).
Proof.
  rewrite (absolute_directory_href_replaces_dest Test3Py canceled_world crawl_h 1
             (download_directory Test3Py canceled_world crawl_h 1) "http://h" "dest"
             "/etc/" [] (init ∅ []) eq_refl eq_refl).
  reflexivity.
Defined.

(** ** The requests of a run, and the two modes *)

Section FileEffects.

Variable v : Variant.
Variable w : World.
Variable cfg : Config.

Local Abbreviation P := (file_effect v cfg).

Local Ltac em :=
  first
    [ apply emits_ret | apply emits_raise | apply emits_out_of_fuel
    | apply emits_gets | apply emits_is_canceled
    | apply emits_pause_wait; exact I
    | apply emits_log; exact I
    | apply emits_emit; exact I
    | apply emits_effect; exact I
    | apply emits_retry_pause; exact I
    | apply emits_same; intros ?; reflexivity ].

Local Tactic Notation "chain" "as" ident(x) := apply emits_bind; [|intros x].
Local Tactic Notation "chain" := apply emits_bind; [|intros _].

Lemma emits_iter_content file_path file_size cs is_broken written :
  emits P (iter_content w file_path file_size cs is_broken written).
Proof.
  revert written. induction cs as [|chunk rest IH]; intros written;
    cbn [iter_content].
  { destruct is_broken; em. }
  chain as written'.
  - destruct chunk; [em|]. chain; [em|]. chain; [|em]. destruct (file_size =? 0); em.
  - chain; [em|]. chain as c; [em|]. destruct c; [|apply IH]. chain; em.
Qed.

Lemma emits_finish_file file_path file_size written :
  emits P (finish_file v w cfg file_path file_size written).
Proof.
  assert (Ht : emits P (file_time_remaining w file_size written)).
  { unfold file_time_remaining. destruct (0 <? file_size); [|em].
    destruct (written =? 0); [em | by apply emits_estimate]. }
  unfold finish_file. destruct v.
  - chain; [em|]. chain; [exact Ht|]. chain as d; [em|]. chain as t; [em|].
    chain; [destruct (_ =? 0); em|]. chain; [em|]. chain; [em|].
    chain; [em | by apply emits_estimate].
  - chain; [exact Ht|]. chain; [em|]. chain as d; [em|]. chain as t; [em|].
    chain; [em|]. chain; [em|]. chain; em.
Qed.

Lemma emits_attempt url file_path : emits P (attempt v w cfg url file_path).
Proof.
  unfold attempt.
  chain as response; [apply emits_requests_get; by eexists|].
  match goal with |- context [if ?b then _ else _] => destruct b end.
  { destruct (location response); [|em]. chain; em. }
  destruct (status_code response =? 200).
  - chain as file_size; [destruct (content_length response); em|].
    chain; [em|]. chain as e; [apply emits_iter_content|].
    destruct e; [|em]. chain; [apply emits_finish_file | em].
  - chain; [em|]. chain; em.
Qed.

Lemma emits_download_loop fuel url file_path :
  emits P (download_loop v w cfg fuel url file_path).
Proof.
  revert url. induction fuel as [|fuel IH]; intros url; cbn [download_loop]; [em|].
  chain as c; [em|]. destruct c; [em|].
  chain as r; [apply emits_try_request, emits_attempt|].
  destruct r as [[| |url']|]; [em | em | apply IH |].
  chain; [em | apply IH].
Qed.

Lemma emits_download_file fuel url dest :
  emits P (download_file v w cfg fuel url dest).
Proof.
  unfold download_file. chain as c; [em|]. destruct c; [em|].
  chain as d; [em|]. destruct d; [em | apply emits_download_loop].
Qed.

End FileEffects.

Lemma run_requests v w cfg fuel s r :
  HttpGet r ∈ new_effects s (state_of (run v w cfg fuel s)) →
  (∃ u, r = listing_request u) ∨ (∃ u, r = stream_request v cfg u).
Proof.
  destruct (run_shape v w cfg fuel s) as (s1 & [new1 T F C K D N] & Hend).
  assert (HttpGet r ∈ new1 →
          (∃ u, r = listing_request u) ∨ (∃ u, r = stream_request v cfg u)) as Hnew.
  { intros Hin. by apply (proj1 (Forall_forall _ _) F) in Hin. }
  destruct Hend as [_ _ ->|_ _ ->|e _ ->|_ ->]; cbn [state_of].
  - by rewrite (new_effects_app s (tick s1) new1).
  - rewrite (new_effects_app s _ (new1 ++ [Emit complete_signal]))
      by (unfold_state; by rewrite T, app_assoc).
    intros [Hin|Hin%list_elem_of_singleton]%elem_of_app; [by apply Hnew | done].
  - rewrite (new_effects_app s _ (new1 ++ [Emit (log_signal (MsgErrorOccurred e))]))
      by (unfold_state; by rewrite T, app_assoc).
    intros [Hin|Hin%list_elem_of_singleton]%elem_of_app; [by apply Hnew | done].
  - by rewrite (new_effects_app s s1 new1).
Qed.

(** X15. The arguments of the requests of a run. An [auth=] argument is
    passed only by test-3.py, only in the stream open of a file, and only
    when user name and password are both non-empty; it is then the pair of
    the configuration. Every listing is fetched with the URL as the only
    argument: no [auth=], no headers, redirects followed; the stream opens
    of test-3.py do not follow redirects. This is about the arguments of
    [requests.get]: credentials that are written into a URL are part of the
    URL, and go with every request for it. *)
Theorem auth_argument_only_on_stream_opens v w cfg fuel s r :
  HttpGet r ∈ new_effects s (state_of (run v w cfg fuel s)) →
  match req_auth r with
  | None => True
  | Some (user, pass) =>
      v = Test3Py ∧ req_stream r = true
      ∧ user = username cfg ∧ pass = password cfg ∧ user ≠ "" ∧ pass ≠ ""
  end
  ∧ (req_stream r = false → req_allow_redirects r = true ∧ req_headers r = [])
  ∧ (v = Test3Py → req_stream r = true →
     req_allow_redirects r = false
     ∧ (username cfg ≠ "" → password cfg ≠ "" →
        req_auth r = Some (username cfg, password cfg))).
Proof.
  intros [[u ->]|[u ->]]%run_requests; [by split_and!|].
  unfold stream_request. destruct v; [by split_and!|].
  destruct (String.eqb_spec (username cfg) ""), (String.eqb_spec (password cfg) "");
    cbn; by split_and!.
Qed.

Lemma auth_argument_witness :
  let r := stream_request Test3Py (mkConfig "http://h/" "dest" "u" "p" false)
             "http://h/a.txt" in
  req_auth r = Some ("u", "p")%string ∧ req_allow_redirects r = false.
Proof.
  intros r.
  assert (Hin : HttpGet r ∈ new_effects (init ∅ [])
            (state_of (run Test3Py tree_world (mkConfig "http://h/" "dest" "u" "p" false)
                         4 (init ∅ [])))).
  { apply list_elem_of_In. vm_compute. tauto. }
  destruct (auth_argument_only_on_stream_opens Test3Py tree_world
              (mkConfig "http://h/" "dest" "u" "p" false) 4 (init ∅ []) r Hin)
    as (_ & _ & H).
  destruct (H eq_refl eq_refl) as [Hr Ha]. split; [|exact Hr].
  apply Ha; discriminate.
Defined.

Lemma start_download_config v f cfg :
  start_download v f = Some cfg →
  dest_folder cfg = path_input f ∧ path_input f ≠ EmptyString
  ∧ username cfg = username_input f ∧ password cfg = password_input f
  ∧ (v = Test3Py → is_single_file cfg = negb (endswith_slash (base_url cfg))).
Proof.
  unfold start_download. destruct (String.eqb_spec (path_input f) ""); [done|].
  intros [= <-]. cbn. split_and!; try done. intros Hv. rewrite Hv. reflexivity.
Qed.

Lemma starts_with_try_exception pre (m : M unit) msg s :
  starts_with pre m s →
  starts_with pre (try_exception m (λ e, log (msg e))) s.
Proof.
  unfold starts_with, try_exception. intros [tl E].
  destruct (m s) as [a s1|e s1|s1]; cbn [state_of] in *;
    [by exists tl | | by exists tl].
  exists (tl ++ [Emit (log_signal (msg e))]). unfold log, emit, modify. unfold_state.
  by rewrite E, <- !app_assoc.
Qed.

Lemma steps_emits {A} v w cfg fixed (m : M A) :
  steps v w cfg fixed m → emits (λ _, True) m.
Proof.
  intros Hm s. destruct (Hm s) as [new T _ _ _ _ _]. exists new.
  split; [done | by apply Forall_true].
Qed.

Lemma starts_with_then {A B} pre (m : M A) (k : A → M B) s :
  (∀ a, emits (λ _, True) (k a)) →
  starts_with pre m s → starts_with pre (bind m k) s.
Proof.
  unfold starts_with, bind. intros Hk [tl E].
  destruct (m s) as [a s1|e s1|s1]; cbn [state_of] in *; [|by exists tl..].
  destruct (Hk a s1) as (new & E2 & _). exists (tl ++ new).
  by rewrite E2, E, <- !app_assoc.
Qed.

(** X16. In test-3.py the trailing ['/'] of the URL decides the mode of the
    thread [start_download] starts. Without it the run is the transfer of
    one file: every request is a stream open, no listing is fetched, no
    count is made or emitted and [total_files] keeps its value. With it the
    run begins with the fetch of the listing of that URL. *)
Theorem mode_by_trailing_slash w f cfg fuel s :
  start_download Test3Py f = Some cfg →
  (endswith_slash (base_url cfg) = false →
   let s' := state_of (run Test3Py w cfg fuel s) in
   total_files s' = total_files s
   ∧ Forall (λ e, file_effect Test3Py cfg e
                  ∨ e = Emit complete_signal
                  ∨ ∃ x, e = Emit (log_signal (MsgErrorOccurred x)))
            (new_effects s s'))
  ∧ (endswith_slash (base_url cfg) = true →
     starts_with [HttpGet (listing_request (base_url cfg))]
       (run Test3Py w cfg (S fuel)) s).
Proof.
  intros (_ & _ & _ & _ & Hm)%start_download_config. specialize (Hm eq_refl).
  split.
  - intros Hs. rewrite Hs in Hm. cbn [negb] in Hm.
    destruct (emits_download_file Test3Py w cfg fuel (base_url cfg) (dest_folder cfg) s)
      as (new & E & Hnew).
    destruct (steps_download_file Test3Py w cfg fuel (base_url cfg) (dest_folder cfg) s)
      as [_ _ _ _ _ _ Ht]. specialize (Ht eq_refl).
    assert (Hweak : Forall (λ e, file_effect Test3Py cfg e
                                 ∨ e = Emit complete_signal
                                 ∨ ∃ x, e = Emit (log_signal (MsgErrorOccurred x))) new).
    { eapply Forall_impl; [exact Hnew | by left]. }
    unfold run, try_exception, pipeline. rewrite Hm. unfold bind, is_canceled.
    cbv zeta.
    destruct (download_file Test3Py w cfg fuel (base_url cfg) (dest_folder cfg) s)
      as [[] s1|e s1|s1]; cbn [state_of] in *.
    + destruct (cancel_set w (clock s1)); cbn [negb]; unfold emit, modify, ret;
        cbn [state_of].
      * split; [done|]. by rewrite (new_effects_app s (tick s1) new).
      * split; [done|].
        rewrite (new_effects_app s _ (new ++ [Emit complete_signal]))
          by (unfold_state; by rewrite E, app_assoc).
        apply Forall_app. split; [done|]. constructor; [|constructor].
        right. by left.
    + unfold log, emit, modify. cbn [state_of]. split; [done|].
      rewrite (new_effects_app s _ (new ++ [Emit (log_signal (MsgErrorOccurred e))]))
        by (unfold_state; by rewrite E, app_assoc).
      apply Forall_app. split; [done|]. constructor; [|constructor].
      right. right. by exists e.
    + split; [done|]. by rewrite (new_effects_app s s1 new).
  - intros Hs. rewrite Hs in Hm. cbn [negb] in Hm.
    unfold run. apply starts_with_try_exception.
    apply starts_with_then.
    { intros _. apply emits_bind; [apply emits_is_canceled | intros c].
      destruct c; [apply emits_ret | by apply emits_emit]. }
    unfold pipeline. rewrite Hm.
    apply starts_with_then; [|apply (count_files_first_request Test3Py w cfg)].
    intros total. apply emits_bind; [by apply emits_same | intros _].
    apply emits_bind; [by apply emits_emit | intros _].
    apply (steps_emits Test3Py w cfg true), steps_download_directory.
Qed.

Lemma mode_by_trailing_slash_witness :
  let cfg := mkConfig "http://h/f" "dest" "" "" true in
  Forall (λ e, file_effect Test3Py cfg e
               ∨ e = Emit complete_signal
               ∨ ∃ x, e = Emit (log_signal (MsgErrorOccurred x)))
         (new_effects (init ∅ []) (state_of (run Test3Py gone_world cfg 2 (init ∅ [])))).
Proof.
  intros cfg.
  destruct (mode_by_trailing_slash gone_world
              (mkForm "http://h/f" "" "dest" "" "") cfg 2 (init ∅ []) eq_refl)
    as [H _].
  exact (proj2 (H eq_refl)).
Defined.

(** ** The progress file across threads *)

Lemma lines_from_one_line line p rest :
  one_line p = true → lines_from line (p +:+ rest) = lines_from (line +:+ p) rest.
Proof.
  revert line. induction p as [|c p IH]; intros line Hp.
  { by rewrite str_nil_r. }
  cbn [one_line] in Hp. apply andb_prop in Hp as [[H1 H2]%andb_prop Hp].
  apply negb_true_iff in H1, H2.
  rewrite str_cons. cbn [lines_from]. rewrite H1, H2, (IH _ Hp), str_assoc.
  done.
Qed.

Lemma lines_from_linesep linesep line rest :
  linesep = String LF "" ∨ linesep = String CR (String LF "") →
  lines_from line (linesep +:+ rest) = (line +:+ String LF "") :: lines_from "" rest.
Proof. by intros [->| ->]. Qed.

Lemma lines_of_ledger linesep paths :
  linesep = String LF "" ∨ linesep = String CR (String LF "") →
  Forall (λ p, one_line p = true) paths →
  lines_from "" (ledger_text linesep paths) = map (λ p, p +:+ String LF "") paths.
Proof.
  intros Hsep. induction 1 as [|p paths Hp _ IH]; [done|].
  cbn [ledger_text foldr map]. fold (ledger_text linesep paths).
  by rewrite (lines_from_one_line _ _ _ Hp), (lines_from_linesep _ _ _ Hsep), IH.
Qed.

Lemma rstrip_space a c : is_space c = true → rstrip (a +:+ String c "") = rstrip a.
Proof.
  intros Hc. induction a as [|x a IH].
  - change ("" +:+ String c "") with (String c ""). cbn [rstrip]. by rewrite Hc.
  - rewrite str_cons. cbn [rstrip]. by rewrite IH.
Qed.

Lemma lstrip_space p c :
  is_space c = true →
  (lstrip p = "" ∧ lstrip (p +:+ String c "") = "")
  ∨ lstrip (p +:+ String c "") = lstrip p +:+ String c "".
Proof.
  intros Hc. induction p as [|x p IH].
  - left. change ("" +:+ String c "") with (String c ""). cbn [lstrip].
    by rewrite Hc.
  - rewrite str_cons. cbn [lstrip]. destruct (is_space x); [done | by right].
Qed.

Lemma strip_line p : strip (p +:+ String LF "") = strip p.
Proof.
  unfold strip. destruct (lstrip_space p LF eq_refl) as [[-> ->]| ->]; [done|].
  by apply rstrip_space.
Qed.

Lemma load_ledger linesep paths :
  linesep = String LF "" ∨ linesep = String CR (String LF "") →
  Forall (λ p, one_line p = true) paths →
  load_completed (ledger_text linesep paths) = list_to_set (map strip paths).
Proof.
  intros Hsep Hp. unfold load_completed.
  rewrite (lines_of_ledger _ _ Hsep Hp), map_map. f_equal.
  apply map_ext. intros p. apply strip_line.
Qed.

(** X17. What [__init__] reads back from the progress file a thread has
    left, when no recorded path contains a line break: the completed set of
    the new thread consists of the recorded paths with the white space at
    their ends stripped. So it is the set of the recorded paths when none
    begins or ends with white space, whichever line separator the platform
    writes, and a recorded path that [strip] leaves unchanged is skipped by
    [download_file] of the new thread. *)
Theorem restart_reloads_ledger linesep s :
  linesep = String LF "" ∨ linesep = String CR (String LF "") →
  Forall (λ p, one_line p = true) (progress_file s) →
  (∀ p, p ∈ completed_files (restart linesep s)
        ↔ ∃ q, q ∈ progress_file s ∧ p = strip q)
  ∧ (Forall (λ p, strip p = p) (progress_file s) →
     completed_files (restart linesep s) = list_to_set (progress_file s))
  ∧ (∀ v w cfg fuel url dest,
       let file_path := os_path_join dest (last_segment url) in
       file_path ∈ progress_file s →
       strip file_path = file_path →
       cancel_set w 0 = false →
       download_file v w cfg fuel url dest (restart linesep s)
       = Ret tt (push (Emit (log_signal (MsgSkipping file_path)))
                      (tick (restart linesep s)))).
Proof.
  intros Hsep Hp.
  assert (Hc : completed_files (restart linesep s)
               = list_to_set (map strip (progress_file s)))
    by apply (load_ledger _ _ Hsep Hp).
  assert (Hin : ∀ p, p ∈ completed_files (restart linesep s)
                     ↔ ∃ q, q ∈ progress_file s ∧ p = strip q).
  { intros p. rewrite Hc, elem_of_list_to_set, list_elem_of_fmap.
    split; intros (q & H1 & H2); by exists q. }
  split_and!.
  - exact Hin.
  - intros Hclean. rewrite Hc. f_equal.
    clear -Hclean. induction Hclean as [|p ps E _ IH]; [done|].
    cbn [map]. by rewrite E, IH.
  - intros v w cfg fuel url dest file_path Hf Hs Hcancel.
    unfold download_file, bind, is_canceled.
    change (clock (restart linesep s)) with 0%nat. rewrite Hcancel.
    unfold gets. fold file_path. cbn [completed_files tick].
    rewrite bool_decide_true; [done|].
    apply Hin. by exists file_path.
Qed.

Lemma restart_reloads_witness :
  let s := mkState 1 1 3 {["dest/a.txt"%string]} [] ["dest/a.txt"%string] [] 7 in
  download_file Test3Py tree_world crawl_h 0 "http://h/a.txt" "dest"
    (restart (String CR (String LF "")) s)
  = Ret tt (push (Emit (log_signal (MsgSkipping "dest/a.txt")))
                 (tick (restart (String CR (String LF "")) s))).
Proof.
  intros s.
  assert (Hp : Forall (λ p, one_line p = true) (progress_file s))
    by (repeat constructor).
  destruct (restart_reloads_ledger (String CR (String LF "")) s (or_intror eq_refl) Hp)
    as (_ & _ & H).
  apply (H Test3Py tree_world crawl_h 0%nat "http://h/a.txt"%string "dest"%string).
  - apply list_elem_of_In. vm_compute. tauto.
  - reflexivity.
  - reflexivity.
Defined.

(** X18. A restart resumes, when no transfer of the run has written to the
    path of the progress file. If the file holds the lines [progress_file]
    has when the run starts and the completed set agrees with them, then
    when the run ends, whichever way it ends, the file holds the lines
    [progress_file] has then and the completed set agrees with them; and
    when no recorded path contains a line break or has white space at an
    end, the thread created next on the same folder starts with the
    completed set the run has ended with. *)
Theorem restart_resumes v w cfg fuel linesep s0 :
  let s := state_of (run v w cfg fuel s0) in
  linesep = String LF "" ∨ linesep = String CR (String LF "") →
  completed_files s0 = list_to_set (progress_file s0) →
  Forall (λ p, one_line p = true ∧ strip p = p) (progress_file s) →
  Forall (λ e, transfer_to (ledger_path cfg) e = false) (new_effects s0 s) →
  file_on_disk (ledger_path cfg) (map Line (progress_file s0)) (new_effects s0 s)
  = map Line (progress_file s)
  ∧ completed_files s = list_to_set (progress_file s)
  ∧ completed_files (restart linesep s) = completed_files s
  ∧ progress_file (restart linesep s) = progress_file s.
Proof.
  intros s Hsep Hsync Hclean Hno.
  destruct (run_books v w cfg fuel s0) as (Hl & Hc & _). fold s in Hl, Hc.
  assert (Hs : completed_files s = list_to_set (progress_file s)).
  { rewrite Hc, Hl, Hsync, list_to_set_app_L. apply (comm_L (∪)). }
  split; [|split; [exact Hs|]].
  { rewrite (file_on_disk_appended _ _ Hno), Hl. by rewrite map_app. }
  split; [|done].
  rewrite Hs. unfold restart. cbn [completed_files init].
  rewrite load_ledger; [|done|].
  - f_equal. clear -Hclean. induction Hclean as [|p ps [_ E] _ IH]; [done|].
    cbn [map]. by rewrite E, IH.
  - eapply Forall_impl; [exact Hclean|]. by intros p [H _].
Qed.

Lemma restart_resumes_witness :
  let s := state_of (run Test3Py tree_world crawl_h 4 (init ∅ [])) in
  progress_file s = ["dest/a.txt"; "dest/sub/b.txt"]%string
  ∧ file_on_disk (ledger_path crawl_h) [] (new_effects (init ∅ []) s)
    = [Line "dest/a.txt"; Line "dest/sub/b.txt"]
  ∧ completed_files (restart (String LF "") s) = completed_files s.
Proof.
  intros s.
  assert (Hl : progress_file s = ["dest/a.txt"; "dest/sub/b.txt"]%string)
    by (vm_compute; reflexivity).
  split; [exact Hl|].
  destruct (restart_resumes Test3Py tree_world crawl_h 4 (String LF "") (init ∅ []))
    as (Hd & _ & Hr & _).
  - by left.
  - reflexivity.
  - fold s. rewrite Hl. repeat constructor.
  - apply Forall_forall. intros e He. apply list_elem_of_In in He.
    vm_compute in He. intuition (subst e; reflexivity).
  - fold s in Hd, Hr. rewrite Hl in Hd. split; [exact Hd | exact Hr].
Defined.

(** ** The window and the thread *)

Lemma download_button_handle win ev :
  download_button (handle win ev)
  = match ev with
    | Delivered complete_signal | Delivered canceled_signal => true
    | _ => download_button win
    end.
Proof. by destruct ev as [[]|[]|[]|[]]. Qed.

Lemma delivered_cons ev evs sg :
  sg ∈ delivered (ev :: evs) ↔ ev = Delivered sg ∨ sg ∈ delivered evs.
Proof.
  change (delivered (ev :: evs))
    with (match ev with Delivered sg => [sg] | _ => [] end ++ delivered evs).
  rewrite elem_of_app.
  destruct ev; rewrite ?elem_of_nil, ?list_elem_of_singleton;
    split; intros [H|H]; try tauto; try discriminate; left; congruence.
Qed.

Lemma download_button_events evs win :
  download_button (foldl handle win evs) = true
  ↔ download_button win = true
    ∨ complete_signal ∈ delivered evs ∨ canceled_signal ∈ delivered evs.
Proof.
  revert win. induction evs as [|ev evs IH]; intros win; cbn [foldl].
  { unfold delivered. cbn [flat_map]. rewrite !elem_of_nil. tauto. }
  rewrite IH, download_button_handle, !delivered_cons.
  destruct ev as [[]|[]|[]|[]];
    split; intros H; try tauto;
    repeat match goal with
           | H : _ ∨ _ |- _ => destruct H
           | H : Delivered _ = Delivered _ |- _ => discriminate H
           | H : _ _ = Delivered _ |- _ => discriminate H
           end; tauto.
Qed.

Lemma signals_app es1 es2 : signals (es1 ++ es2) = signals es1 ++ signals es2.
Proof. apply flat_map_app. Qed.

Lemma elem_of_signals sg es : sg ∈ signals es ↔ Emit sg ∈ es.
Proof.
  induction es as [|e es IH]; [by rewrite !elem_of_nil|].
  change (signals (e :: es)) with (match e with Emit sg => [sg] | _ => [] end ++ signals es).
  rewrite elem_of_app, elem_of_cons, IH.
  destruct e; rewrite ?elem_of_nil, ?list_elem_of_singleton;
    split; intros [H|H]; try tauto; try discriminate; try (left; congruence).
Qed.

Lemma log_output_handle win ev :
  log_output (handle win ev)
  = log_output win
    ++ match ev with
       | Delivered (log_signal m) => [FromThread m]
       | Delivered (file_count_signal n) => [TotalFiles n]
       | Delivered complete_signal => [DownloadComplete]
       | Delivered canceled_signal => [DownloadCanceled]
       | _ => []
       end.
Proof. destruct ev as [[]|[]|[]|[]]; cbn; by rewrite ?app_nil_r. Qed.

Lemma log_output_kept l evs win :
  l ∈ log_output win → l ∈ log_output (foldl handle win evs).
Proof.
  revert win. induction evs as [|ev evs IH]; intros win H; [done|].
  cbn [foldl]. apply IH. rewrite log_output_handle. apply elem_of_app. by left.
Qed.

Lemma thread_line_shown m evs win :
  log_signal m ∈ delivered evs →
  FromThread m ∈ log_output (foldl handle win evs).
Proof.
  revert win. induction evs as [|ev evs IH]; intros win; [by rewrite elem_of_nil|].
  unfold delivered. cbn [flat_map foldl]. fold (delivered evs).
  intros [H|H]%elem_of_app; [|by apply IH].
  apply log_output_kept. rewrite log_output_handle. apply elem_of_app. right.
  destruct ev as [sg| | |]; try by apply elem_of_nil in H.
  apply list_elem_of_singleton in H as <-. by apply list_elem_of_singleton.
Qed.

(** X19. The Download button after a run. [start_download] disables it, and
    of the events that follow (the signals of the thread reaching their
    slots, clicks on Pause, Resume and Cancel) only the completion and the
    canceled signal enable it again. So a run that ends in the exception
    handler with the flag unset leaves it disabled, with the error line in
    the log; so does a run whose [cancel()] came after the last check of the
    walk. *)
Theorem download_button_after_run v w cfg fuel s evs win :
  let new := new_effects s (state_of (run v w cfg fuel s)) in
  let win' := foldl handle (started win) evs in
  delivered evs = signals new →
  (download_button win' = true
   ↔ Emit complete_signal ∈ new ∨ Emit canceled_signal ∈ new)
  ∧ (∀ e s1, pipeline v w cfg fuel s = Exc e s1 →
             cancel_set w (clock s1) = false →
             download_button win' = false
             ∧ FromThread (MsgErrorOccurred e) ∈ log_output win')
  ∧ (∀ s1, pipeline v w cfg fuel s = Ret tt s1 →
           cancel_set w (clock s1) = true →
           Emit canceled_signal ∉ new_effects s s1 →
           download_button win' = false).
Proof.
  intros new win' Hev.
  assert (Hb : download_button win' = true
               ↔ Emit complete_signal ∈ new ∨ Emit canceled_signal ∈ new).
  { subst win'. rewrite download_button_events, Hev, !elem_of_signals.
    cbn [download_button started]. split; [intros [?|?]; [done | tauto] | tauto]. }
  assert (Hoff : Emit complete_signal ∉ new → Emit canceled_signal ∉ new →
                 download_button win' = false).
  { intros H1 H2. destruct (download_button win'); [|done].
    destruct (proj1 Hb eq_refl); done. }
  split; [exact Hb|].
  destruct (run_shape v w cfg fuel s) as (s1 & [new1 T F C K D N] & Hend).
  pose proof (emittable_not_complete v cfg new1 F) as Hnc.
  split.
  - intros e s2 E Hc.
    destruct Hend as [Hp _ _|Hp _ _|e' Hp Hr|Hp _]; rewrite E in Hp;
      [discriminate.. | | discriminate].
    injection Hp as -> ->.
    assert (Hnew : new = new1 ++ [Emit (log_signal (MsgErrorOccurred e'))]).
    { subst new. rewrite Hr. cbn [state_of]. apply new_effects_app.
      unfold_state. by rewrite T, app_assoc. }
    split.
    + apply Hoff; rewrite Hnew;
        intros [Hin|Hin%list_elem_of_singleton]%elem_of_app; try done.
      rewrite (C Hin) in Hc. done.
    + subst win'. apply thread_line_shown. rewrite Hev. apply elem_of_signals.
      rewrite Hnew. apply elem_of_app. right. by apply list_elem_of_singleton.
  - intros s2 E Hc Hno.
    destruct Hend as [Hp _ Hr|Hp Hc' _|e' Hp _|Hp _]; rewrite E in Hp;
      [ | | discriminate..].
    + injection Hp as ->.
      assert (Hnew : new = new1).
      { subst new. rewrite Hr. cbn [state_of]. by apply new_effects_app. }
      rewrite (new_effects_app s s1 new1 T) in Hno.
      apply Hoff; by rewrite Hnew.
    + injection Hp as ->. congruence.
Qed.

Lemma delivered_map sgs : delivered (map Delivered sgs) = sgs.
Proof. induction sgs as [|sg sgs IH]; [done|]. cbn. by rewrite <- IH at 2. Qed.

Lemma download_button_witness :
  let new := new_effects (init ∅ [])
               (state_of (run TestPy unsized_world crawl_h 3 (init ∅ []))) in
  let win0 := mkWindow true false false false None None None [] in
  let win' := foldl handle (started win0) (map Delivered (signals new)) in
  download_button win' = false
  ∧ FromThread (MsgErrorOccurred ZeroDivisionError) ∈ log_output win'.
Proof.
  intros new win0 win'.
  destruct (download_button_after_run TestPy unsized_world crawl_h 3 (init ∅ [])
              (map Delivered (signals new)) win0 (delivered_map (signals new)))
    as (_ & H & _).
  assert (E : pipeline TestPy unsized_world crawl_h 3 (init ∅ [])
              = Exc ZeroDivisionError
                  (mkState 1 0 0 ∅ [] []
                     [HttpGet (listing_request "http://h/"); Emit (file_count_signal 1);
                      HttpGet (listing_request "http://h/");
                      Emit (log_signal (MsgDownloadingFile "f" "dest/f"));
                      HttpGet (stream_request TestPy crawl_h "http://h/f");
                      OpenWb "dest/f"; Write "dest/f" ["a"%byte]] 6))
    by (vm_compute; reflexivity).
  exact (H ZeroDivisionError _ E eq_refl).
Defined.

(** ** Check URL, then Download *)

(** X20. Which URL the thread gets (test-3.py). [start_download] takes the
    final URL field when it is not empty, and [check_url] writes that field
    only when the answer is a 302, to its [Location]; nothing clears it. So
    after a 302 the thread is started on the target of the redirect, in the
    mode its trailing ['/'] decides; and once the field is set, a later
    check of another URL that is not answered 302 leaves it: the download
    starts on the old target, not on the URL typed. *)
Theorem redirect_target_sticks reply f win f' win' cfg :
  check_url reply f win = Returned f' win' →
  start_download Test3Py f' = Some cfg →
  (∀ redirect_url,
     url_input f ≠ EmptyString →
     reply = HeadStatus 302 (Some redirect_url) →
     redirect_url ≠ EmptyString →
     base_url cfg = redirect_url
     ∧ is_single_file cfg = negb (endswith_slash redirect_url)
     ∧ download_button win' = true)
  ∧ ((∀ redirect_url, reply ≠ HeadStatus 302 (Some redirect_url)) →
     final_url_input f ≠ EmptyString →
     base_url cfg = final_url_input f
     ∧ is_single_file cfg = negb (endswith_slash (final_url_input f)))
  ∧ ((∀ redirect_url, reply ≠ HeadStatus 302 (Some redirect_url)) →
     final_url_input f = EmptyString →
     base_url cfg = url_input f).
Proof.
  intros Hcheck Hstart.
  assert (Hurl : ∀ u, final_url_input f' = u → u ≠ EmptyString →
                      base_url cfg = u ∧ is_single_file cfg = negb (endswith_slash u)).
  { intros u Hu Hne. unfold start_download in Hstart.
    destruct (String.eqb (path_input f') ""); [done|].
    injection Hstart as <-. cbn [base_url is_single_file]. rewrite Hu.
    by destruct (String.eqb_spec u ""). }
  assert (Hkeep : (∀ redirect_url, reply ≠ HeadStatus 302 (Some redirect_url)) →
                  f' = f).
  { intros Hno. unfold check_url in Hcheck.
    destruct (String.eqb (url_input f) ""); [by injection Hcheck|].
    destruct reply as [|status [l|]]; [by injection Hcheck | |].
    - destruct (status =? 200); [by injection Hcheck|].
      destruct (status =? 302) eqn:E.
      + apply Z.eqb_eq in E as ->. by destruct (Hno l).
      + destruct (status =? 401); by injection Hcheck.
    - destruct (status =? 200); [by injection Hcheck|].
      destruct (status =? 302); [done|].
      destruct (status =? 401); by injection Hcheck. }
  split_and!.
  - intros l Hne -> Hl. unfold check_url in Hcheck.
    destruct (String.eqb_spec (url_input f) ""); [done|].
    cbn in Hcheck. injection Hcheck as <- <-.
    destruct (Hurl l eq_refl Hl) as [H1 H2]. by split_and!.
  - intros Hno Hne. rewrite (Hkeep Hno) in Hurl. by apply Hurl.
  - intros Hno He. rewrite (Hkeep Hno) in Hstart. unfold start_download in Hstart.
    destruct (String.eqb (path_input f) ""); [done|].
    injection Hstart as <-. cbn [base_url]. by rewrite He.
Qed.

Lemma redirect_target_sticks_witness :
  let f := mkForm "http://h/other/" "http://m/f" "dest" "" "" in
  let win := mkWindow false false false false None None None [] in
  ∃ cfg, start_download Test3Py f = Some cfg
         ∧ base_url cfg = "http://m/f"%string ∧ is_single_file cfg = true.
Proof.
  intros f win.
  exists (mkConfig "http://m/f" "dest" "" "" true). split; [reflexivity|].
  assert (Hno : ∀ redirect_url : string,
            HeadStatus 200 None ≠ HeadStatus 302 (Some redirect_url)) by discriminate.
  assert (Hne : final_url_input f ≠ EmptyString) by discriminate.
  exact (proj1 (proj2 (redirect_target_sticks (HeadStatus 200 None) f win f
                         (enable_download (window_log UrlReachable win))
                         (mkConfig "http://m/f" "dest" "" "" true) eq_refl eq_refl))
           Hno Hne).
Defined.
